(** * Release-version generator of the nx-python plugin

    A shallow embedding of
    [packages/nx-python/src/generators/release-version/release-version.ts]
    and of the library primitives it calls (node-semver's [inc], [gt],
    [prerelease], [valid]; nx's [deriveNewSemverVersion] and
    [isValidSemverSpecifier]), followed by the properties of the
    dependency-aware version propagation engine. *)

From Stdlib Require Import String Ascii NArith List Bool Lia.
From Stdlib Require Import DecimalString DecimalN DecimalFacts.
From stdpp Require Import base option strings gmap list.

Local Open Scope string_scope.
Local Open Scope list_scope.

(** ** Strings *)

Module Str.

(** [s.split(c)] for a one-character separator: the empty string splits
    into one empty piece. *)
Fixpoint splitOn (c : ascii) (s : string) : list string :=
  match s with
  | EmptyString => [EmptyString]
  | String a s' =>
      if Ascii.eqb a c then EmptyString :: splitOn c s'
      else match splitOn c s' with
           | [] => [String a EmptyString]
           | h :: t => String a h :: t
           end
  end.

(** The text before the first [c], and the text after it when there is one. *)
Fixpoint breakAt (c : ascii) (s : string) : string * option string :=
  match s with
  | EmptyString => (EmptyString, None)
  | String a s' =>
      if Ascii.eqb a c then (EmptyString, Some s')
      else let '(h, t) := breakAt c s' in (String a h, t)
  end.

(** [parts.join(sep)] *)
Fixpoint join (sep : string) (parts : list string) : string :=
  match parts with
  | [] => EmptyString
  | [p] => p
  | p :: rest => p +:+ sep +:+ join sep rest
  end.

Fixpoint allChars (p : ascii -> bool) (s : string) : bool :=
  match s with
  | EmptyString => true
  | String a s' => p a && allChars p s'
  end.

Definition isDigit (c : ascii) : bool :=
  let n := N_of_ascii c in (48 <=? n)%N && (n <=? 57)%N.

Definition isLetter (c : ascii) : bool :=
  let n := N_of_ascii c in
  ((65 <=? n)%N && (n <=? 90)%N) || ((97 <=? n)%N && (n <=? 122)%N).

Definition nonEmpty (s : string) : bool :=
  match s with EmptyString => false | _ => true end.

(** [s.replace(/^v/, '')] *)
Definition stripLeadingV (s : string) : string :=
  match s with
  | String "v"%char rest => rest
  | _ => s
  end.

(** [s.startsWith(p)] *)
Definition startsWith (p s : string) : bool := String.prefix p s.

(** A string stands for the JavaScript string that its bytes encode in
    UTF-8.  JavaScript counts and reads a string by UTF-16 code units:
    [codeUnits s] is what [s.charCodeAt(i)] gives for [i] below
    [s.length].  A byte that begins no well-formed sequence is read as
    U+FFFD. *)

(** The six low bits of a continuation byte. *)
Definition continuation (c : ascii) : option N :=
  let n := N_of_ascii c in
  if (128 <=? n)%N && (n <? 192)%N then Some (n - 128)%N else None.

(** A code point outside the basic plane is a pair of surrogates. *)
Definition unitsOfCodePoint (codePoint : N) : list N :=
  if (codePoint <? 65536)%N then [codePoint]
  else [(55296 + (codePoint - 65536) / 1024)%N;
        (56320 + (codePoint - 65536) mod 1024)%N].

Fixpoint codeUnits (s : string) : list N :=
  match s with
  | EmptyString => []
  | String a rest =>
      let b := N_of_ascii a in
      let malformed := 65533%N :: codeUnits rest in
      if (b <? 128)%N then b :: codeUnits rest
      else
        match rest with
        | String a1 rest1 =>
            match continuation a1 with
            | Some c1 =>
                if (194 <=? b)%N && (b <? 224)%N
                then ((b - 192) * 64 + c1)%N :: codeUnits rest1
                else
                  match rest1 with
                  | String a2 rest2 =>
                      match continuation a2 with
                      | Some c2 =>
                          let three := ((b - 224) * 4096 + c1 * 64 + c2)%N in
                          if (224 <=? b)%N && (b <? 240)%N && (2048 <=? three)%N
                             && negb ((55296 <=? three)%N && (three <? 57344)%N)
                          then three :: codeUnits rest2
                          else
                            match rest2 with
                            | String a3 rest3 =>
                                match continuation a3 with
                                | Some c3 =>
                                    let four :=
                                      ((b - 240) * 262144 + c1 * 4096
                                       + c2 * 64 + c3)%N in
                                    if (240 <=? b)%N && (b <? 245)%N
                                       && (65536 <=? four)%N
                                       && (four <? 1114112)%N
                                    then unitsOfCodePoint four ++ codeUnits rest3
                                    else malformed
                                | None => malformed
                                end
                            | EmptyString => malformed
                            end
                      | None => malformed
                      end
                  | EmptyString => malformed
                  end
            | None => malformed
            end
        | EmptyString => malformed
        end
  end.

(** [s.length] *)
Definition length (s : string) : nat := List.length (codeUnits s).

(** The UTF-8 bytes of a code point of the basic plane. *)
Definition utf8 (codePoint : N) : string :=
  if (codePoint <? 128)%N then String (ascii_of_N codePoint) EmptyString
  else if (codePoint <? 2048)%N then
    String (ascii_of_N (192 + codePoint / 64))
      (String (ascii_of_N (128 + codePoint mod 64)) EmptyString)
  else
    String (ascii_of_N (224 + codePoint / 4096))
      (String (ascii_of_N (128 + (codePoint / 64) mod 64))
         (String (ascii_of_N (128 + codePoint mod 64)) EmptyString)).

(** The code points that [trim] removes: ECMAScript's WhiteSpace and
    LineTerminator. *)
Definition whiteSpace : list N :=
  [9; 10; 11; 12; 13; 32; 160; 5760; 8192; 8193; 8194; 8195; 8196; 8197;
   8198; 8199; 8200; 8201; 8202; 8232; 8233; 8239; 8287; 12288; 65279]%N.

(** [s] without the prefix [p], when it has it. *)
Fixpoint dropPrefix (p s : string) : option string :=
  match p, s with
  | EmptyString, _ => Some s
  | String a p', String b s' => if Ascii.eqb a b then dropPrefix p' s' else None
  | String _ _, EmptyString => None
  end.

(** [s] without the white space character it begins with, if any. *)
Definition dropWhiteSpace (s : string) : option string :=
  fold_right
    (fun codePoint found =>
       match dropPrefix (utf8 codePoint) s with
       | Some rest => Some rest
       | None => found
       end)
    None whiteSpace.

Fixpoint trimStartWithin (fuel : nat) (s : string) : string :=
  match fuel with
  | O => s
  | S fuel' =>
      match dropWhiteSpace s with
      | Some rest => trimStartWithin fuel' rest
      | None => s
      end
  end.

(** [s.trimStart()] *)
Definition trimStart (s : string) : string := trimStartWithin (String.length s) s.

(** The string holds white space only. *)
Definition isBlank (s : string) : bool := negb (nonEmpty (trimStart s)).

(** [s.trimEnd()]: the string up to the white space it ends with. *)
Fixpoint trimEnd (s : string) : string :=
  match s with
  | EmptyString => EmptyString
  | String a rest =>
      if isBlank (String a rest) then EmptyString else String a (trimEnd rest)
  end.

(** [s.trim()] *)
Definition trim (s : string) : string := trimEnd (trimStart s).

End Str.

(** ** node-semver

    The part of the semver package (release 7.7) that the generator
    relies on, in strict mode: a version is at most 256 characters long
    and, once trimmed, reads [major.minor.patch] with an optional
    [-prerelease] and an optional [+build]; numeric identifiers have no
    leading zero, [major], [minor] and [patch] are at most
    [Number.MAX_SAFE_INTEGER], and a numeric prerelease identifier that is
    not below that bound stays a string.  Build metadata takes no part in
    [inc], [gt], [prerelease] or in the [version] string of a parsed value,
    so a parsed version does not keep it. *)

Module Semver.

Definition MAX_LENGTH : nat := 256.

Definition MAX_SAFE_INTEGER : N := 9007199254740991.

Inductive Identifier : Type :=
| INum (n : N)
| IStr (s : string).

Record SemVer : Type := mkSemVer {
  major : N;
  minor : N;
  patch : N;
  prerelease : list Identifier
}.

Inductive ReleaseType : Type :=
| Major | Premajor | Minor | Preminor | Patch | Prepatch | Prerelease.

(** [RELEASE_TYPES] *)
Definition RELEASE_TYPES : list string :=
  ["major"; "premajor"; "minor"; "preminor"; "patch"; "prepatch"; "prerelease"].

Definition releaseTypeOfString (s : string) : option ReleaseType :=
  if String.eqb s "major" then Some Major
  else if String.eqb s "premajor" then Some Premajor
  else if String.eqb s "minor" then Some Minor
  else if String.eqb s "preminor" then Some Preminor
  else if String.eqb s "patch" then Some Patch
  else if String.eqb s "prepatch" then Some Prepatch
  else if String.eqb s "prerelease" then Some Prerelease
  else None.

Definition uint_eqb (a b : Decimal.uint) : bool :=
  if Decimal.uint_eq_dec a b then true else false.

(** [0|[1-9]\d*] read as a number. *)
Definition parseNumeric (s : string) : option N :=
  match NilEmpty.uint_of_string s with
  | Some d => if uint_eqb (Decimal.unorm d) d then Some (N.of_uint d) else None
  | None => None
  end.

Definition formatN (n : N) : string := NilEmpty.string_of_uint (N.to_uint n).

(** Unary [+] on a run of digits: the integer the nearest double stands
    for (ties to even); an integer of at most 53 bits is itself. *)
Definition toNumber (n : N) : N :=
  if (N.size n <=? 53)%N then n
  else
    let e := (N.size n - 53)%N in
    let q := N.shiftr n e in
    let r := (n - N.shiftl q e)%N in
    let half := N.shiftl 1 (e - 1) in
    let up := (half <? r)%N || ((r =? half)%N && N.odd q) in
    N.shiftl (if up then q + 1 else q)%N e.

Definition isIdentChar (c : ascii) : bool :=
  Str.isDigit c || Str.isLetter c || Ascii.eqb c "-"%char.

(** A prerelease identifier: a numeric identifier below
    [MAX_SAFE_INTEGER] becomes a number, any other run of letters, digits
    and hyphens stays a string. *)
Definition parseIdentifier (s : string) : option Identifier :=
  if Str.nonEmpty s && Str.allChars isIdentChar s then
    if Str.allChars Str.isDigit s then
      option_map
        (fun n => if (n <? MAX_SAFE_INTEGER)%N then INum n else IStr s)
        (parseNumeric s)
    else Some (IStr s)
  else None.

Definition validBuildIdentifier (s : string) : bool :=
  Str.nonEmpty s && Str.allChars isIdentChar s.

Fixpoint parseIdentifiers (l : list string) : option (list Identifier) :=
  match l with
  | [] => Some []
  | s :: rest =>
      match parseIdentifier s, parseIdentifiers rest with
      | Some i, Some r => Some (i :: r)
      | _, _ => None
      end
  end.

(** The match of the trimmed string against [re[t.FULL]], its numbers
    read; the bounds that the pattern puts on runs of characters hold for
    every string of at most [MAX_LENGTH] characters. *)
Definition matchFull (version : string) : option SemVer :=
  let s := Str.stripLeadingV version in
  let '(s1, build) := Str.breakAt "+" s in
  let '(main, pre) := Str.breakAt "-" s1 in
  let buildOk :=
    match build with
    | None => true
    | Some b => forallb validBuildIdentifier (Str.splitOn "." b)
    end in
  if buildOk then
    match Str.splitOn "." main with
    | [a; b; c] =>
        match parseNumeric a, parseNumeric b, parseNumeric c with
        | Some ma, Some mi, Some pa =>
            match pre with
            | None => Some (mkSemVer ma mi pa [])
            | Some p =>
                option_map (mkSemVer ma mi pa)
                  (parseIdentifiers (Str.splitOn "." p))
            end
        | _, _, _ => None
        end
    | _ => None
    end
  else None.

(** [new SemVer(version)], [None] when the constructor throws. *)
Definition parse (version : string) : option SemVer :=
  if (MAX_LENGTH <? Str.length version)%nat then None
  else
    match matchFull (Str.trim version) with
    | Some v =>
        if (major v <=? MAX_SAFE_INTEGER)%N && (minor v <=? MAX_SAFE_INTEGER)%N
           && (patch v <=? MAX_SAFE_INTEGER)%N
        then Some v else None
    | None => None
    end.

Definition formatIdentifier (i : Identifier) : string :=
  match i with
  | INum n => formatN n
  | IStr s => s
  end.

(** [SemVer.format()], the [version] field. *)
Definition format (v : SemVer) : string :=
  formatN (major v) +:+ "." +:+ formatN (minor v) +:+ "." +:+
  formatN (patch v) +:+
  match prerelease v with
  | [] => ""
  | p => "-" +:+ Str.join "." (map formatIdentifier p)
  end.

(** The number an identifier stands for under [/^[0-9]+$/.test] and unary [+]. *)
Definition numericValue (i : Identifier) : option N :=
  match i with
  | INum n => Some n
  | IStr s =>
      if Str.nonEmpty s && Str.allChars Str.isDigit s
      then option_map (fun d => toNumber (N.of_uint d))
             (NilEmpty.uint_of_string s)
      else None
  end.

Definition compareIdentifiers (a b : Identifier) : comparison :=
  match numericValue a, numericValue b with
  | Some x, Some y => N.compare x y
  | Some _, None => Lt
  | None, Some _ => Gt
  | None, None => String.compare (formatIdentifier a) (formatIdentifier b)
  end.

(** JavaScript's [===] on two identifiers. *)
Definition strictEq (a b : Identifier) : bool :=
  match a, b with
  | INum x, INum y => N.eqb x y
  | IStr x, IStr y => String.eqb x y
  | _, _ => false
  end.

Definition compareMain (a b : SemVer) : comparison :=
  match N.compare (major a) (major b) with
  | Eq => match N.compare (minor a) (minor b) with
          | Eq => N.compare (patch a) (patch b)
          | c => c
          end
  | c => c
  end.

Fixpoint comparePreLoop (a b : list Identifier) : comparison :=
  match a, b with
  | [], [] => Eq
  | _ :: _, [] => Gt
  | [], _ :: _ => Lt
  | x :: a', y :: b' =>
      if strictEq x y then comparePreLoop a' b' else compareIdentifiers x y
  end.

Definition comparePre (a b : SemVer) : comparison :=
  match prerelease a, prerelease b with
  | _ :: _, [] => Lt
  | [], _ :: _ => Gt
  | [], [] => Eq
  | pa, pb => comparePreLoop pa pb
  end.

Definition compare (a b : SemVer) : comparison :=
  match compareMain a b with
  | Eq => comparePre a b
  | c => c
  end.

Definition isGt (c : comparison) : bool :=
  match c with Gt => true | _ => false end.

(** The [while (--i >= 0)] loop of [inc('pre')]: the rightmost number is
    incremented; [None] when the list holds no number. *)
Fixpoint bumpLastNumeric (p : list Identifier) : option (list Identifier) :=
  match p with
  | [] => None
  | x :: r =>
      match bumpLastNumeric r with
      | Some r' => Some (x :: r')
      | None =>
          match x with
          | INum n => Some (INum (n + 1) :: r)
          | IStr _ => None
          end
      end
  end.

(** [isNaN(this.prerelease[1])]; a string identifier counts as a number
    only when it is a run of digits. *)
Definition isNaNAt1 (p : list Identifier) : bool :=
  match p with
  | _ :: i :: _ => match numericValue i with Some _ => false | None => true end
  | _ => true
  end.

Definition truthyIdentifier (identifier : option string) : option string :=
  match identifier with
  | Some s => if Str.nonEmpty s then Some s else None
  | None => None
  end.

(** The string without the digits it begins with. *)
Fixpoint dropDigits (s : string) : string :=
  match s with
  | EmptyString => EmptyString
  | String a rest => if Str.isDigit a then dropDigits rest else s
  end.

(** One identifier as [re[t.PRERELEASE]] takes it in full: a number
    without a leading zero, or at most 256 digits, a letter or hyphen, and
    at most 250 further letters, digits and hyphens. *)
Definition validPrereleaseIdentifier (s : string) : bool :=
  Str.nonEmpty s && Str.allChars isIdentChar s
  && match dropDigits s with
     | EmptyString =>
         match parseNumeric s with Some _ => true | None => false end
         && (String.length s <=? 257)%nat
     | String _ rest =>
         (String.length s - S (String.length rest) <=? 256)%nat
         && (String.length rest <=? 250)%nat
     end.

(** The check of [inc] on an identifier:
    [`-${identifier}`.match(re[t.PRERELEASE])] captures all of it. *)
Definition validPreid (identifier : string) : bool :=
  forallb validPrereleaseIdentifier (Str.splitOn "." identifier).

Definition startsWithPre (release : ReleaseType) : bool :=
  match release with
  | Premajor | Preminor | Prepatch | Prerelease => true
  | Major | Minor | Patch => false
  end.

(** [SemVer.prototype.inc(release, identifier)] throws on an identifier
    that is not a valid prerelease, when the release starts with [pre]. *)
Definition incThrows (release : ReleaseType) (identifier : option string)
    : bool :=
  startsWithPre release
  && match truthyIdentifier identifier with
     | Some id => negb (validPreid id)
     | None => false
     end.

(** [inc('pre', identifier)] with [identifierBase] undefined, so [base] is 0. *)
Definition incPre (identifier : option string) (v : SemVer) : SemVer :=
  let pre1 :=
    match prerelease v with
    | [] => [INum 0]
    | p => match bumpLastNumeric p with
           | Some p' => p'
           | None => p ++ [INum 0]
           end
    end in
  let pre2 :=
    match truthyIdentifier identifier with
    | Some id =>
        let fresh := [IStr id; INum 0] in
        match pre1 with
        | first :: _ =>
            match compareIdentifiers first (IStr id) with
            | Eq => if isNaNAt1 pre1 then fresh else pre1
            | _ => fresh
            end
        | [] => fresh
        end
    | None => pre1
    end in
  mkSemVer (major v) (minor v) (patch v) pre2.

Definition incPatch (v : SemVer) : SemVer :=
  mkSemVer (major v) (minor v)
    (match prerelease v with [] => patch v + 1 | _ => patch v end) [].

(** What [SemVer.prototype.inc(release, identifier)] leaves when it does
    not throw. *)
Definition inc (release : ReleaseType) (identifier : option string)
    (v : SemVer) : SemVer :=
  match release with
  | Premajor => incPre identifier (mkSemVer (major v + 1) 0 0 [])
  | Preminor => incPre identifier (mkSemVer (major v) (minor v + 1) 0 [])
  | Prepatch =>
      incPre identifier
        (incPatch (mkSemVer (major v) (minor v) (patch v) []))
  | Prerelease =>
      incPre identifier
        (match prerelease v with [] => incPatch v | _ => v end)
  | Major =>
      let bump :=
        negb (N.eqb (minor v) 0) || negb (N.eqb (patch v) 0) ||
        match prerelease v with [] => true | _ => false end in
      mkSemVer (if bump then major v + 1 else major v) 0 0 []
  | Minor =>
      let bump :=
        negb (N.eqb (patch v) 0) ||
        match prerelease v with [] => true | _ => false end in
      mkSemVer (major v) (if bump then minor v + 1 else minor v) 0 []
  | Patch => incPatch v
  end.

(** The exported functions, on strings.  [None] is [null] for [valid],
    [incStr] and [prereleaseStr], and a thrown [TypeError] for [gtStr]. *)

Definition valid (version : string) : option string :=
  option_map format (parse version).

Definition incStr (version release : string) (identifier : option string)
    : option string :=
  match parse version, releaseTypeOfString release with
  | Some v, Some r =>
      if incThrows r identifier then None
      else Some (format (inc r identifier v))
  | _, _ => None
  end.

Definition gtStr (a b : string) : option bool :=
  match parse a, parse b with
  | Some va, Some vb => Some (isGt (compare va vb))
  | _, _ => None
  end.

Definition prereleaseStr (version : string) : option (list Identifier) :=
  match parse version with
  | Some v => match prerelease v with [] => None | p => Some p end
  | None => None
  end.

End Semver.

(** ** Results of code that may throw *)

Inductive Error : Type :=
| InvalidSpecifierError (specifier : string)
| InvalidVersionPrefixError (versionPrefix : string)
| MissingPackageRootError (projectName : string)
| MissingPyprojectTomlError (projectName path : string)
| RegistryUnresolvedError
| DiskVersionUnresolvedError (projectName path : string)
| NoMatchingGitTagError (releaseTagPattern projectName : string)
| InvalidCurrentVersionResolverError
| ConventionalCommitsResolverError
| NoPreviousVersionRefError
| VersionPlansNotEnabledError
| InvalidSpecifierSourceError
| CurrentVersionUnresolvedError (projectName : string)
| InvalidSemverVersionError (version : string)
| UnableToDeriveVersionError (version specifier : string)
| InvalidSemverSpecifierError (specifier : string)
| RmError (path : string)
| PoetryCommandError (cwd : string) (status : option Z)
| TypeError.

Inductive Result (A : Type) : Type :=
| Ok (a : A)
| Throw (e : Error).
Arguments Ok {A} a.
Arguments Throw {A} e.

Definition bind {A B : Type} (r : Result A) (f : A -> Result B) : Result B :=
  match r with
  | Ok a => f a
  | Throw e => Throw e
  end.

Notation "x <~ c1 ;; c2" := (bind c1 (fun x => c2))
  (at level 100, c1 at next level, right associativity).

(** [for (const x of l) { body }] over a state that a throw abandons. *)
Fixpoint forEach {A S : Type} (body : A -> S -> Result S) (l : list A) (s : S)
    : Result S :=
  match l with
  | [] => Ok s
  | x :: rest => s' <~ body x s ;; forEach body rest s'
  end.

(** ** nx release utilities ([nx/src/command-line/release]) *)

Module Nx.

Definition isRelativeVersionKeyword (val : string) : bool :=
  existsb (String.eqb val) Semver.RELEASE_TYPES.

Definition isValidSemverSpecifier (specifier : string) : bool :=
  Str.nonEmpty specifier &&
  (match Semver.valid specifier with Some _ => true | None => false end
   || isRelativeVersionKeyword specifier).

Definition validReleaseVersionPrefixes : list string :=
  ["auto"; ""; "~"; "^"; "="].

Definition IMPLICIT_DEFAULT_RELEASE_GROUP : string := "__default__".

(** A relative keyword is applied with semver's [inc]; any other
    specifier has to be a valid version and is returned as it is. *)
Definition deriveNewSemverVersion (currentSemverVersion semverSpecifier : string)
    (preid : option string) : Result string :=
  match Semver.valid currentSemverVersion with
  | None => Throw (InvalidSemverVersionError currentSemverVersion)
  | Some _ =>
      if isRelativeVersionKeyword semverSpecifier then
        match Semver.incStr currentSemverVersion semverSpecifier preid with
        | Some derivedVersion =>
            if Str.nonEmpty derivedVersion then Ok derivedVersion
            else Throw (UnableToDeriveVersionError currentSemverVersion
                          semverSpecifier)
        | None =>
            Throw (UnableToDeriveVersionError currentSemverVersion
                     semverSpecifier)
        end
      else
        match Semver.valid semverSpecifier with
        | Some _ => Ok semverSpecifier
        | None => Throw (InvalidSemverSpecifierError semverSpecifier)
        end
  end.

End Nx.

(** ** Data model *)

Record ProjectGraphProjectNode : Type := mkProject {
  name : string;
  root : string   (* [data.root] *)
}.

Inductive DependencyCollection : Type :=
| dependencies_ | devDependencies_ | optionalDependencies_.

Record LocalPackageDependency : Type := mkDep {
  source : string;
  target : string;
  dependencyCollection : DependencyCollection;
  groupKey : option string
}.

(** [({ groupKey, ...rest }) => rest] *)
Definition withoutGroupKey (d : LocalPackageDependency) : LocalPackageDependency :=
  mkDep (source d) (target d) (dependencyCollection d) None.

Record VersionDataEntry : Type := mkEntry {
  currentVersion : option string;
  newVersion : option string;
  dependentProjects : list LocalPackageDependency
}.

(** An entry of a dependency table of pyproject.toml: a version string, or
    a table with optional [version] and [path]. *)
Inductive DependencySpec : Type :=
| DepString (v : string)
| DepTable (version : option string) (path : option string).

(** [tool.poetry]: [dependencies] and [group] may each be absent; a group
    is known by its [dependencies] table, and a group without one is not
    told from a missing group. *)
Record Poetry : Type := mkPoetry {
  poetryName : string;
  poetryVersion : option string;
  poetryDependencies : option (gmap string DependencySpec);
  poetryGroup : option (gmap string (gmap string DependencySpec))
}.

(** A parsed pyproject.toml; [tool.poetry] may be absent. *)
Record PyprojectToml : Type := mkPyproject {
  toolPoetry : option Poetry
}.

(** The virtual file tree: manifests by path, and the paths written through
    [writePyprojectToml], latest last. *)
Record Tree : Type := mkTree {
  files : gmap string PyprojectToml;
  written : list string;
  treeRoot : string
}.

Definition treeExists (tree : Tree) (path : string) : bool :=
  match files tree !! path with Some _ => true | None => false end.

Definition readPyprojectToml (tree : Tree) (tomlFile : string)
    : option PyprojectToml :=
  files tree !! tomlFile.

Definition writePyprojectToml (tree : Tree) (tomlFile : string)
    (data : PyprojectToml) : Tree :=
  mkTree (<[tomlFile := data]> (files tree)) (written tree ++ [tomlFile])
    (treeRoot tree).

Record VersionPlan : Type := mkPlan {
  absolutePath : string;
  relativePath : string;
  projectVersionBumps : option (gmap string string);
  groupVersionBump : option string
}.

Inductive ProjectsRelationship : Type := independent | fixed.

Record ReleaseGroup : Type := mkReleaseGroup {
  groupName : string;
  projectsRelationship : ProjectsRelationship;
  releaseTagPattern : string;
  versionPlans : bool;
  resolvedVersionPlans : list VersionPlan
}.

Inductive SpecifierSource : Type :=
| conventionalCommits | prompt | versionPlansSource
| otherSpecifierSource (s : string).

Inductive CurrentVersionResolver : Type :=
| registry | disk | gitTag | otherResolver (s : string).

Inductive UpdateDependents : Type :=
| updateNever | updateAuto | updateOther (s : string).

Record GitTag : Type := mkGitTag {
  tag : string;
  extractedVersion : string
}.

Record ProjectGraph : Type := mkGraph {
  nodes : list ProjectGraphProjectNode;
  (* [dependencies[source]] holds an edge to each [target] *)
  graphDependencies : list (string * string)
}.

(** [ReleaseVersionGeneratorSchema] *)
Record Options : Type := mkOptions {
  projects : list ProjectGraphProjectNode;
  projectGraph : ProjectGraph;
  releaseGroup : ReleaseGroup;
  optSpecifier : option string;
  optSpecifierSource : SpecifierSource;
  preid : option string;
  packageRoot : option string;
  currentVersionResolver : CurrentVersionResolver;
  fallbackCurrentVersionResolver : option string;
  firstRelease : bool;
  versionPrefix : option string;
  updateDependents : option UpdateDependents;
  preserveLocalDependencyProtocols : bool;
  deleteVersionPlans : bool;
  logUnchangedProjects : option bool
}.

(** JavaScript truthiness of a possibly missing string. *)
Definition truthy (o : option string) : bool :=
  match o with Some s => Str.nonEmpty s | None => false end.

(** A possibly missing string inside a template literal. *)
Definition inTemplate (o : option string) : string :=
  match o with Some s => s | None => "undefined" end.

(** The variable [specifier] of the generator: not resolved yet, resolved
    to no change, or a specifier. *)
Inductive Specifier : Type :=
| specUndefined
| specNull
| specString (s : string).

Definition specTruthy (s : Specifier) : bool :=
  match s with specString x => Str.nonEmpty x | _ => false end.

Definition specOfOption (o : option string) : Specifier :=
  match o with Some s => specString s | None => specNull end.

(** ** Log lines *)

Inductive LogMsg : Type :=
| LogReadingData (packageName path : string)
| LogResolvedFromRegistry (v : option string)
| LogRegistryFallbackToDisk (v : option string)
| LogAlreadyResolvedFromDiskFallback (v : option string)
| LogAlreadyResolvedFromRegistry (v : option string)
| LogResolvedFromDisk (v : option string) (path : string)
| LogGitTagFallbackToDisk (pattern : string) (v : option string)
| LogResolvedFromGitTag (v : option string) (tag : string)
| LogAlreadyResolvedFromGitTag (v : option string) (tag : string)
| LogUsingProvidedSpecifier (specifier : string)
| LogResolvedBecauseUpdateDependents (specifier : string)
| LogNoChangesConventionalCommits
| LogResolvedPrerelease (specifier : string)
| LogResolvedConventionalCommits (specifier : string) (preid : option string)
| LogResolvedVersionPlans (specifier : string)
| LogNoChangesVersionPlans
| LogDependentsNotUpdated (projectName : string) (sources : list string)
    (viaVersionPlans : bool) (groupName : string)
| LogSkippingVersioning (packageName : string)
| LogNewVersionWritten (v path : string)
| LogApplyingNewVersion (v : string) (twiceTotal : Z) (projectName : string).

Inductive ConsoleLine : Type :=
| RunningReleaseVersion (projectName : string) (color : nat)
| ProjectLine (projectName : string) (color : nat) (msg : LogMsg).

(** [colors]: the chalk instance and the spinner colour of each entry. *)
Definition colors : list (string * string) :=
  [("green", "green"); ("greenBright", "green"); ("red", "red");
   ("redBright", "red"); ("cyan", "cyan"); ("cyanBright", "cyan");
   ("yellow", "yellow"); ("yellowBright", "yellow"); ("magenta", "magenta");
   ("magentaBright", "magenta")].

(** The loop of [getColor]: [code += projectName.charCodeAt(i)]. *)
Definition charCodeSum (projectName : string) : N :=
  fold_left (fun code unit => (code + unit)%N) (Str.codeUnits projectName) 0%N.

(** [getColor]: the index in [colors] that the sum of the character codes
    picks. *)
Definition getColor (projectName : string) : nat :=
  N.to_nat (charCodeSum projectName mod N.of_nat (List.length colors)).

(** [ProjectLogger.flush] *)
Definition flush (projectName : string) (logs : list LogMsg) : list ConsoleLine :=
  RunningReleaseVersion projectName (getColor projectName)
  :: map (ProjectLine projectName (getColor projectName)) logs.

(** ** Collaborators

    What the generator obtains from outside this file: the package
    registry, git, the conventional-commit classifier, the prompt, path
    arithmetic, and the helpers [resolveLocalPackageDependencies] and
    [extractDependencyVersion] of the plugin. *)

Inductive PromptQuestion : Type :=
| AskForProject (projectName groupName : string)
| AskForMatchedProjects (count : nat) (groupName : string).

Record Env : Type := mkEnv {
  (* [joinPathFragments(packageRoot, 'pyproject.toml')] *)
  pyprojectTomlIn : string -> string;
  (* [dirname] *)
  dirname : string -> string;
  (* [path.join(lockDir, 'poetry.lock')] *)
  poetryLockIn : string -> string;
  (* [interpolate(customPackageRoot, { workspaceRoot: '', projectRoot, projectName })] *)
  interpolate : string -> string -> string -> string;
  (* the version printed by [pip index versions packageName], if the command succeeds *)
  pipIndexVersions : string -> option string;
  getLatestGitTagForPattern : string -> string -> option GitTag;
  getFirstGitCommit : option string;
  resolveSemverSpecifierFromConventionalCommits :
    string -> list string -> option string;
  resolveSemverSpecifierFromPrompt : PromptQuestion -> string;
  (* the flattened values of the map returned by
     [resolveLocalPackageDependencies], and [projectNameToPackageRootMap]
     as the call leaves it *)
  resolveLocalPackageDependencies :
    Tree -> list ProjectGraphProjectNode -> gmap string string -> bool ->
    list LocalPackageDependency * gmap string string;
  extractDependencyVersion :
    Tree -> string -> option (gmap string DependencySpec) -> string ->
    option string
}.

(** [createResolvePackageRoot] *)
Definition createResolvePackageRoot (env : Env) (customPackageRoot : option string)
    (projectNode : ProjectGraphProjectNode) : string :=
  if negb (truthy customPackageRoot) then root projectNode
  else if String.eqb (root projectNode) "." then root projectNode
  else interpolate env (inTemplate customPackageRoot) (root projectNode)
         (name projectNode).

(** ** State of a run *)

Inductive ForceVersionBump : Type :=
| noForce                      (* [false] *)
| force (bump : string).

(** One call of [updateDependentProjectAndAddToVersionData]. *)
Record UpdateCall : Type := mkCall {
  callDependent : LocalPackageDependency;
  callForce : ForceVersionBump
}.

Record State : Type := mkState {
  tree : Tree;
  versionData : gmap string VersionDataEntry;
  projectToDependencyBumps : gmap string (gset string);
  projectNameToPackageRootMap : gmap string string;
  stCurrentVersion : option string;
  currentVersionResolvedFromFallback : bool;
  latestMatchingGitTag : option GitTag;
  specifier : Specifier;
  specifierSource : SpecifierSource;    (* [options.specifierSource] *)
  deleteVersionPlanCallbacks : list VersionPlan;
  poetryLocks : list string;
  console : list ConsoleLine;
  (* the calls of [updateDependentProjectAndAddToVersionData] so far, latest
     last; nothing in the generator reads it *)
  updateCalls : list UpdateCall
}.

Definition setTree (t : Tree) (s : State) : State :=
  mkState t (versionData s) (projectToDependencyBumps s)
    (projectNameToPackageRootMap s) (stCurrentVersion s)
    (currentVersionResolvedFromFallback s) (latestMatchingGitTag s)
    (specifier s) (specifierSource s) (deleteVersionPlanCallbacks s)
    (poetryLocks s) (console s) (updateCalls s).

Definition setVersionData (v : gmap string VersionDataEntry) (s : State) : State :=
  mkState (tree s) v (projectToDependencyBumps s)
    (projectNameToPackageRootMap s) (stCurrentVersion s)
    (currentVersionResolvedFromFallback s) (latestMatchingGitTag s)
    (specifier s) (specifierSource s) (deleteVersionPlanCallbacks s)
    (poetryLocks s) (console s) (updateCalls s).

Definition setProjectToDependencyBumps (m : gmap string (gset string))
    (s : State) : State :=
  mkState (tree s) (versionData s) m
    (projectNameToPackageRootMap s) (stCurrentVersion s)
    (currentVersionResolvedFromFallback s) (latestMatchingGitTag s)
    (specifier s) (specifierSource s) (deleteVersionPlanCallbacks s)
    (poetryLocks s) (console s) (updateCalls s).

Definition setProjectNameToPackageRootMap (m : gmap string string)
    (s : State) : State :=
  mkState (tree s) (versionData s) (projectToDependencyBumps s) m
    (stCurrentVersion s)
    (currentVersionResolvedFromFallback s) (latestMatchingGitTag s)
    (specifier s) (specifierSource s) (deleteVersionPlanCallbacks s)
    (poetryLocks s) (console s) (updateCalls s).

Definition setCurrentVersion (v : option string) (fromFallback : bool)
    (gitTagFound : option GitTag) (s : State) : State :=
  mkState (tree s) (versionData s) (projectToDependencyBumps s)
    (projectNameToPackageRootMap s) v fromFallback gitTagFound
    (specifier s) (specifierSource s) (deleteVersionPlanCallbacks s)
    (poetryLocks s) (console s) (updateCalls s).

Definition setSpecifier (sp : Specifier) (s : State) : State :=
  mkState (tree s) (versionData s) (projectToDependencyBumps s)
    (projectNameToPackageRootMap s) (stCurrentVersion s)
    (currentVersionResolvedFromFallback s) (latestMatchingGitTag s)
    sp (specifierSource s) (deleteVersionPlanCallbacks s)
    (poetryLocks s) (console s) (updateCalls s).

Definition setSpecifierSource (src : SpecifierSource) (s : State) : State :=
  mkState (tree s) (versionData s) (projectToDependencyBumps s)
    (projectNameToPackageRootMap s) (stCurrentVersion s)
    (currentVersionResolvedFromFallback s) (latestMatchingGitTag s)
    (specifier s) src (deleteVersionPlanCallbacks s)
    (poetryLocks s) (console s) (updateCalls s).

Definition pushDeleteVersionPlanCallbacks (ps : list VersionPlan)
    (s : State) : State :=
  mkState (tree s) (versionData s) (projectToDependencyBumps s)
    (projectNameToPackageRootMap s) (stCurrentVersion s)
    (currentVersionResolvedFromFallback s) (latestMatchingGitTag s)
    (specifier s) (specifierSource s) (deleteVersionPlanCallbacks s ++ ps)
    (poetryLocks s) (console s) (updateCalls s).

Definition pushPoetryLock (dir : string) (s : State) : State :=
  mkState (tree s) (versionData s) (projectToDependencyBumps s)
    (projectNameToPackageRootMap s) (stCurrentVersion s)
    (currentVersionResolvedFromFallback s) (latestMatchingGitTag s)
    (specifier s) (specifierSource s) (deleteVersionPlanCallbacks s)
    (poetryLocks s ++ [dir]) (console s) (updateCalls s).

Definition printLines (lines : list ConsoleLine) (s : State) : State :=
  mkState (tree s) (versionData s) (projectToDependencyBumps s)
    (projectNameToPackageRootMap s) (stCurrentVersion s)
    (currentVersionResolvedFromFallback s) (latestMatchingGitTag s)
    (specifier s) (specifierSource s) (deleteVersionPlanCallbacks s)
    (poetryLocks s) (console s ++ lines) (updateCalls s).

Definition noteUpdateCall (c : UpdateCall) (s : State) : State :=
  mkState (tree s) (versionData s) (projectToDependencyBumps s)
    (projectNameToPackageRootMap s) (stCurrentVersion s)
    (currentVersionResolvedFromFallback s) (latestMatchingGitTag s)
    (specifier s) (specifierSource s) (deleteVersionPlanCallbacks s)
    (poetryLocks s) (console s) (updateCalls s ++ [c]).

(** ** Topological order of the selected projects *)

(** Modelled from the spec: the steps of [sortProjectsTopologically], which
    is not among the sources; see the definition after the module. *)
Module Topo.

(** The first element that satisfies [p], and the list without it. *)
Fixpoint pick {A : Type} (p : A -> bool) (l : list A) : option (A * list A) :=
  match l with
  | [] => None
  | x :: r =>
      if p x then Some (x, r)
      else match pick p r with
           | Some (y, r') => Some (y, x :: r')
           | None => None
           end
  end.

Definition nameIn (n : string) (l : list ProjectGraphProjectNode) : bool :=
  existsb (fun p => String.eqb (name p) n) l.

(** No dependency of [p] is among the projects still waiting. *)
Definition ready (edges : list (string * string))
    (waiting : list ProjectGraphProjectNode) (p : ProjectGraphProjectNode) : bool :=
  forallb (fun e => negb (String.eqb (fst e) (name p) && nameIn (snd e) waiting))
    edges.

Fixpoint emit (fuel : nat) (edges : list (string * string))
    (waiting : list ProjectGraphProjectNode) : list ProjectGraphProjectNode :=
  match fuel with
  | O => waiting
  | S fuel' =>
      match pick (ready edges waiting) waiting with
      | Some (p, rest) => p :: emit fuel' edges rest
      | None => waiting
      end
  end.

End Topo.

(** Modelled from the spec: [sortProjectsTopologically]
    (utils/sort-projects-topologically.ts) is not among the sources.  The
    spec asks for a dependency-first topological sort in the manner of Kahn
    over the edges restricted to the selected projects, which does not loop
    on a cycle and still emits every project once: a project is emitted as
    soon as none of its dependencies is waiting, and when only projects on
    or behind a cycle are left they follow in the order given. *)
Definition sortProjectsTopologically (projectGraph : ProjectGraph)
    (projectNodes : list ProjectGraphProjectNode) : list ProjectGraphProjectNode :=
  Topo.emit (length projectNodes) (graphDependencies projectGraph) projectNodes.

(** ** The generator *)

Section Generator.

Variable env : Env.
Variable options : Options.

(** [options.updateDependents ?? 'never'] *)
Definition updateDependentsMode : UpdateDependents :=
  match updateDependents options with
  | Some u => u
  | None => updateNever
  end.

Definition updateDependentsBump : string := "patch".

Definition isNever : bool :=
  match updateDependentsMode with updateNever => true | _ => false end.

Definition isAuto : bool :=
  match updateDependentsMode with updateAuto => true | _ => false end.

Definition isIndependent : bool :=
  match projectsRelationship (releaseGroup options) with
  | independent => true
  | fixed => false
  end.

(** [options.fallbackCurrentVersionResolver === 'disk'], after the first
    release has forced it. *)
Definition fallbackIsDisk : bool :=
  firstRelease options ||
  match fallbackCurrentVersionResolver options with
  | Some s => String.eqb s "disk"
  | None => false
  end.

(** [options.specifier] after the opening checks: a leading [v] is dropped. *)
Definition providedSpecifier : option string :=
  match optSpecifier options with
  | Some s => Some (Str.stripLeadingV s)
  | None => None
  end.

(** The checks made before any project is read. *)
Definition checkSpecifier : Result unit :=
  match optSpecifier options with
  | Some s =>
      if Str.nonEmpty s && negb (Nx.isValidSemverSpecifier s)
      then Throw (InvalidSpecifierError s) else Ok tt
  | None => Ok tt
  end.

Definition checkVersionPrefix : Result unit :=
  match versionPrefix options with
  | Some p =>
      if Str.nonEmpty p
         && negb (existsb (String.eqb p) Nx.validReleaseVersionPrefixes)
      then Throw (InvalidVersionPrefixError p) else Ok tt
  | None => Ok tt
  end.

Definition checkOptions : Result unit :=
  _ <~ checkSpecifier ;; checkVersionPrefix.

(** The projects in the order of the main loop. *)
Definition sortedProjects : list ProjectGraphProjectNode :=
  if isNever then projects options
  else sortProjectsTopologically (projectGraph options) (projects options).

Definition logUnchanged : bool :=
  match logUnchangedProjects options with
  | Some b => b
  | None => true
  end.

(** *** Updating one dependent *)

(** [poetry.group[groupKey]] is evaluated for an edge of another
    collection than the main one, and throws on a manifest without
    [group] (lines 742 and 793). *)
Definition groupIsMissing (poetry : Poetry) (d : LocalPackageDependency) : bool :=
  match dependencyCollection d, poetryGroup poetry with
  | dependencies_, _ => false
  | _, None => true
  | _, Some _ => false
  end.

(** [poetry.dependencies] for the main collection, otherwise
    [poetry.group[groupKey]?.dependencies]; [None] is [undefined]. *)
Definition dependencyTableOf (poetry : Poetry) (d : LocalPackageDependency)
    : option (gmap string DependencySpec) :=
  match dependencyCollection d with
  | dependencies_ => poetryDependencies poetry
  | _ =>
      match poetryGroup poetry with
      | Some groups => groups !! inTemplate (groupKey d)
      | None => None
      end
  end.

(** [table[name] = v] for a string entry, [table[name].version = v] for a
    table entry that already has a version. *)
Definition setDependencyVersion (table : option (gmap string DependencySpec))
    (dependencyPackageName newDepVersion : string)
    : Result (gmap string DependencySpec) :=
  match table with
  | None => Throw TypeError
  | Some t =>
      match t !! dependencyPackageName with
      | Some (DepString _) =>
          Ok (<[dependencyPackageName := DepString newDepVersion]> t)
      | Some (DepTable v p) =>
          if truthy v
          then Ok (<[dependencyPackageName := DepTable (Some newDepVersion) p]> t)
          else Ok t
      | None => Throw TypeError
      end
  end.

Definition withDependencyTable (poetry : Poetry) (d : LocalPackageDependency)
    (t : gmap string DependencySpec) : Poetry :=
  match dependencyCollection d with
  | dependencies_ =>
      mkPoetry (poetryName poetry) (poetryVersion poetry) (Some t)
        (poetryGroup poetry)
  | _ =>
      mkPoetry (poetryName poetry) (poetryVersion poetry)
        (poetryDependencies poetry)
        (<[inTemplate (groupKey d) := t]> <$> poetryGroup poetry)
  end.

Definition withVersion (poetry : Poetry) (v : string) : Poetry :=
  mkPoetry (poetryName poetry) (Some v) (poetryDependencies poetry)
    (poetryGroup poetry).

(** The prefix inferred from the dependency string under ["auto"]:
    [currentDependencyVersion.match(/^[~^]/)]. *)
Definition inferPrefix (currentDependencyVersion : option string) : string :=
  match currentDependencyVersion with
  | Some (String c _) =>
      if Ascii.eqb c "~"%char || Ascii.eqb c "^"%char
      then String c EmptyString else ""
  | _ => ""
  end.

Definition transitiveDependentsOn (transitive : list LocalPackageDependency)
    (projectName : string) : list LocalPackageDependency :=
  filter (fun d => target d = projectName) transitive.

Definition updateDependentProjectAndAddToVersionData
    (transitiveLocalPackageDependents : list LocalPackageDependency)
    (dependentProject : LocalPackageDependency)
    (dependencyPackageName : string) (newDependencyVersion : option string)
    (forceVersionBump : ForceVersionBump) (st0 : State) : Result State :=
  let st1 := noteUpdateCall (mkCall dependentProject forceVersionBump) st0 in
  match projectNameToPackageRootMap st1 !! source dependentProject with
  | None => Throw TypeError
  | Some dependentRoot =>
    let updatedPyprojectFilePath := pyprojectTomlIn env dependentRoot in
    let st := pushPoetryLock (dirname env updatedPyprojectFilePath) st1 in
    match readPyprojectToml (tree st) updatedPyprojectFilePath with
    | None => Ok st
    | Some updatedPyproject =>
      match toolPoetry updatedPyproject with
      | None => Ok st
      | Some poetry =>
        if groupIsMissing poetry dependentProject then Throw TypeError else
        let table := dependencyTableOf poetry dependentProject in
        let currentDependencyVersion :=
          extractDependencyVersion env (tree st) dependentRoot table
            dependencyPackageName in
        let currentPackageVersion := poetryVersion poetry in
        let transitiveDependentProjects :=
          transitiveDependentsOn transitiveLocalPackageDependents
            (source dependentProject) in
        if negb (truthy currentPackageVersion) then
          let st' :=
            match forceVersionBump with
            | force _ =>
                setVersionData
                  (<[source dependentProject :=
                       mkEntry currentPackageVersion currentDependencyVersion
                         transitiveDependentProjects]> (versionData st)) st
            | noForce => st
            end in
          Ok (setTree
                (writePyprojectToml (tree st') updatedPyprojectFilePath
                   updatedPyproject) st')
        else
          let versionPrefix :=
            match versionPrefix options with
            | Some p =>
                if String.eqb p "auto" then inferPrefix currentDependencyVersion
                else p
            | None => inferPrefix currentDependencyVersion
            end in
          poetry1 <~
            (if negb (preserveLocalDependencyProtocols options) then
               t <~ setDependencyVersion table dependencyPackageName
                      (versionPrefix +:+ inTemplate newDependencyVersion) ;;
               Ok (withDependencyTable poetry dependentProject t)
             else Ok poetry) ;;
          match forceVersionBump with
          | force bump =>
              newPackageVersion <~
                Nx.deriveNewSemverVersion (inTemplate currentPackageVersion)
                  bump (preid options) ;;
              let st' :=
                setVersionData
                  (<[source dependentProject :=
                       mkEntry currentPackageVersion (Some newPackageVersion)
                         transitiveDependentProjects]> (versionData st)) st in
              Ok (setTree
                    (writePyprojectToml (tree st') updatedPyprojectFilePath
                       (mkPyproject (Some (withVersion poetry1 newPackageVersion))))
                    st')
          | noForce =>
              Ok (setTree
                    (writePyprojectToml (tree st) updatedPyprojectFilePath
                       (mkPyproject (Some poetry1))) st)
          end
      end
    end
  end.

(** *** Current version *)

Definition resolveCurrentVersion (projectName packageName : string)
    (currentVersionFromDisk : option string) (pyprojectTomlPath : string)
    (st : State) (logs : list LogMsg) : Result (State * list LogMsg) :=
  match currentVersionResolver options with
  | registry =>
      if negb (truthy (stCurrentVersion st)) || isIndependent then
        match pipIndexVersions env packageName with
        | Some v =>
            Ok (setCurrentVersion (Some v)
                  (currentVersionResolvedFromFallback st)
                  (latestMatchingGitTag st) st,
                logs ++ [LogResolvedFromRegistry (Some v)])
        | None =>
            if fallbackIsDisk then
              Ok (setCurrentVersion currentVersionFromDisk true
                    (latestMatchingGitTag st) st,
                  logs ++ [LogRegistryFallbackToDisk currentVersionFromDisk])
            else Throw RegistryUnresolvedError
        end
      else if currentVersionResolvedFromFallback st then
        Ok (st, logs ++ [LogAlreadyResolvedFromDiskFallback (stCurrentVersion st)])
      else
        Ok (st, logs ++ [LogAlreadyResolvedFromRegistry (stCurrentVersion st)])
  | disk =>
      if truthy currentVersionFromDisk then
        Ok (setCurrentVersion currentVersionFromDisk
              (currentVersionResolvedFromFallback st)
              (latestMatchingGitTag st) st,
            logs ++ [LogResolvedFromDisk currentVersionFromDisk pyprojectTomlPath])
      else Throw (DiskVersionUnresolvedError projectName pyprojectTomlPath)
  | gitTag =>
      if negb (truthy (stCurrentVersion st)) || isIndependent then
        let releaseTagPattern := releaseTagPattern (releaseGroup options) in
        match getLatestGitTagForPattern env releaseTagPattern projectName with
        | None =>
            if fallbackIsDisk then
              Ok (setCurrentVersion currentVersionFromDisk true None st,
                  logs ++ [LogGitTagFallbackToDisk releaseTagPattern
                             currentVersionFromDisk])
            else Throw (NoMatchingGitTagError releaseTagPattern projectName)
        | Some found =>
            Ok (setCurrentVersion (Some (extractedVersion found))
                  (currentVersionResolvedFromFallback st) (Some found) st,
                logs ++ [LogResolvedFromGitTag (Some (extractedVersion found))
                           (tag found)])
        end
      else if currentVersionResolvedFromFallback st then
        Ok (st, logs ++ [LogAlreadyResolvedFromDiskFallback (stCurrentVersion st)])
      else
        match latestMatchingGitTag st with
        | Some found =>
            Ok (st, logs ++ [LogAlreadyResolvedFromGitTag (stCurrentVersion st)
                               (tag found)])
        | None => Throw TypeError
        end
  | otherResolver _ => Throw InvalidCurrentVersionResolverError
  end.

(** *** Specifier *)

(** [inc(currentVersion, spec)], [null] when either is missing or invalid. *)
Definition incOrNull (currentVersion spec : option string) : option string :=
  match currentVersion, spec with
  | Some v, Some r => Semver.incStr v r None
  | _, _ => None
  end.

(** [gt(a, b)], which throws on [null]. *)
Definition gtOrThrow (a b : option string) : Result bool :=
  match a, b with
  | Some x, Some y =>
      match Semver.gtStr x y with
      | Some r => Ok r
      | None => Throw TypeError
      end
  | _, _ => Throw TypeError
  end.

(** The callback of [reduce] under independent grouping. *)
Definition pickProjectBump (currentVersion : option string) (projectName : string)
    (spec : option string) (plan : VersionPlan) : Result (option string) :=
  match projectVersionBumps plan with
  | None => Throw TypeError
  | Some bumps =>
      if negb (truthy spec) then Ok (bumps !! projectName)
      else if truthy (bumps !! projectName) then
        isGreater <~ gtOrThrow (incOrNull currentVersion (bumps !! projectName))
                       (incOrNull currentVersion spec) ;;
        Ok (if isGreater then bumps !! projectName else spec)
      else Ok spec
  end.

(** The callback of [reduce] under fixed grouping. *)
Definition pickGroupBump (currentVersion : option string)
    (spec : option string) (plan : VersionPlan) : Result (option string) :=
  if negb (truthy spec) then Ok (groupVersionBump plan)
  else
    isGreater <~ gtOrThrow (incOrNull currentVersion (groupVersionBump plan))
                   (incOrNull currentVersion spec) ;;
    Ok (if isGreater then groupVersionBump plan else spec).

(** [plans.reduce(callback, null)] *)
Fixpoint reduce {A B : Type} (callback : B -> A -> Result B) (plans : list A)
    (acc : B) : Result B :=
  match plans with
  | [] => Ok acc
  | plan :: rest => acc' <~ callback acc plan ;; reduce callback rest acc'
  end.

Definition specifierFromVersionPlans (currentVersion : option string)
    (projectName : string) : Result (option string) :=
  if isIndependent then
    reduce (pickProjectBump currentVersion projectName)
      (resolvedVersionPlans (releaseGroup options)) None
  else
    reduce (pickGroupBump currentVersion)
      (resolvedVersionPlans (releaseGroup options)) None.

Definition hasDependencyBumps (st : State) (projectName : string) : bool :=
  match projectToDependencyBumps st !! projectName with
  | Some _ => true
  | None => false
  end.

Definition isPrerelease (currentVersion : option string) : bool :=
  match Semver.prereleaseStr (match currentVersion with
                              | Some v => v
                              | None => ""
                              end) with
  | Some _ => true
  | None => false
  end.

Definition groupNameForLog : string := groupName (releaseGroup options).

(** The projects whose commits are classified. *)
Definition affectedProjects (projectName : string) : list string :=
  if isIndependent then [projectName] else map name sortedProjects.

(** The tag found for the current version, else the first commit when the
    version on disk is the fallback. *)
Definition previousVersionRef (st : State) : option string :=
  match latestMatchingGitTag st with
  | Some found => Some (tag found)
  | None => if fallbackIsDisk then getFirstGitCommit env else None
  end.

(** The body of [switch (specifierSource)]. *)
Definition resolveSpecifier (projectName : string) (st : State)
    (logs : list LogMsg) : Result (State * list LogMsg) :=
  match specifierSource st with
  | conventionalCommits =>
      match currentVersionResolver options with
      | gitTag =>
          match previousVersionRef st with
          | Some ref =>
              if Str.nonEmpty ref then
                let resolved :=
                  resolveSemverSpecifierFromConventionalCommits env ref
                    (affectedProjects projectName) in
                if negb (truthy resolved) then
                  if negb isNever && hasDependencyBumps st projectName then
                    Ok (setSpecifier (specString updateDependentsBump) st,
                        logs ++ [LogResolvedBecauseUpdateDependents
                                   updateDependentsBump])
                  else
                    Ok (setSpecifier (specOfOption resolved) st,
                        logs ++ [LogNoChangesConventionalCommits])
                else if isPrerelease (stCurrentVersion st) then
                  Ok (setSpecifier (specString "prerelease") st,
                      logs ++ [LogResolvedPrerelease "prerelease"])
                else if truthy (preid options)
                        && negb (Str.startsWith "pre" (inTemplate resolved)) then
                  Ok (setSpecifier (specString ("pre" +:+ inTemplate resolved)) st,
                      logs ++ [LogResolvedConventionalCommits
                                 ("pre" +:+ inTemplate resolved) (preid options)])
                else
                  Ok (setSpecifier (specOfOption resolved) st,
                      logs ++ [LogResolvedConventionalCommits
                                 (inTemplate resolved) None])
              else Throw NoPreviousVersionRefError
          | None => Throw NoPreviousVersionRefError
          end
      | _ => Throw ConventionalCommitsResolverError
      end
  | prompt =>
      let question :=
        if isIndependent then AskForProject projectName groupNameForLog
        else AskForMatchedProjects (length sortedProjects) groupNameForLog in
      Ok (setSpecifier (specString (resolveSemverSpecifierFromPrompt env question))
            st, logs)
  | versionPlansSource =>
      if negb (versionPlans (releaseGroup options)) then
        Throw VersionPlansNotEnabledError
      else
        resolved <~ specifierFromVersionPlans (stCurrentVersion st) projectName ;;
        let '(st1, logs1) :=
          if negb (truthy resolved) then
            if negb isNever && hasDependencyBumps st projectName then
              (setSpecifier (specString updateDependentsBump) st,
               logs ++ [LogResolvedBecauseUpdateDependents updateDependentsBump])
            else (setSpecifier specNull st, logs ++ [LogNoChangesVersionPlans])
          else
            (setSpecifier (specOfOption resolved) st,
             logs ++ [LogResolvedVersionPlans (inTemplate resolved)]) in
        if deleteVersionPlans options then
          Ok (pushDeleteVersionPlanCallbacks
                (resolvedVersionPlans (releaseGroup options)) st1, logs1)
        else Ok (st1, logs1)
  | otherSpecifierSource _ => Throw InvalidSpecifierSourceError
  end.

(** *** Dependents of the project being versioned *)

(** The edges whose target is the project. *)
Definition dependentsOf (localPackageDependencies : list LocalPackageDependency)
    (projectName : string) : list LocalPackageDependency :=
  filter (fun d => target d = projectName) localPackageDependencies.

(** For each direct dependent, in order, every edge that targets it. *)
Definition transitiveDependentsOf
    (localPackageDependencies allDependentProjects : list LocalPackageDependency)
    : list LocalPackageDependency :=
  if isAuto then
    flat_map
      (fun directDependent =>
         filter (fun d => target d = source directDependent)
           localPackageDependencies)
      allDependentProjects
  else [].

(** The key [`${a}:${b}`] *)
Definition pairKey (a b : string) : string := a +:+ ":" +:+ b.

Definition circularDependenciesOf (projectName : string)
    (allDependentProjects : list LocalPackageDependency) : gset string :=
  fold_left
    (fun acc dependentProject =>
       if String.eqb (target dependentProject) projectName then
         acc ∪ {[ pairKey (source dependentProject) (target dependentProject) ]}
             ∪ {[ pairKey (target dependentProject) (source dependentProject) ]}
       else acc)
    allDependentProjects ∅.

Definition planTouches (plan : VersionPlan) (projectName : string) : bool :=
  match projectVersionBumps plan with
  | Some bumps => truthy (bumps !! projectName)
  | None => true
  end.

Definition isSourceVersionPlans (src : SpecifierSource) : bool :=
  match src with versionPlansSource => true | _ => false end.

Definition isInCurrentBatch (src : SpecifierSource)
    (dependentProject : LocalPackageDependency) : bool :=
  let inProjects :=
    existsb (fun p => String.eqb (name p) (source dependentProject))
      (projects options) in
  if inProjects && isSourceVersionPlans src then
    existsb (fun plan => planTouches plan (source dependentProject))
      (resolvedVersionPlans (releaseGroup options))
  else inProjects.

Definition dependentProjectsInCurrentBatch (src : SpecifierSource)
    (allDependentProjects : list LocalPackageDependency)
    : list LocalPackageDependency :=
  List.filter (isInCurrentBatch src) allDependentProjects.

Definition dependentProjectsOutsideCurrentBatch (src : SpecifierSource)
    (allDependentProjects : list LocalPackageDependency)
    : list LocalPackageDependency :=
  List.filter (fun d => negb (isInCurrentBatch src d)) allDependentProjects.

(** *** Propagation to the dependents *)

Definition addDependencyBump (dependent projectName : string) (st : State)
    : State :=
  setProjectToDependencyBumps
    (match projectToDependencyBumps st !! dependent with
     | Some dependencyBumps =>
         <[dependent := dependencyBumps ∪ {[ projectName ]}]>
           (projectToDependencyBumps st)
     | None =>
         <[dependent := {[ projectName ]}]> (projectToDependencyBumps st)
     end) st.

(** The loop over [dependentProjectsInCurrentBatch]. *)
Definition updateInBatch (transitive : list LocalPackageDependency)
    (projectName packageName newVersion : string)
    (dependentProject : LocalPackageDependency) (st : State) : Result State :=
  updateDependentProjectAndAddToVersionData transitive dependentProject
    packageName (Some newVersion) noForce
    (addDependencyBump (source dependentProject) projectName st).

Definition forceOutsideBatch (src : SpecifierSource)
    (dependentProject : LocalPackageDependency) : ForceVersionBump :=
  if isSourceVersionPlans src
     && Topo.nameIn (source dependentProject) sortedProjects
  then noForce else force updateDependentsBump.

(** The loop over [dependentProjectsOutsideCurrentBatch]. *)
Definition updateOutsideBatch (transitive : list LocalPackageDependency)
    (projectName packageName newVersion : string)
    (dependentProject : LocalPackageDependency) (st : State) : Result State :=
  let st1 :=
    if isSourceVersionPlans (specifierSource st)
       && negb (hasDependencyBumps st (source dependentProject))
    then
      setProjectToDependencyBumps
        (<[source dependentProject := {[ projectName ]}]>
           (projectToDependencyBumps st)) st
    else st in
  updateDependentProjectAndAddToVersionData transitive dependentProject
    packageName (Some newVersion)
    (forceOutsideBatch (specifierSource st) dependentProject) st1.

Definition forceTransitive (circularDependencies : gset string)
    (transitiveDependentProject : LocalPackageDependency) : ForceVersionBump :=
  if bool_decide
       (pairKey (source transitiveDependentProject)
          (target transitiveDependentProject) ∈ circularDependencies)
  then noForce else force updateDependentsBump.

(** The loop over [transitiveLocalPackageDependents]. *)
Definition updateTransitive (transitive : list LocalPackageDependency)
    (circularDependencies : gset string)
    (transitiveDependentProject : LocalPackageDependency) (st : State)
    : Result State :=
  match projectNameToPackageRootMap st !! target transitiveDependentProject with
  | None => Throw (MissingPackageRootError (target transitiveDependentProject))
  | Some dependencyPackageRoot =>
      if Str.nonEmpty dependencyPackageRoot then
        match readPyprojectToml (tree st) (pyprojectTomlIn env dependencyPackageRoot) with
        | Some (mkPyproject (Some dependencyPoetry)) =>
            updateDependentProjectAndAddToVersionData transitive
              transitiveDependentProject (poetryName dependencyPoetry)
              (poetryVersion dependencyPoetry)
              (forceTransitive circularDependencies transitiveDependentProject)
              st
        | _ => Throw TypeError
        end
      else Throw (MissingPackageRootError (target transitiveDependentProject))
  end.

Definition propagate (projectName packageName newVersion : string)
    (inBatch outsideBatch transitive : list LocalPackageDependency)
    (circularDependencies : gset string) (st : State) : Result State :=
  st1 <~ forEach (updateInBatch transitive projectName packageName newVersion)
           inBatch st ;;
  st2 <~ (if isAuto then
            forEach (updateOutsideBatch transitive projectName packageName
                       newVersion) outsideBatch st1
          else Ok st1) ;;
  forEach (updateTransitive transitive circularDependencies) transitive st2.

(** *** One turn of the main loop *)

Definition initialEntry (currentVersion : option string)
    (allDependentProjects inBatch : list LocalPackageDependency)
    : VersionDataEntry :=
  mkEntry currentVersion None
    (if isAuto then map withoutGroupKey allDependentProjects
     else map withoutGroupKey inBatch).

Definition twiceTotalProjectsToUpdate
    (allDependentProjects transitive inBatch : list LocalPackageDependency)
    (circularDependencies : gset string) : Z :=
  if isAuto then
    (2 * Z.of_nat (length allDependentProjects)
     + 2 * Z.of_nat (length transitive)
     - Z.of_nat (size circularDependencies))%Z
  else (2 * Z.of_nat (length inBatch))%Z.

(** Lines 137-534 of a turn: the manifest is read, then the current
    version and the specifier are resolved. *)
Definition resolveProject (project : ProjectGraphProjectNode) (st0 : State)
    : Result (string * Poetry * State * list LogMsg) :=
  let projectName := name project in
  match projectNameToPackageRootMap st0 !! projectName with
  | None => Throw (MissingPackageRootError projectName)
  | Some packageRoot =>
    if negb (Str.nonEmpty packageRoot)
    then Throw (MissingPackageRootError projectName) else
    let pyprojectTomlPath := pyprojectTomlIn env packageRoot in
    match readPyprojectToml (tree st0) pyprojectTomlPath with
    | None => Throw (MissingPyprojectTomlError projectName pyprojectTomlPath)
    | Some pyprojectToml =>
      match toolPoetry pyprojectToml with
      | None => Throw TypeError
      | Some poetry =>
        let packageName := poetryName poetry in
        let logs0 := [LogReadingData packageName pyprojectTomlPath] in
        r1 <~ resolveCurrentVersion projectName packageName
                (poetryVersion poetry) pyprojectTomlPath st0 logs0 ;;
        let '(st1, logs1) := r1 in
        let '(st2, logs2) :=
          if truthy providedSpecifier then
            (setSpecifierSource prompt st1,
             logs1 ++ [LogUsingProvidedSpecifier (inTemplate providedSpecifier)])
          else (st1, logs1) in
        r3 <~ (match specifier st2 with
               | specUndefined => resolveSpecifier projectName st2 logs2
               | _ =>
                   if isIndependent && negb (truthy providedSpecifier)
                   then resolveSpecifier projectName st2 logs2
                   else Ok (st2, logs2)
               end) ;;
        let '(st3, logs3) := r3 in
        Ok (pyprojectTomlPath, poetry, st3, logs3)
      end
    end
  end.

(** Lines 648-657: nothing to version. *)
Definition skipProject (projectName packageName : string)
    (logs : list LogMsg) (st : State) : State :=
  if logUnchanged
  then printLines
         (flush projectName (logs ++ [LogSkippingVersioning packageName])) st
  else st.

(** Lines 659-920: the new version is derived, written, and propagated. *)
Definition bumpProject (projectName packageName pyprojectTomlPath : string)
    (poetry : Poetry) (spec : string)
    (allDependentProjects inBatch outsideBatch transitive
       : list LocalPackageDependency)
    (circularDependencies : gset string) (logs : list LogMsg) (st5 : State)
    : Result State :=
  newVersion <~
    Nx.deriveNewSemverVersion (inTemplate (stCurrentVersion st5)) spec
      (preid options) ;;
  let st6 :=
    setVersionData
      (<[projectName :=
           mkEntry (stCurrentVersion st5) (Some newVersion)
             (dependentProjects
                (initialEntry (stCurrentVersion st5) allDependentProjects
                   inBatch))]>
         (versionData st5)) st5 in
  let st7 := pushPoetryLock (dirname env pyprojectTomlPath) st6 in
  let st8 :=
    setTree
      (writePyprojectToml (tree st7) pyprojectTomlPath
         (mkPyproject (Some (withVersion poetry newVersion)))) st7 in
  let logs5 := logs ++ [LogNewVersionWritten newVersion pyprojectTomlPath] in
  let twiceTotal :=
    twiceTotalProjectsToUpdate allDependentProjects transitive inBatch
      circularDependencies in
  let logs6 :=
    if negb (Nat.eqb (length allDependentProjects) 0) && (0 <? twiceTotal)%Z
    then logs5 ++ [LogApplyingNewVersion newVersion twiceTotal projectName]
    else logs5 in
  st9 <~ propagate projectName packageName newVersion inBatch outsideBatch
           transitive circularDependencies st8 ;;
  Ok (printLines (flush projectName logs6) st9).

(** The state once the entry of the project is recorded (lines 536-646). *)
Definition recordProject (projectName : string)
    (allDependentProjects inBatch : list LocalPackageDependency)
    (roots : gmap string string) (st3 : State) : State :=
  let st4 := setProjectNameToPackageRootMap roots st3 in
  setVersionData
    (<[projectName :=
         initialEntry (stCurrentVersion st4) allDependentProjects inBatch]>
       (versionData st4)) st4.

Definition processProject (project : ProjectGraphProjectNode) (st0 : State)
    : Result State :=
  let projectName := name project in
  r <~ resolveProject project st0 ;;
  let '(pyprojectTomlPath, poetry, st3, logs3) := r in
  let packageName := poetryName poetry in
  let '(localPackageDependencies, roots) :=
    resolveLocalPackageDependencies env (tree st3) sortedProjects
      (projectNameToPackageRootMap st3) isIndependent in
  let allDependentProjects :=
    dependentsOf localPackageDependencies projectName in
  let transitive :=
    transitiveDependentsOf localPackageDependencies allDependentProjects in
  let circularDependencies :=
    circularDependenciesOf projectName allDependentProjects in
  let inBatch :=
    dependentProjectsInCurrentBatch (specifierSource st3) allDependentProjects in
  let outsideBatch :=
    dependentProjectsOutsideCurrentBatch (specifierSource st3)
      allDependentProjects in
  let logs4 :=
    if isNever && negb (Nat.eqb (length outsideBatch) 0) then
      logs3 ++ [LogDependentsNotUpdated projectName (map source outsideBatch)
                  (isSourceVersionPlans (specifierSource st3)) groupNameForLog]
    else logs3 in
  if negb (truthy (stCurrentVersion st3))
  then Throw (CurrentVersionUnresolvedError projectName) else
  let st5 := recordProject projectName allDependentProjects inBatch roots st3 in
  match specifier st5 with
  | specString spec =>
      if Str.nonEmpty spec then
        bumpProject projectName packageName pyprojectTomlPath poetry spec
          allDependentProjects inBatch outsideBatch transitive
          circularDependencies logs4 st5
      else Ok (skipProject projectName packageName logs4 st5)
  | _ => Ok (skipProject projectName packageName logs4 st5)
  end.

(** *** The run *)

Definition initialPackageRoots : gmap string string :=
  fold_left
    (fun m project =>
       <[name project := createResolvePackageRoot env (packageRoot options) project]> m)
    sortedProjects ∅.

Definition initialState (tree0 : Tree) : State :=
  mkState tree0 ∅ ∅ initialPackageRoots None false None
    (if truthy providedSpecifier
     then specString (inTemplate providedSpecifier) else specUndefined)
    (optSpecifierSource options) [] [] [] [].

(** The body of [releaseVersionGenerator] up to its [return]; the
    formatting pass of [formatFiles] is not part of the model. *)
Definition runGenerator (tree0 : Tree) : Result State :=
  _ <~ checkOptions ;;
  forEach processProject sortedProjects (initialState tree0).

(** *** The returned callback *)

Inductive Effect : Type :=
| RemovePlanFile (absolutePath : string)     (* [rm(p.absolutePath, ...)] *)
| RunPoetryLock (cwd : string).              (* [runPoetry(['lock', '--no-update'], { cwd })] *)

(** What the callback meets when it runs, given the effects made so far:
    whether [rm] rejects for a path, and the exit status of
    [poetry lock --no-update] in a folder ([None] when the command could
    not be run). *)
Record Host : Type := mkHost {
  rmRejects : list Effect -> string -> bool;
  lockStatus : list Effect -> string -> option Z
}.

Record CallbackResult : Type := mkCallbackResult {
  changedFiles : list string;
  deletedFiles : list string
}.

(** One element of [deleteVersionPlanCallbacks], for the plan [p]; [done]
    holds the effects made before, and the result those made by now. *)
Definition deleteVersionPlanCallback (host : Host) (p : VersionPlan)
    (dryRun : bool) (done : list Effect) : list Effect * Result (list string) :=
  if negb dryRun then
    let done1 := done ++ [RemovePlanFile (absolutePath p)] in
    if rmRejects host done (absolutePath p)
    then (done1, Throw (RmError (absolutePath p)))
    else (done1, Ok [relativePath p])
  else (done, Ok []).

(** [runPoetry(['lock', '--no-update'], { cwd })], which throws unless the
    command leaves with status 0. *)
Definition runPoetryLock (host : Host) (cwd : string) (done : list Effect)
    : list Effect * Result unit :=
  let done1 := done ++ [RunPoetryLock cwd] in
  match lockStatus host done cwd with
  | Some 0%Z => (done1, Ok tt)
  | status => (done1, Throw (PoetryCommandError cwd status))
  end.

(** [for (const cb of deleteVersionPlanCallbacks) deletedFiles.push(...(await cb(dryRun)))] *)
Fixpoint deletePlans (host : Host) (plans : list VersionPlan) (dryRun : bool)
    (done : list Effect) : list Effect * Result (list string) :=
  match plans with
  | [] => (done, Ok [])
  | p :: rest =>
      match deleteVersionPlanCallback host p dryRun done with
      | (done1, Ok files) =>
          match deletePlans host rest dryRun done1 with
          | (done2, Ok more) => (done2, Ok (files ++ more))
          | (done2, Throw e) => (done2, Throw e)
          end
      | (done1, Throw e) => (done1, Throw e)
      end
  end.

(** [for (const lockDir of poetryLocks) runPoetry(...)] *)
Fixpoint lockAll (host : Host) (lockDirs : list string) (done : list Effect)
    : list Effect * Result unit :=
  match lockDirs with
  | [] => (done, Ok tt)
  | lockDir :: rest =>
      match runPoetryLock host lockDir done with
      | (done1, Ok _) => lockAll host rest done1
      | (done1, Throw e) => (done1, Throw e)
      end
  end.

(** The callback: the effects it made, and the lists it returns unless it
    throws. *)
Definition callback (host : Host) (st : State) (callbackTree : Tree)
    (dryRun : bool) : list Effect * Result CallbackResult :=
  match deletePlans host (deleteVersionPlanCallbacks st) dryRun [] with
  | (done1, Throw e) => (done1, Throw e)
  | (done1, Ok deleted) =>
      let changed := map (poetryLockIn env) (poetryLocks st) in
      match (if negb dryRun then lockAll host (poetryLocks st) done1
             else (done1, Ok tt)) with
      | (done2, Throw e) => (done2, Throw e)
      | (done2, Ok _) =>
          if negb dryRun && treeExists callbackTree "pyproject.toml" then
            match runPoetryLock host (treeRoot callbackTree) done2 with
            | (done3, Ok _) =>
                (done3, Ok (mkCallbackResult (changed ++ ["poetry.lock"]) deleted))
            | (done3, Throw e) => (done3, Throw e)
            end
          else (done2, Ok (mkCallbackResult changed deleted))
      end
  end.

End Generator.

(** ** A small workspace

    Concrete collaborators and manifests on which the definitions above
    can be run. *)

Module Scenario.

(** [dirname] of a path that ends in [/pyproject.toml]. *)
Definition dirnameOfManifest (p : string) : string :=
  String.substring 0 (String.length p - 15) p.

(** The version string a dependency table gives for a package. *)
Definition declaredVersion (t : Tree) (projectRoot : string)
    (table : option (gmap string DependencySpec)) (dependencyName : string)
    : option string :=
  match table with
  | Some g =>
      match g !! dependencyName with
      | Some (DepString v) => Some v
      | Some (DepTable v _) => v
      | None => None
      end
  | None => None
  end.

(** Collaborators for a workspace with the given local edges and package
    roots: no registry, no git tags, commits classified as [commits] says,
    and a prompt that always answers [patch]. *)
Definition env (edges : list LocalPackageDependency)
    (roots : gmap string string) (tags : string -> option GitTag)
    (commits : option string) : Env :=
  mkEnv (fun r => r +:+ "/pyproject.toml") dirnameOfManifest
    (fun d => d +:+ "/poetry.lock")
    (fun custom projectRoot projectName => custom)
    (fun _ => None)
    (fun _ projectName => tags projectName)
    (Some "0000000")
    (fun _ _ => commits)
    (fun _ => "patch")
    (fun _ _ known _ => (edges, roots ∪ known))
    declaredVersion.

Definition noTags (projectName : string) : option GitTag := None.

Definition manifest (packageName : string) (v : option string)
    (deps : list (string * DependencySpec)) : PyprojectToml :=
  mkPyproject (Some (mkPoetry packageName v (Some (list_to_map deps)) None)).

Definition pathDep (spec : string) (p : string) : DependencySpec :=
  DepTable (Some spec) (Some p).

Definition group (relationship : ProjectsRelationship)
    (plans : list VersionPlan) : ReleaseGroup :=
  mkReleaseGroup Nx.IMPLICIT_DEFAULT_RELEASE_GROUP relationship "v{version}"
    (match plans with [] => false | _ => true end) plans.

Definition options (selected : list ProjectGraphProjectNode)
    (graphEdges : list (string * string)) (releaseGroup : ReleaseGroup)
    (spec : option string) (src : SpecifierSource)
    (resolver : CurrentVersionResolver) (mode : UpdateDependents) : Options :=
  mkOptions selected (mkGraph selected graphEdges) releaseGroup spec src None
    None resolver None false None (Some mode) false false None.

Definition libA : ProjectGraphProjectNode := mkProject "lib-a" "libs/a".
Definition appB : ProjectGraphProjectNode := mkProject "app-b" "apps/b".
Definition libX : ProjectGraphProjectNode := mkProject "lib-x" "libs/x".

Definition roots : gmap string string :=
  list_to_map [("lib-a", "libs/a"); ("app-b", "apps/b"); ("lib-x", "libs/x")].

(** [lib-a] at 1.0.0 and [app-b] at 2.0.0, which depends on [lib-a]. *)
Definition twoProjects : Tree :=
  mkTree
    (list_to_map
       [("libs/a/pyproject.toml", manifest "lib-a" (Some "1.0.0") []);
        ("apps/b/pyproject.toml",
         manifest "app-b" (Some "2.0.0")
           [("lib-a", pathDep "^1.0.0" "../../libs/a")])])
    [] ".".

Definition bDependsOnA : list LocalPackageDependency :=
  [mkDep "app-b" "lib-a" dependencies_ None].

End Scenario.

(** A dependent whose manifest has no [version]. *)
Definition unversionedDependent : Tree :=
  mkTree
    (list_to_map
       [("libs/a/pyproject.toml", Scenario.manifest "lib-a" (Some "1.0.1") []);
        ("apps/b/pyproject.toml",
         Scenario.manifest "app-b" None
           [("lib-a", Scenario.pathDep "^1.0.0" "../../libs/a")])])
    [] ".".

Definition unversionedState : State :=
  mkState unversionedDependent ∅ ∅ Scenario.roots (Some "1.0.0") false None
    (specString "patch") prompt [] [] [] [].

(** The fields that only the bump and the propagation write. *)
Definition sameOutcome (st st' : State) : Prop :=
  tree st' = tree st
  /\ versionData st' = versionData st
  /\ projectToDependencyBumps st' = projectToDependencyBumps st
  /\ projectNameToPackageRootMap st' = projectNameToPackageRootMap st
  /\ poetryLocks st' = poetryLocks st
  /\ console st' = console st
  /\ updateCalls st' = updateCalls st.

(** The fields that only the resolution of version and specifier writes. *)
Definition sameResolution (st st' : State) : Prop :=
  stCurrentVersion st' = stCurrentVersion st
  /\ currentVersionResolvedFromFallback st' = currentVersionResolvedFromFallback st
  /\ latestMatchingGitTag st' = latestMatchingGitTag st
  /\ specifier st' = specifier st
  /\ specifierSource st' = specifierSource st
  /\ deleteVersionPlanCallbacks st' = deleteVersionPlanCallbacks st
  /\ projectNameToPackageRootMap st' = projectNameToPackageRootMap st
  /\ console st' = console st.

(** The calls that the propagation of one bump makes, in order. *)
Definition propagationCalls (options : Options) (src : SpecifierSource)
    (inBatch outsideBatch transitive : list LocalPackageDependency)
    (circ : gset string) : list UpdateCall :=
  map (fun d => mkCall d noForce) inBatch
  ++ (if isAuto options
      then map (fun d => mkCall d (forceOutsideBatch options src d)) outsideBatch
      else [])
  ++ map (fun d => mkCall d (forceTransitive circ d)) transitive.

(** [lib-a] is tagged v1.0.0. *)
Definition taggedLibA (projectName : string) : option GitTag :=
  if String.eqb projectName "lib-a" then Some (mkGitTag "v1.0.0" "1.0.0")
  else None.

(** Conventional commits over git tags find nothing to release in [lib-a]. *)
Definition quietEnv : Env :=
  Scenario.env Scenario.bDependsOnA Scenario.roots taggedLibA None.

Definition quietOptions : Options :=
  Scenario.options [Scenario.libA] [] (Scenario.group independent []) None
    conventionalCommits gitTag updateAuto.

Definition quietStart : State :=
  initialState quietEnv quietOptions Scenario.twoProjects.

Definition quietEnd : State :=
  Eval vm_compute in
    match processProject quietEnv quietOptions Scenario.libA quietStart with
    | Ok st => st
    | Throw _ => quietStart
    end.

(** A host on which every command of the callback succeeds. *)
Definition Accepts (host : Host) : Prop :=
  (forall done path, rmRejects host done path = false)
  /\ (forall done cwd, lockStatus host done cwd = Some 0%Z).

Definition acceptingHost : Host :=
  mkHost (fun _ _ => false) (fun _ _ => Some 0%Z).

(** The host refuses the command [c] after the effects [done]. *)
Definition refuses (host : Host) (done : list Effect) (c : Effect) : bool :=
  match c with
  | RemovePlanFile path => rmRejects host done path
  | RunPoetryLock cwd => negb (bool_decide (lockStatus host done cwd = Some 0%Z))
  end.

(** The commands are issued in order up to the first that the host
    refuses: the commands issued, and whether all were accepted. *)
Fixpoint perform (host : Host) (commands done : list Effect)
    : list Effect * bool :=
  match commands with
  | [] => (done, true)
  | c :: rest =>
      if refuses host done c then (done ++ [c], false)
      else perform host rest (done ++ [c])
  end.

(** The side effects that a run defers to its callback, in order. *)
Definition deferredEffects (st : State) (callbackTree : Tree) : list Effect :=
  map (fun p => RemovePlanFile (absolutePath p)) (deleteVersionPlanCallbacks st)
  ++ map RunPoetryLock (poetryLocks st)
  ++ (if treeExists callbackTree "pyproject.toml"
      then [RunPoetryLock (treeRoot callbackTree)] else []).

(** The lists a real run returns when no command fails. *)
Definition realRunLists (env : Env) (st : State) (callbackTree : Tree)
    : CallbackResult :=
  mkCallbackResult
    (map (poetryLockIn env) (poetryLocks st)
     ++ (if treeExists callbackTree "pyproject.toml" then ["poetry.lock"] else []))
    (map relativePath (deleteVersionPlanCallbacks st)).


(** One version plan asks for a minor release of [lib-a]; consumed plans
    are to be deleted. *)
Definition minorPlan : VersionPlan :=
  mkPlan "/ws/.nx/version-plans/plan.md" ".nx/version-plans/plan.md"
    (Some {[ "lib-a" := "minor" ]}) None.


Definition planEnv : Env :=
  Scenario.env Scenario.bDependsOnA Scenario.roots Scenario.noTags None.



(** The strategy of the project ran to its end and found no specifier:
    the commits since the reference classify as no change, or no version
    plan bumps the project. *)
Inductive ResolvesToNoSpecifier (env : Env) (options : Options)
    (projectName : string) (st : State) : Prop :=
| NoSpecifierFromCommits (ref : string) :
    specifierSource st = conventionalCommits ->
    currentVersionResolver options = gitTag ->
    previousVersionRef env options st = Some ref ->
    Str.nonEmpty ref = true ->
    truthy (resolveSemverSpecifierFromConventionalCommits env ref
              (affectedProjects options projectName)) = false ->
    ResolvesToNoSpecifier env options projectName st
| NoSpecifierFromPlans (resolved : option string) :
    specifierSource st = versionPlansSource ->
    versionPlans (releaseGroup options) = true ->
    specifierFromVersionPlans options (stCurrentVersion st) projectName
    = Ok resolved ->
    truthy resolved = false ->
    ResolvesToNoSpecifier env options projectName st.

(** [app-b] comes to its turn after [lib-a], its dependency, was bumped. *)
Definition afterLibA : State :=
  mkState Scenario.twoProjects ∅ {[ "app-b" := {[ "lib-a" ]} ]} Scenario.roots
    (Some "2.0.0") false (Some (mkGitTag "v2.0.0" "2.0.0")) specUndefined
    conventionalCommits [] [] [] [].


Definition minorCommitsEnv : Env :=
  Scenario.env Scenario.bDependsOnA Scenario.roots taggedLibA (Some "minor").


(** ** Versions as the parser produces them *)

(** [differs c a]: the character [a] is not [c]. *)
Definition differs (c a : ascii) : bool := negb (Ascii.eqb a c).

(** An identifier in the form the parser gives it: a string identifier is
    a non-empty run of letters, digits and hyphens that is not a number. *)
Definition wfIdentifier (i : Semver.Identifier) : bool :=
  match i with
  | Semver.INum _ => true
  | Semver.IStr s =>
      Str.nonEmpty s && Str.allChars Semver.isIdentChar s
      && negb (Str.allChars Str.isDigit s)
  end.

Definition wfVersion (v : Semver.SemVer) : bool :=
  forallb wfIdentifier (Semver.prerelease v).

(** No prerelease identifier, or one that [inc] accepts and that is read
    back as the string it is: at most 250 letters, digits and hyphens
    that are not a number. *)
Definition wfPreid (preid : option string) : bool :=
  match Semver.truthyIdentifier preid with
  | Some s => wfIdentifier (Semver.IStr s) && (String.length s <=? 250)%nat
  | None => true
  end.





(** ** Order of processing *)

(** In [order], a project named [t] comes at some place and a project named
    [s] after it. *)
Definition processedBefore (t s : string)
    (order : list ProjectGraphProjectNode) : Prop :=
  exists l1 p l2,
    order = l1 ++ p :: l2 /\ name p = t /\ Topo.nameIn s l2 = true.

(** The edges among the selected projects have no cycle: some rank
    decreases along every edge from a dependent to its dependency. *)
Definition acyclicAmong (edges : list (string * string))
    (selected : list ProjectGraphProjectNode) : Prop :=
  exists rank : string -> nat,
    forall s t, In (s, t) edges ->
      Topo.nameIn s selected = true -> Topo.nameIn t selected = true ->
      rank t < rank s.

(** The reading of "every in-batch edge has its target processed first". *)
Definition TopologicalPrecedence (options : Options) : Prop :=
  forall s t,
    In (s, t) (graphDependencies (projectGraph options)) ->
    Topo.nameIn s (projects options) = true ->
    Topo.nameIn t (projects options) = true ->
    processedBefore t s (sortedProjects options).

(** The [version] of the manifest at a path, if there is one. *)
Definition manifestVersion (t : Tree) (path : string) : option string :=
  match files t !! path with
  | Some (mkPyproject (Some poetry)) => poetryVersion poetry
  | _ => None
  end.

(** The selected projects depend on each other in a cycle. *)
Definition cyclicOptions : Options :=
  Scenario.options [Scenario.libA; Scenario.appB]
    [("lib-a", "app-b"); ("app-b", "lib-a")] (Scenario.group independent [])
    (Some "patch") prompt disk updateAuto.

(** [app-b] depends on [lib-a] and is given first. *)
Definition chainOptions : Options :=
  Scenario.options [Scenario.appB; Scenario.libA] [("app-b", "lib-a")]
    (Scenario.group independent []) (Some "patch") prompt disk updateAuto.

Definition chainRank (projectName : string) : nat :=
  if String.eqb projectName "app-b" then 1 else 0.

(** ** Forced bumps *)

Definition isForced (f : ForceVersionBump) : bool :=
  match f with force _ => true | noForce => false end.

(** The number of calls that force a bump on the project [b]. *)
Definition forcedBumpsOn (b : string) (calls : list UpdateCall) : nat :=
  length
    (List.filter
       (fun c => String.eqb (source (callDependent c)) b && isForced (callForce c))
       calls).

(** The local edges from [b] onto the project. *)
Definition edgesBetween (b projectName : string)
    (edges : list LocalPackageDependency) : list LocalPackageDependency :=
  List.filter
    (fun e => String.eqb (source e) b && String.eqb (target e) projectName)
    edges.

(** [b] depends on no direct dependent of the project other than the
    project itself: an edge from [b] onto the source of an edge onto the
    project is an edge onto the project. *)
Definition onlyThrough (b projectName : string)
    (edges : list LocalPackageDependency) : Prop :=
  forall e d,
    In e edges -> source e = b ->
    In d edges -> target d = projectName ->
    target e = source d -> target e = projectName.

(** The reading of "bumping the project forces at most one bump on [b]". *)
Definition ForcedAtMostOnce (env : Env) (options : Options)
    (project : ProjectGraphProjectNode) (st : State) (b : string) : Prop :=
  forall st' calls,
    processProject env options project st = Ok st' ->
    updateCalls st' = updateCalls st ++ calls ->
    forcedBumpsOn b calls <= 1.

(** [lib-a] and [app-b] depend on each other; [lib-x] depends on [lib-a]
    and [app-b] on [lib-x].  Only [lib-a] is selected. *)
Definition diamondEdges : list LocalPackageDependency :=
  [mkDep "app-b" "lib-a" dependencies_ None;
   mkDep "lib-x" "lib-a" dependencies_ None;
   mkDep "app-b" "lib-x" dependencies_ None;
   mkDep "lib-a" "app-b" dependencies_ None].

Definition diamondTree : Tree :=
  mkTree
    (list_to_map
       [("libs/a/pyproject.toml",
         Scenario.manifest "lib-a" (Some "1.0.0")
           [("app-b", Scenario.pathDep "^2.0.0" "../../apps/b")]);
        ("apps/b/pyproject.toml",
         Scenario.manifest "app-b" (Some "2.0.0")
           [("lib-a", Scenario.pathDep "^1.0.0" "../../libs/a");
            ("lib-x", Scenario.pathDep "^3.0.0" "../../libs/x")]);
        ("libs/x/pyproject.toml",
         Scenario.manifest "lib-x" (Some "3.0.0")
           [("lib-a", Scenario.pathDep "^1.0.0" "../a")])])
    [] ".".

Definition diamondEnv : Env :=
  Scenario.env diamondEdges Scenario.roots Scenario.noTags None.

Definition diamondOptions : Options :=
  Scenario.options [Scenario.libA] [] (Scenario.group independent [])
    (Some "patch") prompt disk updateAuto.

Definition diamondStart : State :=
  initialState diamondEnv diamondOptions diamondTree.

Definition diamondEnd : State :=
  Eval vm_compute in
    match processProject diamondEnv diamondOptions Scenario.libA diamondStart with
    | Ok st => st
    | Throw _ => diamondStart
    end.

(** [lib-a] and [app-b] depend on each other and on nothing else. *)
Definition mutualEdges : list LocalPackageDependency :=
  [mkDep "app-b" "lib-a" dependencies_ None;
   mkDep "lib-a" "app-b" dependencies_ None].

Definition mutualTree : Tree :=
  mkTree
    (list_to_map
       [("libs/a/pyproject.toml",
         Scenario.manifest "lib-a" (Some "1.0.0")
           [("app-b", Scenario.pathDep "^2.0.0" "../../apps/b")]);
        ("apps/b/pyproject.toml",
         Scenario.manifest "app-b" (Some "2.0.0")
           [("lib-a", Scenario.pathDep "^1.0.0" "../../libs/a")])])
    [] ".".

Definition mutualEnv : Env :=
  Scenario.env mutualEdges Scenario.roots Scenario.noTags None.

Definition mutualStart : State :=
  initialState mutualEnv diamondOptions mutualTree.

Definition mutualEnd : State :=
  Eval vm_compute in
    match processProject mutualEnv diamondOptions Scenario.libA mutualStart with
    | Ok st => st
    | Throw _ => mutualStart
    end.

(** ** Recorded versions *)














(** ** A specifier given by the user *)

(** The same collaborators with other specifier strategies behind them:
    another first commit, another classifier of commits, another prompt. *)
Definition withStrategies (env : Env) (firstCommit : option string)
    (commits : string -> list string -> option string)
    (ask : PromptQuestion -> string) : Env :=
  mkEnv (pyprojectTomlIn env) (dirname env) (poetryLockIn env) (interpolate env)
    (pipIndexVersions env) (getLatestGitTagForPattern env) firstCommit commits
    ask (resolveLocalPackageDependencies env) (extractDependencyVersion env).









(** Both projects are selected and released as [v1.2.3]; the configured
    source of specifiers is conventional commits, though versions are read
    from disk. *)
Definition explicitOptions : Options :=
  Scenario.options [Scenario.libA; Scenario.appB] [("app-b", "lib-a")]
    (Scenario.group independent []) (Some "v1.2.3") conventionalCommits disk
    updateAuto.

Definition explicitEnv : Env :=
  Scenario.env Scenario.bDependsOnA Scenario.roots Scenario.noTags None.

Definition explicitEnd : State :=
  Eval vm_compute in
    match runGenerator explicitEnv explicitOptions Scenario.twoProjects with
    | Ok st => st
    | Throw _ => initialState explicitEnv explicitOptions Scenario.twoProjects
    end.

(** ** Version plans *)






(** Two plans ask for a minor and for a patch release of [lib-a]. *)
Definition patchPlan : VersionPlan :=
  mkPlan "/ws/.nx/version-plans/fix.md" ".nx/version-plans/fix.md"
    (Some {[ "lib-a" := "patch" ]}) None.

Definition twoPlansOptions : Options :=
  mkOptions [Scenario.libA] (mkGraph [Scenario.libA] [])
    (Scenario.group independent [minorPlan; patchPlan]) None versionPlansSource
    None None disk None false None (Some updateNever) false false None.





(** The scenario of the specification: [lib-a] is released with [patch]
    while [app-b], outside the batch, depends on it with [^1.0.0]. *)
Definition scenarioOptions : Options :=
  Scenario.options [Scenario.libA] [] (Scenario.group independent [])
    (Some "patch") prompt disk updateAuto.

Definition scenarioEnd : State :=
  Eval vm_compute in
    match runGenerator planEnv scenarioOptions Scenario.twoProjects with
    | Ok st => st
    | Throw _ => initialState planEnv scenarioOptions Scenario.twoProjects
    end.

(** A chain, all of it selected: [app-b] depends on [lib-a] and [lib-x] on
    [app-b]. *)
Definition chainEdges : list LocalPackageDependency :=
  [mkDep "app-b" "lib-a" dependencies_ None;
   mkDep "lib-x" "app-b" dependencies_ None].

Definition chainTree : Tree :=
  mkTree
    (list_to_map
       [("libs/a/pyproject.toml", Scenario.manifest "lib-a" (Some "1.0.0") []);
        ("apps/b/pyproject.toml",
         Scenario.manifest "app-b" (Some "2.0.0")
           [("lib-a", Scenario.pathDep "^1.0.0" "../../libs/a")]);
        ("libs/x/pyproject.toml",
         Scenario.manifest "lib-x" (Some "3.0.0")
           [("app-b", Scenario.pathDep "^2.0.0" "../../apps/b")])])
    [] ".".

Definition selectedChainOptions : Options :=
  Scenario.options [Scenario.libA; Scenario.appB; Scenario.libX]
    [("app-b", "lib-a"); ("lib-x", "app-b")] (Scenario.group independent [])
    (Some "patch") prompt disk updateAuto.

Definition selectedChainEnv : Env :=
  Scenario.env chainEdges Scenario.roots Scenario.noTags None.

Definition selectedChainEnd : State :=
  Eval vm_compute in
    match runGenerator selectedChainEnv selectedChainOptions chainTree with
    | Ok st => st
    | Throw _ => initialState selectedChainEnv selectedChainOptions chainTree
    end.

(** * The rest of the generator *)

(** The condition of line 323 under which a turn resolves a specifier:
    [specifier === undefined || (independent && !options.specifier)]. *)
Definition needsSpecifier (options : Options) (st : State) : bool :=
  match specifier st with
  | specUndefined => true
  | _ => isIndependent options && negb (truthy (providedSpecifier options))
  end.


(** A first release of [lib-a] and [app-b] as one group, versions from git
    tags, the specifier from the prompt. *)
Definition firstReleaseOptions : Options :=
  mkOptions [Scenario.libA; Scenario.appB]
    (mkGraph [Scenario.libA; Scenario.appB] [])
    (Scenario.group fixed []) None prompt None None gitTag None true None
    (Some updateNever) false false None.

Definition firstReleaseMid : State :=
  Eval vm_compute in
    match processProject planEnv firstReleaseOptions Scenario.libA
            (initialState planEnv firstReleaseOptions Scenario.twoProjects) with
    | Ok st => st
    | Throw _ => initialState planEnv firstReleaseOptions Scenario.twoProjects
    end.

Definition firstReleaseEnd : State :=
  Eval vm_compute in
    match processProject planEnv firstReleaseOptions Scenario.appB
            firstReleaseMid with
    | Ok st => st
    | Throw _ => firstReleaseMid
    end.

(** Conventional commits asked for while the current version is read from
    the manifests. *)
Definition commitsFromDiskOptions : Options :=
  Scenario.options [Scenario.libA] [] (Scenario.group independent []) None
    conventionalCommits disk updateNever.

(** Releases of [lib-a] from conventional commits under the preid [beta]. *)
Definition betaOptions : Options :=
  mkOptions [Scenario.libA] (mkGraph [Scenario.libA] [])
    (Scenario.group independent []) None conventionalCommits (Some "beta") None
    gitTag None false None (Some updateNever) false false None.

(** [lib-a] on 1.0.0, tagged, its specifier not resolved yet. *)
Definition onRelease : State :=
  mkState Scenario.twoProjects ∅ ∅ Scenario.roots (Some "1.0.0") false
    (Some (mkGitTag "v1.0.0" "1.0.0")) specUndefined conventionalCommits
    [] [] [] [].

(** How often the version-plans strategy runs in the loop: at every turn
    of an independent group, otherwise at the first turn only. *)
Definition planResolutions (options : Options) : nat :=
  if isIndependent options then length (sortedProjects options)
  else match sortedProjects options with [] => 0 | _ => 1 end.

(** [lib-a] and [app-b], versioned independently from one plan that bumps
    both; consumed plans are to be deleted. *)
Definition bothPlan : VersionPlan :=
  mkPlan "/ws/.nx/version-plans/both.md" ".nx/version-plans/both.md"
    (Some {[ "lib-a" := "minor"; "app-b" := "patch" ]}) None.

Definition bothPlanOptions : Options :=
  mkOptions [Scenario.libA; Scenario.appB]
    (mkGraph [Scenario.libA; Scenario.appB] [])
    (Scenario.group independent [bothPlan]) None versionPlansSource None None
    disk None false None (Some updateNever) false true None.

Definition bothPlanEnd : State :=
  Eval vm_compute in
    match runGenerator planEnv bothPlanOptions Scenario.twoProjects with
    | Ok st => st
    | Throw _ => initialState planEnv bothPlanOptions Scenario.twoProjects
    end.

(** [lib-a] and [app-b] as one group under conventional commits that find
    no change since the tag of [lib-a]. *)
Definition quietGroupOptions : Options :=
  Scenario.options [Scenario.libA; Scenario.appB] [] (Scenario.group fixed [])
    None conventionalCommits gitTag updateNever.

Definition quietGroupMid : State :=
  Eval vm_compute in
    match processProject quietEnv quietGroupOptions Scenario.libA
            (initialState quietEnv quietGroupOptions Scenario.twoProjects) with
    | Ok st => st
    | Throw _ => initialState quietEnv quietGroupOptions Scenario.twoProjects
    end.

Definition quietGroupEnd : State :=
  Eval vm_compute in
    match processProject quietEnv quietGroupOptions Scenario.appB
            quietGroupMid with
    | Ok st => st
    | Throw _ => quietGroupMid
    end.

(** A project name without a colon. *)
Definition colonFree (projectName : string) : bool :=
  Str.allChars (differs ":") projectName.

(** [lib-a] and [app-b] released with the specifier [minor], dependents not
    updated beyond the batch. *)
Definition batchOnlyOptions : Options :=
  Scenario.options [Scenario.libA; Scenario.appB] [] (Scenario.group independent [])
    (Some "minor") prompt disk updateNever.

Definition batchOnlyMid : State :=
  Eval vm_compute in
    match processProject planEnv batchOnlyOptions Scenario.libA
            (initialState planEnv batchOnlyOptions Scenario.twoProjects) with
    | Ok st => st
    | Throw _ => initialState planEnv batchOnlyOptions Scenario.twoProjects
    end.

(** [app-b] after its requirement on [lib-a] has followed the release of
    1.1.0. *)
Definition requirementEnd : State :=
  Eval vm_compute in
    match updateDependentProjectAndAddToVersionData planEnv batchOnlyOptions []
            (mkDep "app-b" "lib-a" dependencies_ None) "lib-a" (Some "1.1.0")
            noForce
            (initialState planEnv batchOnlyOptions Scenario.twoProjects) with
    | Ok st => st
    | Throw _ => initialState planEnv batchOnlyOptions Scenario.twoProjects
    end.

(** No entry of the version data is lost from [st] to [st']. *)
Definition keepsEntries (st st' : State) : Prop :=
  forall k, is_Some (versionData st !! k) -> is_Some (versionData st' !! k).

(** The directory that an update of the dependent [d] puts on
    [poetryLocks]: that of its manifest. *)
Definition lockDirOf (env : Env) (roots : gmap string string)
    (d : LocalPackageDependency) : string :=
  dirname env (pyprojectTomlIn env (default "" (roots !! source d))).

(** The sets of bumped dependencies only grow from [st] to [st']. *)
Definition marksGrow (st st' : State) : Prop :=
  forall b (bumps : gset string),
    projectToDependencyBumps st !! b = Some bumps ->
    exists bumps',
      projectToDependencyBumps st' !! b = Some bumps' /\ bumps ⊆ bumps'.

(** The dependent has [projectName] among its bumped dependencies. *)
Definition markedWith (st : State) (dependent projectName : string) : Prop :=
  exists bumps : gset string,
    projectToDependencyBumps st !! dependent = Some bumps
    /\ projectName ∈ bumps.

Definition batchOnlyEnd : State :=
  Eval vm_compute in
    match processProject planEnv batchOnlyOptions Scenario.appB batchOnlyMid with
    | Ok st => st
    | Throw _ => batchOnlyMid
    end.

(** The manifest that an update of the dependent [d] reads and writes. *)
Definition manifestOf (env : Env) (roots : gmap string string)
    (d : LocalPackageDependency) : string :=
  pyprojectTomlIn env (default "" (roots !! source d)).

(** ** JavaScript objects whose order of keys matters *)

Module JsObject.

(** An object with string keys as its entries in insertion order, every
    key once. *)
Definition Obj (V : Type) : Type := list (string * V).

(** [o[k]] *)
Fixpoint get {V : Type} (o : Obj V) (k : string) : option V :=
  match o with
  | [] => None
  | (k', v) :: rest => if String.eqb k' k then Some v else get rest k
  end.

(** [o[k] = v]: an existing key keeps its place, a new one goes last. *)
Fixpoint set {V : Type} (o : Obj V) (k : string) (v : V) : Obj V :=
  match o with
  | [] => [(k, v)]
  | (k', v') :: rest =>
      if String.eqb k' k then (k', v) :: rest else (k', v') :: set rest k v
  end.

End JsObject.

(** ** The poetry helpers ([provider/poetry/utils.ts]) *)

Module PoetryUtils.

(** A value inside the table of a dependency. *)
Inductive TomlValue : Type :=
| TomlString (s : string)
| TomlBool (b : bool)
| TomlStrings (l : list string).

(** An entry of [PoetryPyprojectTomlDependencies]: a requirement string or
    a table. *)
Inductive Dependency : Type :=
| Requirement (v : string)
| Table (fields : gmap string TomlValue).

#[global] Instance TomlValue_eq_dec : EqDecision TomlValue.
Proof. solve_decision. Defined.

#[global] Instance Dependency_eq_dec : EqDecision Dependency.
Proof. solve_decision. Defined.

(** A dependency group: its [dependencies], and [optional] when given. *)
Record Group : Type := mkGroup {
  groupDependencies : option (gmap string Dependency);
  groupOptional : option bool
}.

(** [tool.poetry]: the keys that the helpers read or write; a table of
    dependencies ([PoetryPyprojectTomlDependencies]) is a map, and [group]
    keeps the order of its keys. *)
Record Poetry : Type := mkPoetry {
  name : string;
  version : option string;
  dependencies : option (gmap string Dependency);
  group : option (JsObject.Obj Group)
}.

Record NxSettings : Type := mkNxSettings {
  autoActivate : option bool
}.

Record Tool : Type := mkTool {
  nx : option NxSettings;
  poetry : option Poetry
}.

(** [PoetryPyprojectToml] *)
Record PoetryPyprojectToml : Type := mkToml {
  tool : option Tool
}.

(** [tomlData.tool?.poetry] *)
Definition poetryOf (tomlData : PoetryPyprojectToml) : option Poetry :=
  match tool tomlData with
  | Some t => poetry t
  | None => None
  end.


Inductive Thrown : Type :=
| NoSuchFile (path : string)                     (* [readFileSync]: ENOENT *)
| TypeError                                      (* a property of undefined *)
| CommandFailed (commandStr : string) (status : option Z)
| NoSuchProject (projectName : string).          (* [readProjectConfiguration] *)

Inductive Outcome (A : Type) : Type :=
| Returned (a : A)
| Threw (e : Thrown).
Arguments Returned {A} a.
Arguments Threw {A} e.

Definition POETRY_EXECUTABLE : string := "poetry".

(** What a helper does to the outside, in order. *)
Inductive Action : Type :=
| LogRunningCommand (commandStr : string) (folder : option string)
| LogVenvActivation
| Spawn (executable : string) (args : list string) (cwd : option string).

(** [RunPoetryOptions]: [log], [error], and of the spawn options the one
    the callers set. *)
Record RunPoetryOptions : Type := mkRunOptions {
  log : option bool;
  error : option bool;
  cwd : option string
}.

Section Helpers.

(** [path.join], [path.resolve], and the exit status of a command run in a
    folder ([null] when it could not be run). *)
Variable pathJoin : string -> string -> string.
Variable pathResolve : string -> string -> string.
Variable spawnStatus : list string -> option string -> option Z.

Definition getProjectTomlPath (targetRoot : string) : string :=
  pathJoin targetRoot "pyproject.toml".

Definition parseToml (fs : gmap string PoetryPyprojectToml) (tomlFile : string)
    : Outcome PoetryPyprojectToml :=
  match fs !! tomlFile with
  | Some data => Returned data
  | None => Threw (NoSuchFile tomlFile)
  end.

(** [{ path: dependencyPath, develop: true, ...(extras ? { extras } : {}) }] *)
Definition localDependency (dependencyPath : string)
    (extras : option (list string)) : Dependency :=
  Table
    (match extras with
     | Some e => <["extras" := TomlStrings e]>
     | None => fun fields => fields
     end
       (<["develop" := TomlBool true]> {[ "path" := TomlString dependencyPath ]})).

Definition addLocalProjectToPoetryProject (fs : gmap string PoetryPyprojectToml)
    (targetRoot dependencyRoot dependencyPath : string)
    (groupName : option string) (extras : option (list string))
    : Outcome (string * gmap string PoetryPyprojectToml) :=
  let targetToml := getProjectTomlPath targetRoot in
  let dependencyToml := getProjectTomlPath dependencyRoot in
  match parseToml fs targetToml with
  | Threw e => Threw e
  | Returned targetTomlData =>
  match parseToml fs dependencyToml with
  | Threw e => Threw e
  | Returned dependencyTomlData =>
  match poetryOf dependencyTomlData with
  | None => Threw TypeError
  | Some dependencyPoetry =>
  let dependencyName := name dependencyPoetry in
  match tool targetTomlData with
  | None => Threw TypeError
  | Some targetTool =>
  match poetry targetTool with
  | None => Threw TypeError
  | Some targetPoetry =>
    let written (p : Poetry) : Outcome (string * gmap string PoetryPyprojectToml) :=
      Returned
        (dependencyName,
         <[targetToml := mkToml (Some (mkTool (nx targetTool) (Some p)))]> fs) in
    if truthy groupName then
      let g := inTemplate groupName in
      let groups := default [] (group targetPoetry) in
      let entry :=
        default (mkGroup (Some ∅) None) (JsObject.get groups g) in
      match groupDependencies entry with
      | None => Threw TypeError
      | Some deps =>
          written
            (mkPoetry (name targetPoetry) (version targetPoetry)
               (dependencies targetPoetry)
               (Some
                  (JsObject.set groups g
                     (mkGroup
                        (Some (<[dependencyName :=
                                   localDependency dependencyPath extras]> deps))
                        (groupOptional entry)))))
      end
    else
      match dependencies targetPoetry with
      | None => Threw TypeError
      | Some deps =>
          written
            (mkPoetry (name targetPoetry) (version targetPoetry)
               (Some (<[dependencyName :=
                          localDependency dependencyPath extras]> deps))
               (group targetPoetry))
      end
  end end end end end.

(** [runPoetry]: the actions, and whether it returned. *)
Definition runPoetry (args : list string) (options : RunPoetryOptions)
    : list Action * Outcome unit :=
  let log := default true (log options) in
  let error := default true (error options) in
  let commandStr := POETRY_EXECUTABLE +:+ " " +:+ Str.join " " args in
  let logged :=
    if log then
      [LogRunningCommand commandStr
         (match cwd options with
          | Some dir =>
              if Str.nonEmpty dir && negb (String.eqb dir ".") then Some dir
              else None
          | None => None
          end)]
    else [] in
  let status := spawnStatus args (cwd options) in
  (logged ++ [Spawn POETRY_EXECUTABLE args (cwd options)],
   if error && negb (bool_decide (status = Some 0%Z))
   then Threw (CommandFailed commandStr status)
   else Returned tt).

(** One statement after another: the second runs when the first returned. *)
Definition andThen (first : list Action * Outcome unit)
    (second : list Action * Outcome unit) : list Action * Outcome unit :=
  match first with
  | (done, Returned _) => (done ++ fst second, snd second)
  | (done, Threw e) => (done, Threw e)
  end.

Definition updateProject (dir : string) (updateLockOnly : bool)
    : list Action * Outcome unit :=
  andThen (runPoetry ["lock"; "--no-update"] (mkRunOptions None None (Some dir)))
    (if negb updateLockOnly
     then runPoetry ["install"] (mkRunOptions None None (Some dir))
     else ([], Returned tt)).

(** [activateVenv] on [process.env]. *)
Definition activateVenv (fs : gmap string PoetryPyprojectToml) (workspaceRoot : string)
    (processEnv : gmap string string)
    : list Action * Outcome (gmap string string) :=
  if negb (truthy (processEnv !! "VIRTUAL_ENV")) then
    let rootPyproject := pathJoin workspaceRoot "pyproject.toml" in
    match fs !! rootPyproject with
    | Some rootConfig =>
        match tool rootConfig with
        | None => ([], Threw TypeError)
        | Some rootTool =>
            let autoActivate :=
              match nx rootTool with
              | Some settings => default false (autoActivate settings)
              | None => false
              end in
            if autoActivate then
              let virtualEnv := pathResolve workspaceRoot ".venv" in
              let env1 := <["VIRTUAL_ENV" := virtualEnv]> processEnv in
              let env2 :=
                <["PATH" := virtualEnv +:+ "/bin:" +:+ inTemplate (env1 !! "PATH")]>
                  env1 in
              ([LogVenvActivation], Returned (delete "PYTHONHOME" env2))
            else ([], Returned processEnv)
        end
    | None => ([], Returned processEnv)
    end
  else ([], Returned processEnv).



End Helpers.

(** The table in which a dependency of the group lives: that of the group
    when one is named, else [dependencies]. *)
Definition tableOf (p : Poetry) (groupName : option string)
    : option (gmap string Dependency) :=
  if truthy groupName then
    match JsObject.get (default [] (group p)) (inTemplate groupName) with
    | Some g => groupDependencies g
    | None => None
    end
  else dependencies p.

(** The commands spawned, in order. *)
Definition spawned (actions : list Action) : list (list string) :=
  flat_map
    (fun a => match a with Spawn _ args _ => [args] | _ => [] end) actions.

End PoetryUtils.

(** Paths put together with a slash, and a workspace whose root manifest
    asks for the shared virtual environment. *)
Definition slashJoin (a b : string) : string := a +:+ "/" +:+ b.

Definition sharedVenvFiles : gmap string PoetryUtils.PoetryPyprojectToml :=
  {[ "/ws/pyproject.toml" :=
       PoetryUtils.mkToml
         (Some (PoetryUtils.mkTool
                  (Some (PoetryUtils.mkNxSettings (Some true))) None)) ]}.

(** ** The project generator ([generators/poetry-project/generator.ts]) *)

Module PoetryProject.

Export PoetryUtils.

(** The options that [addTestDependencies] and the updates of the
    manifests read, after [normalizeOptions]; a flag stands for its
    truthiness. *)
Record NormalizedSchema : Type := mkSchema {
  linter : option string;
  unitTestRunner : option string;
  codeCoverage : bool;
  codeCoverageHtmlReport : bool;
  individualPackage : bool;
  rootPyprojectDependencyGroup : option string;
  packageName : string;
  projectRoot : string;
  devDependenciesProject : option string
}.

(** [o === s] for a possibly missing string. *)
Definition equals (o : option string) (s : string) : bool :=
  match o with Some x => String.eqb x s | None => false end.

(** Truthiness of [dependencies[k]]. *)
Definition truthyDependency (d : option Dependency) : bool :=
  match d with
  | Some (Requirement v) => Str.nonEmpty v
  | Some (Table _) => true
  | None => false
  end.

(** [if (cond && !dependencies[tool]) dependencies[tool] = pinned] *)
Definition addIfMissing (cond : bool) (tool pinned : string)
    (dependencies : gmap string Dependency) : gmap string Dependency :=
  if cond && negb (truthyDependency (dependencies !! tool))
  then <[tool := Requirement pinned]> dependencies
  else dependencies.

(** [addTestDependencies]: [changed], and [dependencies] as the calls leave
    the object. *)
Definition addTestDependencies (dependencies : gmap string Dependency)
    (normalizedOptions : NormalizedSchema) : bool * gmap string Dependency :=
  let pytest := equals (unitTestRunner normalizedOptions) "pytest" in
  let d1 :=
    addIfMissing (equals (linter normalizedOptions) "flake8") "flake8" "6.0.0"
      dependencies in
  let d2 :=
    addIfMissing (equals (linter normalizedOptions) "ruff") "ruff" "0.1.5" d1 in
  let d3 := addIfMissing true "autopep8" "2.0.2" d2 in
  let d4 := addIfMissing pytest "pytest" "7.3.1" d3 in
  let d5 := addIfMissing pytest "pytest-sugar" "0.9.7" d4 in
  let d6 :=
    addIfMissing (pytest && codeCoverage normalizedOptions) "pytest-cov" "4.1.0"
      d5 in
  let d7 :=
    addIfMissing (pytest && codeCoverageHtmlReport normalizedOptions)
      "pytest-html" "3.2.0" d6 in
  (negb (bool_decide (dependencies = d7)), d7).

(** [{ path: projectRoot, develop: true }] *)
Definition pathEntry (normalizedOptions : NormalizedSchema) : Dependency :=
  Table
    (<["develop" := TomlBool true]>
       {[ "path" := TomlString (projectRoot normalizedOptions) ]}).

Definition withDependencies (p : Poetry)
    (deps : option (gmap string Dependency)) : Poetry :=
  mkPoetry (name p) (version p) deps (group p).

Definition withGroup (p : Poetry) (groups : option (JsObject.Obj Group))
    : Poetry :=
  mkPoetry (name p) (version p) (dependencies p) groups.

(** [poetry.group?.[g]?.dependencies] *)
Definition groupTable (p : Poetry) (g : string)
    : option (gmap string Dependency) :=
  match JsObject.get (default [] (group p)) g with
  | Some entry => groupDependencies entry
  | None => None
  end.

(** The manifests of the generator's tree, by path. *)
Section Generator.

(** [readProjectConfiguration(host, name).root], and [path.join]. *)
Variable projectRootOf : string -> option string.
Variable pathJoin : string -> string -> string.

(** The first block of [updateRootPyprojectToml]: the new package becomes
    a path dependency of the root, in [dependencies] or in the group. *)
Definition registerPackage (p0 : Poetry) (normalizedOptions : NormalizedSchema)
    : Outcome Poetry :=
  let g := default "main" (rootPyprojectDependencyGroup normalizedOptions) in
  if String.eqb g "main" then
    match dependencies p0 with
    | None => Threw TypeError
    | Some deps =>
        Returned
          (withDependencies p0
             (Some (<[packageName normalizedOptions :=
                        pathEntry normalizedOptions]> deps)))
    end
  else
    Returned
      (withGroup p0
         (Some
            (JsObject.set (default [] (group p0)) g
               (mkGroup
                  (Some (<[packageName normalizedOptions :=
                             pathEntry normalizedOptions]>
                           (default ∅ (groupTable p0 g))))
                  (match JsObject.get (default [] (group p0)) g with
                   | Some entry => groupOptional entry
                   | None => None
                   end))))).

(** The second block: the test tools go to the group [dev] of the root.
    The table handed to [addTestDependencies] is the one inside the
    manifest when the group has one, so the manifest sees what is added to
    it before [changed] is looked at. *)
Definition addTestTools (p1 : Poetry) (normalizedOptions : NormalizedSchema)
    : Poetry :=
  let '(changed, deps) :=
    addTestDependencies (default ∅ (groupTable p1 "dev")) normalizedOptions in
  let p2 :=
    match JsObject.get (default [] (group p1)) "dev" with
    | Some entry =>
        match groupDependencies entry with
        | Some _ =>
            withGroup p1
              (Some
                 (JsObject.set (default [] (group p1)) "dev"
                    (mkGroup (Some deps) (groupOptional entry))))
        | None => p1
        end
    | None => p1
    end in
  if changed then
    withGroup p2
      (Some
         (JsObject.set (default [] (group p2)) "dev" (mkGroup (Some deps) None)))
  else p2.

Definition updateRootPyprojectToml
    (host : gmap string PoetryPyprojectToml)
    (normalizedOptions : NormalizedSchema)
    : Outcome (gmap string PoetryPyprojectToml) :=
  if negb (individualPackage normalizedOptions) then
    match host !! "pyproject.toml" with
    | None => Threw TypeError
    | Some rootPyprojectToml =>
    match tool rootPyprojectToml with
    | None => Threw TypeError
    | Some rootTool =>
    match poetry rootTool with
    | None => Threw TypeError
    | Some p0 =>
      match registerPackage p0 normalizedOptions with
      | Threw e => Threw e
      | Returned p1 =>
        let p3 :=
          if negb (truthy (devDependenciesProject normalizedOptions))
          then addTestTools p1 normalizedOptions
          else p1 in
        Returned
          (<["pyproject.toml" := mkToml (Some (mkTool (nx rootTool) (Some p3)))]>
             host)
      end
    end end end
  else Returned host.

Definition getPyprojectTomlByProjectName
    (host : gmap string PoetryPyprojectToml) (projectName : string)
    : Outcome (PoetryPyprojectToml * string) :=
  match projectRootOf projectName with
  | None => Threw (NoSuchProject projectName)
  | Some dir =>
      let pyprojectTomlPath := pathJoin dir "pyproject.toml" in
      match host !! pyprojectTomlPath with
      | Some pyprojectToml => Returned (pyprojectToml, pyprojectTomlPath)
      | None => Threw TypeError
      end
  end.

Definition updateDevDependenciesProject
    (host : gmap string PoetryPyprojectToml)
    (normalizedOptions : NormalizedSchema)
    : Outcome (gmap string PoetryPyprojectToml) :=
  if truthy (devDependenciesProject normalizedOptions) then
    match getPyprojectTomlByProjectName host
            (inTemplate (devDependenciesProject normalizedOptions)) with
    | Threw e => Threw e
    | Returned (pyprojectToml, pyprojectTomlPath) =>
      match tool pyprojectToml with
      | None => Threw TypeError
      | Some t =>
      match poetry t with
      | None => Threw TypeError
      | Some p =>
      match dependencies p with
      | None => Threw TypeError
      | Some deps =>
          let '(changed, deps') := addTestDependencies deps normalizedOptions in
          if changed then
            Returned
              (<[pyprojectTomlPath :=
                   mkToml
                     (Some (mkTool (nx t)
                              (Some (withDependencies p (Some (deps' ∪ deps'))))))]>
                 host)
          else Returned host
      end end end
    end
  else Returned host.

(** The two updates in the order of the generator. *)
Definition updateManifests (host : gmap string PoetryPyprojectToml)
    (normalizedOptions : NormalizedSchema)
    : Outcome (gmap string PoetryPyprojectToml) :=
  match updateDevDependenciesProject host normalizedOptions with
  | Threw e => Threw e
  | Returned host1 => updateRootPyprojectToml host1 normalizedOptions
  end.

End Generator.

(** The tools and the versions that [addTestDependencies] pins. *)
Definition pinnedTools : list (string * string) :=
  [("flake8", "6.0.0"); ("ruff", "0.1.5"); ("autopep8", "2.0.2");
   ("pytest", "7.3.1"); ("pytest-sugar", "0.9.7"); ("pytest-cov", "4.1.0");
   ("pytest-html", "3.2.0")].

End PoetryProject.

(** * Properties *)

(** Projections of the state and of the tree after the setters. *)
Ltac st_simpl :=
  cbn [tree versionData projectToDependencyBumps projectNameToPackageRootMap
       stCurrentVersion currentVersionResolvedFromFallback latestMatchingGitTag
       specifier specifierSource deleteVersionPlanCallbacks poetryLocks console
       updateCalls setTree setVersionData setProjectToDependencyBumps
       setProjectNameToPackageRootMap setCurrentVersion setSpecifier
       setSpecifierSource pushDeleteVersionPlanCallbacks pushPoetryLock
       printLines noteUpdateCall writePyprojectToml files written treeRoot
       addDependencyBump recordProject skipProject] in *.

(** ** Running the definitions *)

Example parse_beta :
  Semver.parse "1.0.0-beta.1"
  = Some (Semver.mkSemVer 1 0 0 [Semver.IStr "beta"; Semver.INum 1]).
Proof. reflexivity. Qed.

Example parse_leading_zero : Semver.parse "1.02.3" = None.
Proof. reflexivity. Qed.

Example inc_minor_100 : Semver.incStr "1.0.0" "minor" None = Some "1.1.0".
Proof. reflexivity. Qed.

Example inc_prerelease_beta :
  Semver.incStr "1.0.0-beta.1" "prerelease" None = Some "1.0.0-beta.2".
Proof. reflexivity. Qed.

Example inc_patch_of_prerelease :
  Semver.incStr "1.0.0-beta.1" "patch" None = Some "1.0.0".
Proof. reflexivity. Qed.

Example gt_uses_numbers : Semver.gtStr "1.10.0" "1.9.0" = Some true.
Proof. reflexivity. Qed.

Example derive_patch :
  Nx.deriveNewSemverVersion "1.0.0" "patch" None = Ok "1.0.1".
Proof. reflexivity. Qed.

Example derive_explicit_passes_through :
  Nx.deriveNewSemverVersion "1.0.0" "0.1.0" None = Ok "0.1.0".
Proof. reflexivity. Qed.

Example sort_chain :
  map name
    (sortProjectsTopologically
       (mkGraph [] [("app", "lib"); ("lib", "core")])
       [mkProject "app" "a"; mkProject "lib" "l"; mkProject "core" "c"])
  = ["core"; "lib"; "app"].
Proof. reflexivity. Qed.

Example inc_prerelease_under_other_preid :
  Semver.incStr "1.0.0-beta.1" "prerelease" (Some "alpha") = Some "1.0.0-alpha.0"
  /\ Semver.gtStr "1.0.0-alpha.0" "1.0.0-beta.1" = Some false.
Proof. split; reflexivity. Qed.

Example scenario_patch_propagates :
  runGenerator planEnv scenarioOptions Scenario.twoProjects = Ok scenarioEnd
  /\ manifestVersion (tree scenarioEnd) "libs/a/pyproject.toml" = Some "1.0.1"
  /\ manifestVersion (tree scenarioEnd) "apps/b/pyproject.toml" = Some "2.0.1"
  /\ (match files (tree scenarioEnd) !! "apps/b/pyproject.toml" with
      | Some (mkPyproject (Some poetry)) =>
          poetryDependencies poetry ≫= (.!! "lib-a")
      | _ => None
      end) = Some (DepTable (Some "^1.0.1") (Some "../../libs/a"))
  /\ newVersion <$> (versionData scenarioEnd !! "app-b") = Some (Some "2.0.1").
Proof. split; [vm_compute; reflexivity|]. repeat split; reflexivity. Qed.

(** In a selected chain the transitive pass of the first turn forces a
    bump on the last project, which is bumped again in its own turn. *)
Example transitive_pass_reaches_selected_project :
  runGenerator selectedChainEnv selectedChainOptions chainTree
  = Ok selectedChainEnd
  /\ map name (sortedProjects selectedChainOptions) = ["lib-a"; "app-b"; "lib-x"]
  /\ updateCalls selectedChainEnd
     = [mkCall (mkDep "app-b" "lib-a" dependencies_ None) noForce;
        mkCall (mkDep "lib-x" "app-b" dependencies_ None) (force "patch");
        mkCall (mkDep "lib-x" "app-b" dependencies_ None) noForce]
  /\ manifestVersion (tree selectedChainEnd) "apps/b/pyproject.toml"
     = Some "2.0.1"
  /\ manifestVersion (tree selectedChainEnd) "libs/x/pyproject.toml"
     = Some "3.0.2".
Proof. split; [vm_compute; reflexivity|]. repeat split; reflexivity. Qed.

(** ** A dependent without a version *)

(** C10: when the dependent's manifest has no version, the update writes
    the manifest back as it was read (no version appears in it), and a
    forced bump only records an entry with [currentVersion] null and
    [newVersion] the dependency string the dependent declares on the bumped
    package; without a forced bump the version data is left alone.  This
    holds for every edge of the main collection, and for an edge of a
    group when the manifest has [tool.poetry.group]; for an edge of a group
    on a manifest without it the update throws before anything is
    recorded or written. *)
Theorem missing_version_dependent_keeps_manifest
    (env : Env) (options : Options)
    (transitive : list LocalPackageDependency)
    (dependentProject : LocalPackageDependency)
    (dependencyPackageName : string) (newDependencyVersion : option string)
    (forceVersionBump : ForceVersionBump) (st : State)
    (dependentRoot : string) (manifest : PyprojectToml) (poetry : Poetry) :
  projectNameToPackageRootMap st !! source dependentProject = Some dependentRoot ->
  readPyprojectToml (tree st) (pyprojectTomlIn env dependentRoot) = Some manifest ->
  toolPoetry manifest = Some poetry ->
  poetryVersion poetry = None ->
  (groupIsMissing poetry dependentProject = true ->
   updateDependentProjectAndAddToVersionData env options transitive
     dependentProject dependencyPackageName newDependencyVersion
     forceVersionBump st = Throw TypeError)
  /\ (groupIsMissing poetry dependentProject = false ->
      exists st',
        updateDependentProjectAndAddToVersionData env options transitive
          dependentProject dependencyPackageName newDependencyVersion
          forceVersionBump st = Ok st'
        /\ files (tree st') = files (tree st)
        /\ readPyprojectToml (tree st') (pyprojectTomlIn env dependentRoot)
           = Some manifest
        /\ written (tree st')
           = written (tree st) ++ [pyprojectTomlIn env dependentRoot]
        /\ versionData st'
           = match forceVersionBump with
             | force _ =>
                 <[source dependentProject :=
                     mkEntry None
                       (extractDependencyVersion env (tree st) dependentRoot
                          (dependencyTableOf poetry dependentProject)
                          dependencyPackageName)
                       (transitiveDependentsOn transitive
                          (source dependentProject))]>
                   (versionData st)
             | noForce => versionData st
             end).
Proof.
  intros Hroot Hread Hpoetry Hversion.
  unfold updateDependentProjectAndAddToVersionData.
  st_simpl. rewrite Hroot. st_simpl. rewrite Hread, Hpoetry, Hversion.
  cbn [truthy negb]. unfold readPyprojectToml in *.
  split; intros ->; [reflexivity|].
  destruct forceVersionBump as [|bump]; eexists; (split; [reflexivity|]);
    st_simpl; rewrite (insert_id _ _ _ Hread); auto.
Qed.

Lemma missing_version_dependent_keeps_manifest_witness :
  exists st',
    updateDependentProjectAndAddToVersionData
      (Scenario.env Scenario.bDependsOnA Scenario.roots Scenario.noTags None)
      (Scenario.options [Scenario.libA] [] (Scenario.group independent [])
         (Some "patch") prompt disk updateAuto)
      [] (mkDep "app-b" "lib-a" dependencies_ None) "lib-a" (Some "1.0.1")
      (force "patch") unversionedState = Ok st'
    /\ versionData st' !! "app-b" = Some (mkEntry None (Some "^1.0.0") [])
    /\ files (tree st') = files unversionedDependent.
Proof.
  destruct (missing_version_dependent_keeps_manifest
              (Scenario.env Scenario.bDependsOnA Scenario.roots Scenario.noTags None)
              (Scenario.options [Scenario.libA] [] (Scenario.group independent [])
                 (Some "patch") prompt disk updateAuto)
              [] (mkDep "app-b" "lib-a" dependencies_ None) "lib-a"
              (Some "1.0.1") (force "patch") unversionedState "apps/b"
              (Scenario.manifest "app-b" None
                 [("lib-a", Scenario.pathDep "^1.0.0" "../../libs/a")])
              (mkPoetry "app-b" None
                 (Some
                    (list_to_map
                       [("lib-a", Scenario.pathDep "^1.0.0" "../../libs/a")]))
                 None)
              eq_refl eq_refl eq_refl eq_refl)
    as [_ Hreturns].
  destruct (Hreturns eq_refl) as (st' & Hrun & Hfiles & _ & _ & Hdata).
  exists st'. split; [exact Hrun|]. split; [|exact Hfiles].
  rewrite Hdata. reflexivity.
Defined.

(** ** What each phase of a turn leaves alone *)

Lemma sameResolution_refl st : sameResolution st st.
Proof. repeat split. Qed.

Lemma sameResolution_trans st1 st2 st3 :
  sameResolution st1 st2 -> sameResolution st2 st3 -> sameResolution st1 st3.
Proof.
  unfold sameResolution. intros H1 H2.
  destruct H1 as (?&?&?&?&?&?&?&?), H2 as (?&?&?&?&?&?&?&?).
  repeat split; congruence.
Qed.

Lemma resolveCurrentVersion_outcome env options projectName packageName
    fromDisk path st logs st' logs' :
  resolveCurrentVersion env options projectName packageName fromDisk path st logs
  = Ok (st', logs') ->
  sameOutcome st st'
  /\ specifier st' = specifier st
  /\ specifierSource st' = specifierSource st
  /\ deleteVersionPlanCallbacks st' = deleteVersionPlanCallbacks st.
Proof.
  unfold resolveCurrentVersion, sameOutcome. intros H.
  repeat case_match; simplify_eq; st_simpl; repeat split; congruence.
Qed.

Lemma resolveSpecifier_outcome env options projectName st logs st' logs' :
  resolveSpecifier env options projectName st logs = Ok (st', logs') ->
  sameOutcome st st'
  /\ stCurrentVersion st' = stCurrentVersion st
  /\ specifierSource st' = specifierSource st.
Proof.
  unfold resolveSpecifier, sameOutcome, bind. intros H.
  repeat case_match; simplify_eq; st_simpl; repeat split; congruence.
Qed.

(** One update of a dependent: the call is noted, the resolution fields
    stay, and the version data changes at most at the dependent, and only
    under a forced bump. *)
Lemma update_effect env options transitive d depName newDepVersion fb st st' :
  updateDependentProjectAndAddToVersionData env options transitive d depName
    newDepVersion fb st = Ok st' ->
  sameResolution st st'
  /\ projectToDependencyBumps st' = projectToDependencyBumps st
  /\ updateCalls st' = updateCalls st ++ [mkCall d fb]
  /\ (fb = noForce -> versionData st' = versionData st)
  /\ (forall k, k <> source d -> versionData st' !! k = versionData st !! k).
Proof.
  unfold updateDependentProjectAndAddToVersionData, sameResolution, bind.
  intros H.
  repeat case_match; simplify_eq; st_simpl;
    repeat split; try done; intros; try done;
    rewrite lookup_insert_ne; done.
Qed.

(** ** Loops *)

Lemma forEach_cons {A S : Type} (body : A -> S -> Result S) x l s s' :
  forEach body (x :: l) s = Ok s' ->
  exists s1, body x s = Ok s1 /\ forEach body l s1 = Ok s'.
Proof.
  cbn [forEach]. unfold bind. destruct (body x s) as [s1|e]; [eauto|discriminate].
Qed.

(** A relation between states that every turn of a loop respects is
    respected by the loop. *)
Lemma forEach_preorder {A S : Type} (body : A -> S -> Result S)
    (R : S -> S -> Prop) :
  (forall s, R s s) ->
  (forall s1 s2 s3, R s1 s2 -> R s2 s3 -> R s1 s3) ->
  forall l : list A,
  (forall x s s', In x l -> body x s = Ok s' -> R s s') ->
  forall s s', forEach body l s = Ok s' -> R s s'.
Proof.
  intros Hrefl Htrans l. induction l as [|x l IH]; intros Hbody s s' Hrun.
  - cbn in Hrun. injection Hrun as <-. apply Hrefl.
  - apply forEach_cons in Hrun as (s1 & Hx & Hrest).
    apply Htrans with s1.
    + apply (Hbody x); [left; reflexivity | exact Hx].
    + apply IH; [|exact Hrest]. intros y t t' Hy. apply Hbody. right. exact Hy.
Qed.

(** A loop whose every turn notes one call notes one call per element. *)
Lemma forEach_calls {A : Type} (body : A -> State -> Result State)
    (call : A -> UpdateCall) (Inv : State -> Prop) :
  (forall x s s', Inv s -> body x s = Ok s' ->
     Inv s' /\ updateCalls s' = updateCalls s ++ [call x]) ->
  forall l s s', Inv s -> forEach body l s = Ok s' ->
     Inv s' /\ updateCalls s' = updateCalls s ++ map call l.
Proof.
  intros Hbody l. induction l as [|x l IH]; intros s s' Hinv Hrun.
  - cbn in Hrun. injection Hrun as <-. cbn. rewrite app_nil_r. auto.
  - apply forEach_cons in Hrun as (s1 & Hx & Hrest).
    destruct (Hbody _ _ _ Hinv Hx) as [Hinv1 Hcalls1].
    destruct (IH _ _ Hinv1 Hrest) as [Hinv' Hcalls'].
    split; [exact Hinv'|]. rewrite Hcalls', Hcalls1. cbn.
    rewrite <- app_assoc. reflexivity.
Qed.

Lemma updateInBatch_effect env options transitive projectName packageName
    newVersion d st st' :
  updateInBatch env options transitive projectName packageName newVersion d st
  = Ok st' ->
  sameResolution st st'
  /\ updateCalls st' = updateCalls st ++ [mkCall d noForce]
  /\ versionData st' = versionData st.
Proof.
  unfold updateInBatch. intros H.
  apply update_effect in H as (Hres & _ & Hcalls & Hdata & _).
  st_simpl. split; [|split].
  - exact Hres.
  - exact Hcalls.
  - apply Hdata. reflexivity.
Qed.

Lemma updateOutsideBatch_effect env options transitive projectName packageName
    newVersion d st st' :
  updateOutsideBatch env options transitive projectName packageName newVersion
    d st = Ok st' ->
  sameResolution st st'
  /\ updateCalls st'
     = updateCalls st ++ [mkCall d (forceOutsideBatch options (specifierSource st) d)]
  /\ (forall k, k <> source d -> versionData st' !! k = versionData st !! k)
  /\ (forceOutsideBatch options (specifierSource st) d = noForce ->
      versionData st' = versionData st).
Proof.
  unfold updateOutsideBatch. intros H.
  apply update_effect in H as (Hres & _ & Hcalls & Hdata & Hother).
  destruct (isSourceVersionPlans (specifierSource st)
            && negb (hasDependencyBumps st (source d))); st_simpl; auto.
Qed.

Lemma updateTransitive_effect env options transitive circ d st st' :
  updateTransitive env options transitive circ d st = Ok st' ->
  sameResolution st st'
  /\ updateCalls st' = updateCalls st ++ [mkCall d (forceTransitive circ d)]
  /\ (forall k, k <> source d -> versionData st' !! k = versionData st !! k)
  /\ (forceTransitive circ d = noForce -> versionData st' = versionData st).
Proof.
  unfold updateTransitive. intros H.
  repeat case_match; simplify_eq.
  apply update_effect in H as (Hres & _ & Hcalls & Hdata & Hother). auto.
Qed.

Lemma propagate_effect env options projectName packageName newVersion
    inBatch outsideBatch transitive circ st st' :
  propagate env options projectName packageName newVersion inBatch outsideBatch
    transitive circ st = Ok st' ->
  sameResolution st st'
  /\ updateCalls st'
     = updateCalls st
       ++ propagationCalls options (specifierSource st) inBatch outsideBatch
            transitive circ.
Proof.
  unfold propagate, bind, propagationCalls. intros H.
  destruct (forEach _ inBatch st) as [st1|] eqn:H1; [|discriminate].
  destruct (if isAuto options then _ else _) as [st2|] eqn:H2; [|discriminate].
  pose (Inv := fun s => sameResolution st s).
  destruct (forEach_calls
              (updateInBatch env options transitive projectName packageName
                 newVersion)
              (fun d => mkCall d noForce) Inv) with (l := inBatch) (s := st)
    (s' := st1) as [I1 C1]; [|apply sameResolution_refl|exact H1|].
  { intros x s s' Hs Hx. apply updateInBatch_effect in Hx as (R & C & _).
    split; [eapply sameResolution_trans; eauto | exact C]. }
  assert (I2C2 : Inv st2 /\ updateCalls st2 = updateCalls st1 ++
            (if isAuto options
             then map (fun d => mkCall d (forceOutsideBatch options
                                            (specifierSource st) d)) outsideBatch
             else [])).
  { destruct (isAuto options).
    - apply (forEach_calls
               (updateOutsideBatch env options transitive projectName
                  packageName newVersion)
               (fun d => mkCall d (forceOutsideBatch options (specifierSource st) d))
               Inv) with (l := outsideBatch) (s := st1); [|exact I1|exact H2].
      intros x s s' Hs Hx. apply updateOutsideBatch_effect in Hx as (R & C & _).
      split; [eapply sameResolution_trans; eauto|].
      rewrite C. destruct Hs as (_&_&_&_&->&_). reflexivity.
    - injection H2 as <-. rewrite app_nil_r. auto. }
  destruct I2C2 as [I2 C2].
  destruct (forEach_calls
              (updateTransitive env options transitive circ)
              (fun d => mkCall d (forceTransitive circ d)) Inv)
    with (l := transitive) (s := st2) (s' := st') as [I3 C3];
    [|exact I2|exact H|].
  { intros x s s' Hs Hx. apply updateTransitive_effect in Hx as (R & C & _).
    split; [eapply sameResolution_trans; eauto | exact C]. }
  split; [exact I3|]. rewrite C3, C2, C1. rewrite <- !app_assoc. reflexivity.
Qed.

(** ** The phases of a turn *)

Lemma resolveProject_outcome env options project st path poetry st3 logs3 :
  resolveProject env options project st = Ok (path, poetry, st3, logs3) ->
  sameOutcome st st3
  /\ exists packageRoot manifest,
       projectNameToPackageRootMap st !! name project = Some packageRoot
       /\ path = pyprojectTomlIn env packageRoot
       /\ readPyprojectToml (tree st) path = Some manifest
       /\ toolPoetry manifest = Some poetry.
Proof.
  unfold resolveProject, bind. intros H.
  destruct (projectNameToPackageRootMap st !! name project) as [packageRoot|]
    eqn:Hroot; [|discriminate].
  destruct (negb (Str.nonEmpty packageRoot)); [discriminate|].
  destruct (readPyprojectToml (tree st) (pyprojectTomlIn env packageRoot))
    as [manifest|] eqn:Hread; [|discriminate].
  destruct (toolPoetry manifest) as [poetry'|] eqn:Hpoetry; [|discriminate].
  destruct (resolveCurrentVersion _ _ _ _ _ _ _ _) as [[st1 logs1]|] eqn:H1;
    [|discriminate].
  apply resolveCurrentVersion_outcome in H1 as (O1 & _).
  assert (O2 : forall st2 logs2,
             (if truthy (providedSpecifier options)
              then (setSpecifierSource prompt st1,
                    logs1 ++ [LogUsingProvidedSpecifier
                                (inTemplate (providedSpecifier options))])
              else (st1, logs1)) = (st2, logs2) ->
             sameOutcome st st2).
  { intros st2 logs2 E. destruct (truthy (providedSpecifier options));
      injection E as <- <-; exact O1. }
  destruct (if truthy (providedSpecifier options) then _ else _)
    as [st2 logs2] eqn:E2.
  specialize (O2 _ _ eq_refl).
  assert (O3 : sameOutcome st st3 /\ poetry' = poetry
               /\ pyprojectTomlIn env packageRoot = path).
  { destruct (specifier st2);
      [destruct (resolveSpecifier _ _ _ _ _) as [[a b]|] eqn:H3; [|discriminate]
      |destruct (isIndependent options && negb (truthy (providedSpecifier options)));
       [destruct (resolveSpecifier _ _ _ _ _) as [[a b]|] eqn:H3; [|discriminate]|]
      |destruct (isIndependent options && negb (truthy (providedSpecifier options)));
       [destruct (resolveSpecifier _ _ _ _ _) as [[a b]|] eqn:H3; [|discriminate]|]];
      injection H as <- <- <- <-;
      try (apply resolveSpecifier_outcome in H3 as (O3 & _));
      (split; [|split; reflexivity]); try exact O2;
      unfold sameOutcome in *;
      destruct O2 as (?&?&?&?&?&?&?), O3 as (?&?&?&?&?&?&?);
      repeat split; congruence. }
  destruct O3 as (O3 & -> & <-).
  split; [exact O3|]. exists packageRoot, manifest. auto.
Qed.

(** A turn that ends normally either skipped the project, its specifier
    being empty, or bumped it. *)
Lemma processProject_cases env options project st st' :
  processProject env options project st = Ok st' ->
  exists path poetry st3 logs3 logs4,
    resolveProject env options project st = Ok (path, poetry, st3, logs3)
    /\ truthy (stCurrentVersion st3) = true
    /\ let edgesAndRoots :=
         resolveLocalPackageDependencies env (tree st3) (sortedProjects options)
           (projectNameToPackageRootMap st3) (isIndependent options) in
       let allDependentProjects :=
         dependentsOf (fst edgesAndRoots) (name project) in
       let inBatch :=
         dependentProjectsInCurrentBatch options (specifierSource st3)
           allDependentProjects in
       let st5 :=
         recordProject options (name project) allDependentProjects inBatch
           (snd edgesAndRoots) st3 in
       (specTruthy (specifier st3) = false
        /\ st' = skipProject options (name project) (poetryName poetry) logs4 st5)
       \/ (exists spec,
             specifier st3 = specString spec
             /\ Str.nonEmpty spec = true
             /\ bumpProject env options (name project) (poetryName poetry) path
                  poetry spec allDependentProjects inBatch
                  (dependentProjectsOutsideCurrentBatch options
                     (specifierSource st3) allDependentProjects)
                  (transitiveDependentsOf options (fst edgesAndRoots)
                     allDependentProjects)
                  (circularDependenciesOf (name project) allDependentProjects)
                  logs4 st5 = Ok st').
Proof.
  unfold processProject, bind. intros H.
  destruct (resolveProject env options project st)
    as [[[[path poetry] st3] logs3]|] eqn:Hres; [|discriminate].
  destruct (resolveLocalPackageDependencies env (tree st3) (sortedProjects options)
              (projectNameToPackageRootMap st3) (isIndependent options))
    as [edges roots] eqn:Hedges.
  destruct (truthy (stCurrentVersion st3)) eqn:Hcur; [|discriminate].
  cbn [negb] in H. st_simpl.
  eexists path, poetry, st3, logs3, _. split; [reflexivity|].
  split; [exact Hcur|]. try rewrite Hedges. cbn [fst snd].
  destruct (specifier st3) as [| |spec] eqn:Hspec.
  - left. injection H as <-. split; reflexivity.
  - left. injection H as <-. split; reflexivity.
  - destruct (Str.nonEmpty spec) eqn:Hne.
    + right. exists spec. auto.
    + left. injection H as <-. cbn [specTruthy]. auto.
Qed.

Lemma bumpProject_effect env options projectName packageName path poetry spec
    allDependentProjects inBatch outsideBatch transitive circ logs st5 st' :
  bumpProject env options projectName packageName path poetry spec
    allDependentProjects inBatch outsideBatch transitive circ logs st5 = Ok st' ->
  exists newVersion,
    Nx.deriveNewSemverVersion (inTemplate (stCurrentVersion st5)) spec
      (preid options) = Ok newVersion
    /\ specifier st' = specifier st5
    /\ specifierSource st' = specifierSource st5
    /\ stCurrentVersion st' = stCurrentVersion st5
    /\ deleteVersionPlanCallbacks st' = deleteVersionPlanCallbacks st5
    /\ updateCalls st'
       = updateCalls st5
         ++ propagationCalls options (specifierSource st5) inBatch outsideBatch
              transitive circ.
Proof.
  unfold bumpProject, bind. intros H.
  destruct (Nx.deriveNewSemverVersion _ _ _) as [newVersion|]; [|discriminate].
  destruct (propagate _ _ _ _ _ _ _ _ _ _) as [st9|] eqn:Hp; [|discriminate].
  injection H as <-. apply propagate_effect in Hp as (R & C).
  destruct R as (?&?&?&?&?&?&?&?). st_simpl.
  exists newVersion. repeat split; assumption.
Qed.

(** ** A project without a specifier *)

(** C7: a turn whose specifier is null or empty records the entry
    [{currentVersion, newVersion: null, dependentProjects}] of the project
    and nothing else: the tree (content and writes), the lock directories
    and the calls on dependents are as before, and the console gains the
    flushed lines of the project exactly when unchanged projects are
    logged. *)
Theorem null_specifier_records_and_skips
    (env : Env) (options : Options) (project : ProjectGraphProjectNode)
    (st st' : State) :
  processProject env options project st = Ok st' ->
  specTruthy (specifier st') = false ->
  let allDependentProjects :=
    dependentsOf
      (fst (resolveLocalPackageDependencies env (tree st) (sortedProjects options)
              (projectNameToPackageRootMap st) (isIndependent options)))
      (name project) in
  tree st' = tree st
  /\ poetryLocks st' = poetryLocks st
  /\ updateCalls st' = updateCalls st
  /\ truthy (stCurrentVersion st') = true
  /\ versionData st'
     = <[name project :=
           mkEntry (stCurrentVersion st') None
             (if isAuto options then map withoutGroupKey allDependentProjects
              else map withoutGroupKey
                     (dependentProjectsInCurrentBatch options
                        (specifierSource st') allDependentProjects))]>
         (versionData st)
  /\ exists logs packageName,
       console st'
       = console st
         ++ (if logUnchanged options
             then flush (name project)
                    (logs ++ [LogSkippingVersioning packageName])
             else []).
Proof.
  intros H Hspec.
  apply processProject_cases in H
    as (path & poetry & st3 & logs3 & logs4 & Hres & Hcur & Hcase).
  apply resolveProject_outcome in Hres as (O & _).
  destruct O as (Ht & Hv & _ & Hr & Hl & Hc & Hu).
  cbn zeta in Hcase. rewrite Ht, Hr in Hcase.
  destruct Hcase as [[Hnull ->]|(spec & Hs & Hne & Hbump)].
  - unfold skipProject, recordProject, initialEntry.
    destruct (logUnchanged options); st_simpl;
      repeat split; try assumption; try congruence;
      try (eexists _, _); rewrite Hc; try rewrite app_nil_r; reflexivity.
  - apply bumpProject_effect in Hbump as (nv & _ & Hs' & _).
    unfold recordProject in Hs'. st_simpl.
    rewrite Hs', Hs in Hspec. cbn in Hspec. congruence.
Qed.

Lemma null_specifier_records_and_skips_witness :
  processProject quietEnv quietOptions Scenario.libA quietStart = Ok quietEnd
  /\ tree quietEnd = Scenario.twoProjects
  /\ versionData quietEnd
     = {[ "lib-a" := mkEntry (Some "1.0.0") None
                       [mkDep "app-b" "lib-a" dependencies_ None] ]}
  /\ length (console quietEnd) = 5.
Proof.
  assert (Hrun : processProject quietEnv quietOptions Scenario.libA quietStart
                 = Ok quietEnd) by (vm_compute; reflexivity).
  destruct (null_specifier_records_and_skips quietEnv quietOptions Scenario.libA
              quietStart quietEnd Hrun eq_refl)
    as (Htree & _ & _ & _ & Hdata & _).
  split; [exact Hrun|]. split; [exact Htree|].
  split; [rewrite Hdata; vm_compute; reflexivity | reflexivity].
Defined.

(** ** The callback *)


(** The removals of a real run: the commands up to the first that is
    refused, and the relative paths when none is. *)
Lemma deletePlans_perform host plans done :
  exists r,
    deletePlans host plans false done
    = (fst (perform host
              (map (fun p => RemovePlanFile (absolutePath p)) plans) done), r)
    /\ (if snd (perform host
                  (map (fun p => RemovePlanFile (absolutePath p)) plans) done)
        then r = Ok (map relativePath plans)
        else exists e, r = Throw e).
Proof.
  revert done. induction plans as [|p plans IH]; intros done.
  - exists (Ok []). split; reflexivity.
  - cbn [deletePlans deleteVersionPlanCallback negb map perform refuses].
    destruct (rmRejects host done (absolutePath p)).
    + eexists. split; [reflexivity|]. cbn. eauto.
    + destruct (IH (done ++ [RemovePlanFile (absolutePath p)]))
        as (r & -> & Hr).
      destruct (snd (perform host _ _)).
      * subst r. eexists. split; reflexivity.
      * destruct Hr as [e ->]. eexists. split; [reflexivity|]. eauto.
Qed.

Lemma lockAll_perform host lockDirs done :
  exists r,
    lockAll host lockDirs done
    = (fst (perform host (map RunPoetryLock lockDirs) done), r)
    /\ (if snd (perform host (map RunPoetryLock lockDirs) done)
        then r = Ok tt
        else exists e, r = Throw e).
Proof.
  revert done. induction lockDirs as [|d lockDirs IH]; intros done.
  - exists (Ok tt). split; reflexivity.
  - cbn [lockAll map perform refuses]. unfold runPoetryLock.
    destruct (lockStatus host done d) as [[| |]|] eqn:E; cbn [negb];
      try (rewrite bool_decide_eq_false_2 by discriminate; cbn [negb];
           eexists; split; [reflexivity|]; cbn; eauto).
    rewrite bool_decide_eq_true_2 by reflexivity. cbn [negb]. apply IH.
Qed.

Lemma perform_app host a b done :
  perform host (a ++ b) done
  = (if snd (perform host a done)
     then perform host b (fst (perform host a done))
     else perform host a done).
Proof.
  revert done. induction a as [|c a IH]; intros done; [reflexivity|].
  cbn [app perform]. destruct (refuses host done c); [reflexivity|]. apply IH.
Qed.

Lemma perform_accepted host commands done :
  Accepts host -> perform host commands done = (done ++ commands, true).
Proof.
  intros [Hrm Hlock]. revert done.
  induction commands as [|c commands IH]; intros done.
  - rewrite app_nil_r. reflexivity.
  - cbn [perform]. assert (E : refuses host done c = false).
    { destruct c as [path|cwd]; cbn [refuses]; [apply Hrm|].
      rewrite Hlock, bool_decide_eq_true_2 by reflexivity. reflexivity. }
    rewrite E, IH, <- app_assoc. reflexivity.
Qed.

(** The real run issues the deferred commands in order up to the first
    that fails; it returns its lists when none fails, and throws
    otherwise. *)
Lemma callback_real_run env host st callbackTree :
  fst (callback env host st callbackTree false)
  = fst (perform host (deferredEffects st callbackTree) [])
  /\ (if snd (perform host (deferredEffects st callbackTree) [])
      then snd (callback env host st callbackTree false)
           = Ok (realRunLists env st callbackTree)
      else exists e, snd (callback env host st callbackTree false) = Throw e).
Proof.
  unfold callback, deferredEffects, realRunLists. cbn [negb andb].
  rewrite perform_app.
  destruct (deletePlans_perform host (deleteVersionPlanCallbacks st) [])
    as (r1 & -> & H1).
  destruct (perform host _ []) as [done1 ok1]. cbn [fst snd] in *.
  destruct ok1; [subst r1|destruct H1 as [e ->]; cbn; eauto].
  rewrite perform_app.
  destruct (lockAll_perform host (poetryLocks st) done1) as (r2 & -> & H2).
  destruct (perform host _ done1) as [done2 ok2]. cbn [fst snd] in *.
  destruct ok2; [subst r2|destruct H2 as [e ->]; cbn; eauto].
  destruct (treeExists callbackTree "pyproject.toml").
  - cbn [perform refuses]. unfold runPoetryLock.
    destruct (lockStatus host done2 (treeRoot callbackTree)) as [[| |]|];
      cbn [negb];
      try (rewrite bool_decide_eq_false_2 by discriminate; cbn; eauto).
    rewrite bool_decide_eq_true_2 by reflexivity. cbn. auto.
  - cbn. rewrite app_nil_r. auto.
Qed.



(** ** The fallback on a bumped dependency *)

(** C6: when the conventional-commits or the version-plans strategy finds
    no specifier for a project, dependents are to be updated, and the
    project is a key of [projectToDependencyBumps], the specifier becomes
    ["patch"]. *)
Theorem dependency_bump_forces_patch
    (env : Env) (options : Options) (projectName : string) (st : State)
    (logs : list LogMsg) :
  ResolvesToNoSpecifier env options projectName st ->
  isNever options = false ->
  hasDependencyBumps st projectName = true ->
  exists st' logs',
    resolveSpecifier env options projectName st logs = Ok (st', logs')
    /\ specifier st' = specString "patch"
    /\ updateDependentsBump = "patch".
Proof.
  intros Hno Hnever Hhas. unfold resolveSpecifier.
  destruct Hno as [ref Hsrc Hres Href Hne Hfalsy|resolved Hsrc Hplans Hred Hfalsy].
  - rewrite Hsrc, Hres, Href, Hne, Hfalsy, Hnever, Hhas. cbn [negb andb].
    eexists _, _. split; [reflexivity|]. split; reflexivity.
  - rewrite Hsrc, Hplans, Hred. cbn [negb bind].
    rewrite Hfalsy, Hnever, Hhas. cbn [negb andb].
    destruct (deleteVersionPlans options);
      eexists _, _; (split; [reflexivity|]); split; reflexivity.
Qed.

Lemma dependency_bump_forces_patch_witness :
  exists st' logs',
    resolveSpecifier quietEnv
      (Scenario.options [Scenario.libA; Scenario.appB] []
         (Scenario.group independent []) None conventionalCommits gitTag
         updateAuto)
      "app-b" afterLibA [] = Ok (st', logs')
    /\ specifier st' = specString "patch"
    /\ updateDependentsBump = "patch".
Proof.
  apply dependency_bump_forces_patch.
  - apply NoSpecifierFromCommits with (ref := "v2.0.0"); reflexivity.
  - reflexivity.
  - reflexivity.
Defined.

(** ** Version strings *)

Lemma append_cons x a b : String x a +:+ b = String x (a +:+ b).
Proof. reflexivity. Qed.

Lemma append_nil b : "" +:+ b = b.
Proof. reflexivity. Qed.


Lemma allChars_impl (p q : ascii -> bool) s :
  (forall a, p a = true -> q a = true) ->
  Str.allChars p s = true -> Str.allChars q s = true.
Proof.
  intros Hpq. induction s as [|x s IH]; simpl; [reflexivity|].
  intros [Hx Hs]%andb_prop. rewrite (Hpq _ Hx), (IH Hs). reflexivity.
Qed.





Lemma splitOn_none c s :
  Str.allChars (differs c) s = true -> Str.splitOn c s = [s].
Proof.
  induction s as [|x s IH]; simpl; [reflexivity|].
  intros [Hx Hs]%andb_prop. unfold differs in Hx.
  destruct (Ascii.eqb x c); [discriminate|]. rewrite (IH Hs). reflexivity.
Qed.


Ltac by_cases_on_char a :=
  destruct a as [[] [] [] [] [] [] [] []]; cbn; intros; try reflexivity;
  discriminate.




Lemma digit_differs_plus a : Str.isDigit a = true -> differs "+" a = true.
Proof. by_cases_on_char a. Qed.

Lemma identChar_differs_dot a : Semver.isIdentChar a = true -> differs "." a = true.
Proof. by_cases_on_char a. Qed.





























(** ** Increments *)














(** ** Derived versions *)


Lemma dropDigits_length s :
  String.length (Semver.dropDigits s) <= String.length s.
Proof.
  induction s as [|a s IH]; cbn [Semver.dropDigits String.length]; [lia|].
  destruct (Str.isDigit a); cbn [String.length]; lia.
Qed.

Lemma dropDigits_nondigit s :
  Str.allChars Str.isDigit s = false ->
  exists c rest, Semver.dropDigits s = String c rest.
Proof.
  induction s as [|a s IH]; cbn [Str.allChars Semver.dropDigits]; [discriminate|].
  destruct (Str.isDigit a); cbn [andb]; [exact IH|eauto].
Qed.

(** [inc] takes every identifier that [wfPreid] admits. *)
Lemma wfPreid_accepted preid release :
  wfPreid preid = true -> Semver.incThrows release preid = false.
Proof.
  unfold wfPreid, Semver.incThrows.
  destruct (Semver.truthyIdentifier preid) as [id|];
    [|intros _; apply andb_false_r].
  intros [Hwf Hlen]%andb_prop. cbn [wfIdentifier] in Hwf.
  apply andb_prop in Hwf as [[Hne Hchars]%andb_prop Hnd].
  apply negb_true_iff in Hnd. apply Nat.leb_le in Hlen.
  assert (Hvalid : Semver.validPreid id = true).
  { unfold Semver.validPreid.
    rewrite (splitOn_none "." id)
      by (eapply allChars_impl; [apply identChar_differs_dot|exact Hchars]).
    cbn [forallb]. rewrite andb_true_r.
    unfold Semver.validPrereleaseIdentifier. rewrite Hne, Hchars. cbn [andb].
    destruct (dropDigits_nondigit id Hnd) as (c & rest & E).
    pose proof (dropDigits_length id) as Hle. rewrite E in *.
    cbn [String.length] in Hle.
    apply andb_true_intro. split; apply Nat.leb_le; lia. }
  rewrite Hvalid. apply andb_false_r.
Qed.



(** ** A prerelease under conventional commits *)





(** ** The topological order *)

Lemma nameIn_spec n l :
  Topo.nameIn n l = true <-> exists p, In p l /\ name p = n.
Proof.
  unfold Topo.nameIn. rewrite existsb_exists. split.
  - intros (p & Hp & E). apply String.eqb_eq in E. eauto.
  - intros (p & Hp & E). exists p. split; [exact Hp|]. apply String.eqb_eq, E.
Qed.

Lemma nameIn_perm n l l' :
  Permutation l l' -> Topo.nameIn n l = Topo.nameIn n l'.
Proof.
  intros HP. apply eq_true_iff_eq. rewrite !nameIn_spec.
  split; intros (p & Hp & E); exists p; split; try exact E.
  - eapply Permutation_in; eauto.
  - eapply Permutation_in; [symmetry|]; eauto.
Qed.

Lemma pick_spec {A : Type} (q : A -> bool) l y r :
  Topo.pick q l = Some (y, r) ->
  q y = true /\ exists l1 l2, l = l1 ++ y :: l2 /\ r = l1 ++ l2.
Proof.
  revert y r. induction l as [|x l IH]; simpl; intros y r H; [discriminate|].
  destruct (q x) eqn:Hx.
  - injection H as <- <-. split; [exact Hx|]. exists [], l. auto.
  - destruct (Topo.pick q l) as [[y' r']|]; [|discriminate].
    injection H as <- <-. destruct (IH _ _ eq_refl) as (Hy & l1 & l2 & -> & ->).
    split; [exact Hy|]. exists (x :: l1), l2. auto.
Qed.

Lemma pick_some {A : Type} (q : A -> bool) l x :
  In x l -> q x = true -> exists y r, Topo.pick q l = Some (y, r).
Proof.
  induction l as [|z l IH]; simpl; intros Hin Hx; [contradiction|].
  destruct (q z) eqn:Hz; [eauto|].
  destruct Hin as [->|Hin]; [congruence|].
  destruct (IH Hin Hx) as (y & r & ->). eauto.
Qed.

Lemma emit_perm fuel edges l : Permutation (Topo.emit fuel edges l) l.
Proof.
  revert l. induction fuel as [|fuel IH]; intros l; simpl; [reflexivity|].
  destruct (Topo.pick _ l) as [[p rest]|] eqn:Hp; [|reflexivity].
  apply pick_spec in Hp as (_ & l1 & l2 & -> & ->).
  rewrite IH. apply Permutation_middle.
Qed.

Lemma sortProjects_perm graph l :
  Permutation (sortProjectsTopologically graph l) l.
Proof. apply emit_perm. Qed.

Lemma sortedProjects_nameIn options n :
  Topo.nameIn n (sortedProjects options) = Topo.nameIn n (projects options).
Proof.
  unfold sortedProjects. destruct (isNever options); [reflexivity|].
  apply nameIn_perm, sortProjects_perm.
Qed.

Lemma least_rank (rank : string -> nat) (l : list ProjectGraphProjectNode) :
  l <> [] ->
  exists m, In m l /\ forall x, In x l -> rank (name m) <= rank (name x).
Proof.
  induction l as [|a l IH]; [congruence|]. intros _.
  destruct l as [|b l].
  - exists a. split; [left; reflexivity|]. intros x [<-|[]]. lia.
  - destruct IH as (m & Hm & Hmin); [discriminate|].
    destruct (le_lt_dec (rank (name a)) (rank (name m))) as [Hle|Hlt].
    + exists a. split; [left; reflexivity|].
      intros x [<-|Hx]; [lia|]. specialize (Hmin x Hx). lia.
    + exists m. split; [right; exact Hm|].
      intros x [<-|Hx]; [lia|]. apply Hmin, Hx.
Qed.

Lemma ready_false_on_edge edges waiting p t :
  In (name p, t) edges -> Topo.nameIn t waiting = true ->
  Topo.ready edges waiting p = false.
Proof.
  intros He Ht. unfold Topo.ready.
  apply not_true_is_false. intros H. rewrite forallb_forall in H.
  specialize (H _ He). simpl in H. rewrite String.eqb_refl, Ht in H.
  discriminate.
Qed.

Lemma least_rank_ready rank edges waiting m :
  (forall s t, In (s, t) edges ->
     Topo.nameIn s waiting = true -> Topo.nameIn t waiting = true ->
     rank t < rank s) ->
  In m waiting ->
  (forall x, In x waiting -> rank (name m) <= rank (name x)) ->
  Topo.ready edges waiting m = true.
Proof.
  intros Hrank Hm Hmin. unfold Topo.ready. apply forallb_forall.
  intros [s t] He. simpl.
  destruct (String.eqb_spec s (name m)) as [->|_]; [|reflexivity].
  destruct (Topo.nameIn t waiting) eqn:Ht; [|reflexivity]. exfalso.
  assert (Hs : Topo.nameIn (name m) waiting = true)
    by (apply nameIn_spec; eauto).
  specialize (Hrank _ _ He Hs Ht).
  apply nameIn_spec in Ht as (x & Hx & <-). specialize (Hmin x Hx). lia.
Qed.

Lemma nameIn_app n l1 l2 :
  Topo.nameIn n (l1 ++ l2) = Topo.nameIn n l1 || Topo.nameIn n l2.
Proof. unfold Topo.nameIn. apply existsb_app. Qed.

Lemma nameIn_without n l1 p l2 :
  name p <> n ->
  Topo.nameIn n (l1 ++ l2) = Topo.nameIn n (l1 ++ p :: l2).
Proof.
  intros Hne. rewrite !nameIn_app. simpl.
  destruct (String.eqb_spec (name p) n); [contradiction|]. reflexivity.
Qed.

(** Without a cycle among the waiting projects, every edge between two of
    them has its target emitted before its source. *)
Lemma emit_order rank edges fuel :
  forall waiting,
  length waiting <= fuel ->
  (forall s t, In (s, t) edges ->
     Topo.nameIn s waiting = true -> Topo.nameIn t waiting = true ->
     rank t < rank s) ->
  forall s t, In (s, t) edges ->
    Topo.nameIn s waiting = true -> Topo.nameIn t waiting = true ->
    processedBefore t s (Topo.emit fuel edges waiting).
Proof.
  induction fuel as [|fuel IH]; intros waiting Hlen Hrank s t He Hs Ht.
  - destruct waiting; [discriminate Hs | simpl in Hlen; lia].
  - assert (Hne : waiting <> []) by (intros ->; discriminate Hs).
    destruct (least_rank rank waiting Hne) as (m & Hm & Hmin).
    destruct (pick_some (Topo.ready edges waiting) waiting m Hm
                (least_rank_ready rank edges waiting m Hrank Hm Hmin))
      as (p & rest & Hpick).
    simpl. rewrite Hpick.
    apply pick_spec in Hpick as (Hready & l1 & l2 & -> & ->).
    destruct (String.eqb_spec (name p) s) as [Eps|Nps].
    { subst s. rewrite (ready_false_on_edge _ _ _ _ He Ht) in Hready.
      discriminate. }
    rewrite <- (nameIn_without s l1 p l2 Nps) in Hs.
    destruct (String.eqb_spec (name p) t) as [Ept|Npt].
    + exists [], p, (Topo.emit fuel edges (l1 ++ l2)).
      split; [reflexivity|]. split; [exact Ept|].
      rewrite (nameIn_perm s _ _ (emit_perm fuel edges (l1 ++ l2))). exact Hs.
    + rewrite <- (nameIn_without t l1 p l2 Npt) in Ht.
      destruct (IH (l1 ++ l2)) with (s := s) (t := t)
        as (k1 & q & k2 & Hk & Hq & Hafter); try assumption.
      * rewrite length_app in *. simpl in Hlen. lia.
      * intros s' t' He' Hs' Ht'. apply Hrank; [exact He'| |].
        -- rewrite nameIn_app in *. simpl.
           destruct (Topo.nameIn s' l1); [reflexivity|].
           simpl in *. rewrite Hs'. apply orb_true_r.
        -- rewrite nameIn_app in *. simpl.
           destruct (Topo.nameIn t' l1); [reflexivity|].
           simpl in *. rewrite Ht'. apply orb_true_r.
      * exists (p :: k1), q, k2. rewrite Hk. auto.
Qed.

(** ** In-batch dependents *)

Lemma withDependencyTable_version poetry d t :
  poetryVersion (withDependencyTable poetry d t) = poetryVersion poetry.
Proof. unfold withDependencyTable. destruct (dependencyCollection d); reflexivity. Qed.

(** An update without a forced bump leaves the version of every manifest. *)
Lemma update_noForce_versions env options transitive d depName newDepVersion
    st st' :
  updateDependentProjectAndAddToVersionData env options transitive d depName
    newDepVersion noForce st = Ok st' ->
  forall path, manifestVersion (tree st') path = manifestVersion (tree st) path.
Proof.
  unfold updateDependentProjectAndAddToVersionData, bind. st_simpl.
  intros H path.
  destruct (projectNameToPackageRootMap st !! source d) as [dependentRoot|];
    [|discriminate].
  st_simpl. unfold readPyprojectToml in H.
  destruct (files (tree st) !! pyprojectTomlIn env dependentRoot)
    as [[[poetry|]]|] eqn:Hread; cbn [toolPoetry] in H;
    try (injection H as <-; reflexivity).
  assert (Hsame : forall poetry',
            poetryVersion poetry' = poetryVersion poetry ->
            manifestVersion
              (writePyprojectToml (tree st) (pyprojectTomlIn env dependentRoot)
                 (mkPyproject (Some poetry'))) path
            = manifestVersion (tree st) path).
  { intros poetry' Hv. unfold manifestVersion. st_simpl.
    destruct (decide (pyprojectTomlIn env dependentRoot = path)) as [<-|Hne].
    - rewrite lookup_insert_eq, Hread. exact Hv.
    - rewrite lookup_insert_ne by exact Hne. reflexivity. }
  destruct (groupIsMissing poetry d); [discriminate|].
  destruct (negb (truthy (poetryVersion poetry))).
  - injection H as <-. st_simpl. apply (Hsame poetry). reflexivity.
  - destruct (negb (preserveLocalDependencyProtocols options)).
    + destruct (setDependencyVersion _ _ _) as [t|]; [|discriminate].
      injection H as <-. st_simpl. apply Hsame, withDependencyTable_version.
    + injection H as <-. st_simpl. apply (Hsame poetry). reflexivity.
Qed.

Lemma updateInBatch_versions env options transitive projectName packageName
    newVersion d st st' :
  updateInBatch env options transitive projectName packageName newVersion d st
  = Ok st' ->
  forall path, manifestVersion (tree st') path = manifestVersion (tree st) path.
Proof.
  unfold updateInBatch. intros H path.
  apply update_noForce_versions with (path := path) in H. exact H.
Qed.

(** The loop over the in-batch dependents calls the update once per
    dependent, never with a forced bump, and changes neither the version
    data nor the version of any manifest. *)
Lemma inBatch_loop_effect env options transitive projectName packageName
    newVersion inBatch st st' :
  forEach (updateInBatch env options transitive projectName packageName
             newVersion) inBatch st = Ok st' ->
  updateCalls st' = updateCalls st ++ map (fun d => mkCall d noForce) inBatch
  /\ versionData st' = versionData st
  /\ forall path, manifestVersion (tree st') path = manifestVersion (tree st) path.
Proof.
  intros H. split; [|split].
  - eapply (forEach_calls _ (fun d => mkCall d noForce) (fun _ => True));
      [|exact I|exact H].
    intros x s s' _ Hx. apply updateInBatch_effect in Hx as (_ & C & _). auto.
  - eapply (forEach_preorder _ (fun s s' => versionData s' = versionData s));
      [reflexivity | intros; congruence | | exact H].
    intros x s s' _ Hx. apply updateInBatch_effect in Hx as (_ & _ & V). exact V.
  - eapply (forEach_preorder _
              (fun s s' => forall path,
                 manifestVersion (tree s') path = manifestVersion (tree s) path));
      [reflexivity | intros s1 s2 s3 H1 H2 path; rewrite H2; apply H1 | | exact H].
    intros x s s' _ Hx. eapply updateInBatch_versions, Hx.
Qed.

(** C4, for selected projects that do not depend on each other in a cycle:
    when dependents are updated the projects are processed in the order of
    [sortProjectsTopologically], a rearrangement of the selection in which
    the target of every in-batch edge comes before its source; and the loop
    over the in-batch dependents of the project being processed passes
    [forceVersionBump: false] for each, leaving their versions and the
    version data to their own turn. *)
Theorem topological_precedence_without_cycles (options : Options) :
  isNever options = false ->
  acyclicAmong (graphDependencies (projectGraph options)) (projects options) ->
  sortedProjects options
  = sortProjectsTopologically (projectGraph options) (projects options)
  /\ Permutation (sortedProjects options) (projects options)
  /\ TopologicalPrecedence options
  /\ forall env transitive projectName packageName newVersion inBatch st st',
       forEach (updateInBatch env options transitive projectName packageName
                  newVersion) inBatch st = Ok st' ->
       updateCalls st' = updateCalls st ++ map (fun d => mkCall d noForce) inBatch
       /\ versionData st' = versionData st
       /\ forall path,
            manifestVersion (tree st') path = manifestVersion (tree st) path.
Proof.
  intros Hnever [rank Hrank].
  assert (Hsorted : sortedProjects options
                    = sortProjectsTopologically (projectGraph options)
                        (projects options))
    by (unfold sortedProjects; rewrite Hnever; reflexivity).
  split; [exact Hsorted|]. split; [|split].
  - rewrite Hsorted. apply sortProjects_perm.
  - intros s t He Hs Ht. rewrite Hsorted.
    apply (emit_order rank) with (s := s) (t := t);
      [reflexivity | exact Hrank | exact He | exact Hs | exact Ht].
  - intros. eapply inBatch_loop_effect; eassumption.
Qed.

Lemma topological_precedence_without_cycles_witness :
  map name (sortedProjects chainOptions) = ["lib-a"; "app-b"]
  /\ processedBefore "lib-a" "app-b" (sortedProjects chainOptions).
Proof.
  assert (Hacyclic : acyclicAmong (graphDependencies (projectGraph chainOptions))
                       (projects chainOptions)).
  { exists chainRank. intros s t [E|[]] _ _. injection E as <- <-.
    unfold chainRank. simpl. lia. }
  destruct (topological_precedence_without_cycles chainOptions eq_refl Hacyclic)
    as (_ & _ & Hprec & _).
  split; [reflexivity|].
  apply Hprec; [left; reflexivity | reflexivity | reflexivity].
Defined.

(** Two selected projects that depend on each other cannot both come
    first. *)
Lemma mutual_edges_break_precedence :
  map name (sortedProjects cyclicOptions) = ["lib-a"; "app-b"]
  /\ ~ processedBefore "app-b" "lib-a" (sortedProjects cyclicOptions)
  /\ ~ TopologicalPrecedence cyclicOptions.
Proof.
  assert (Hnot : ~ processedBefore "app-b" "lib-a" (sortedProjects cyclicOptions)).
  { intros (l1 & p & l2 & Heq & Hp & Hafter).
    change (sortedProjects cyclicOptions) with [Scenario.libA; Scenario.appB] in Heq.
    destruct l1 as [|a [|b [|c l1]]]; simpl in Heq.
    - injection Heq as <- <-. discriminate Hp.
    - injection Heq as <- <- <-. discriminate Hafter.
    - injection Heq as _ _ Heq. discriminate Heq.
    - injection Heq as _ _ Heq. discriminate Heq. }
  split; [reflexivity|]. split; [exact Hnot|].
  intros H. apply Hnot. apply H; [left; reflexivity | reflexivity | reflexivity].
Qed.

(** ** Circular pairs *)

Lemma circular_fold_mono projectName l (acc : gset string) k :
  k ∈ acc ->
  k ∈ fold_left
        (fun acc d =>
           if String.eqb (target d) projectName then
             acc ∪ {[ pairKey (source d) (target d) ]}
                 ∪ {[ pairKey (target d) (source d) ]}
           else acc) l acc.
Proof.
  revert acc. induction l as [|d l IH]; intros acc Hk; simpl; [exact Hk|].
  apply IH. destruct (String.eqb (target d) projectName); [|exact Hk].
  apply elem_of_union_l, elem_of_union_l, Hk.
Qed.

(** Both keys of every direct dependent are in the set. *)
Lemma circular_contains projectName allDependentProjects d :
  In d allDependentProjects -> target d = projectName ->
  pairKey (source d) (target d)
    ∈ circularDependenciesOf projectName allDependentProjects
  /\ pairKey (target d) (source d)
       ∈ circularDependenciesOf projectName allDependentProjects.
Proof.
  unfold circularDependenciesOf. generalize (∅ : gset string).
  induction allDependentProjects as [|x l IH]; intros acc Hin Ht; [contradiction|].
  cbn [fold_left]. destruct Hin as [->|Hin].
  - destruct (String.eqb_spec (target d) projectName) as [_|Hne]; [|contradiction].
    split; apply circular_fold_mono.
    + apply elem_of_union_l, elem_of_union_r, elem_of_singleton. reflexivity.
    + apply elem_of_union_r, elem_of_singleton. reflexivity.
  - apply IH; assumption.
Qed.

Lemma dependentsOf_spec edges projectName d :
  In d (dependentsOf edges projectName) <-> In d edges /\ target d = projectName.
Proof.
  unfold dependentsOf. rewrite <- !list_elem_of_In, list_elem_of_filter. tauto.
Qed.

Lemma transitive_spec options edges allDependentProjects t :
  In t (transitiveDependentsOf options edges allDependentProjects) ->
  In t edges /\ exists d, In d allDependentProjects /\ target t = source d.
Proof.
  unfold transitiveDependentsOf. destruct (isAuto options); [|contradiction].
  rewrite in_flat_map. intros (d & Hd & Ht).
  apply list_elem_of_In, list_elem_of_filter in Ht as [Ht Hin].
  apply list_elem_of_In in Hin. eauto.
Qed.

Lemma forceTransitive_flagged circ t :
  pairKey (source t) (target t) ∈ circ -> forceTransitive circ t = noForce.
Proof.
  intros H. unfold forceTransitive. rewrite (bool_decide_eq_true_2 _ H).
  reflexivity.
Qed.

Lemma forcedBumpsOn_app b l1 l2 :
  forcedBumpsOn b (l1 ++ l2) = forcedBumpsOn b l1 + forcedBumpsOn b l2.
Proof. unfold forcedBumpsOn. rewrite List.filter_app, length_app. reflexivity. Qed.

Lemma forcedBumpsOn_zero b calls :
  (forall c, In c calls -> source (callDependent c) = b -> callForce c = noForce) ->
  forcedBumpsOn b calls = 0.
Proof.
  intros H. unfold forcedBumpsOn.
  induction calls as [|c calls IH]; [reflexivity|]. simpl.
  destruct (String.eqb_spec (source (callDependent c)) b) as [E|_].
  - rewrite (H c (or_introl eq_refl) E). simpl.
    apply IH. intros c' Hc'. apply H. right. exact Hc'.
  - simpl. apply IH. intros c' Hc'. apply H. right. exact Hc'.
Qed.

Lemma forcedBumpsOn_map_le b (f : LocalPackageDependency -> ForceVersionBump) l :
  forcedBumpsOn b (map (fun d => mkCall d (f d)) l)
  <= length (List.filter (fun d => String.eqb (source d) b) l).
Proof.
  unfold forcedBumpsOn. induction l as [|d l IH]; [reflexivity|]. simpl.
  destruct (String.eqb (source d) b); simpl; [destruct (isForced (f d)); simpl|];
    lia.
Qed.

Lemma filter_filter_le {A : Type} (p q : A -> bool) l :
  length (List.filter p (List.filter q l)) <= length (List.filter p l).
Proof.
  induction l as [|x l IH]; [reflexivity|]. simpl.
  destruct (q x), (p x) eqn:Hp; simpl; rewrite ?Hp; simpl; lia.
Qed.

Lemma dependentsOf_filter_le b edges projectName :
  length (List.filter (fun d => String.eqb (source d) b)
            (dependentsOf edges projectName))
  <= length (edgesBetween b projectName edges).
Proof.
  unfold dependentsOf, edgesBetween.
  induction edges as [|x l IH]; [reflexivity|].
  rewrite filter_cons. simpl.
  destruct (decide (target x = projectName)) as [E|E]; simpl;
    destruct (String.eqb (source x) b); simpl;
    destruct (String.eqb_spec (target x) projectName); try contradiction;
    simpl; lia.
Qed.

(** The calls of a propagation on the project being versioned itself are
    never forced: as a direct dependent it is in the batch, and every edge
    from it to one of its direct dependents is flagged. *)
Lemma no_forced_bump_on_self options src edges projectName c :
  Topo.nameIn projectName (projects options) = true ->
  let allDependentProjects := dependentsOf edges projectName in
  In c (propagationCalls options src
          (dependentProjectsInCurrentBatch options src allDependentProjects)
          (dependentProjectsOutsideCurrentBatch options src allDependentProjects)
          (transitiveDependentsOf options edges allDependentProjects)
          (circularDependenciesOf projectName allDependentProjects)) ->
  source (callDependent c) = projectName -> callForce c = noForce.
Proof.
  intros Hsel all Hc Hsrc. unfold propagationCalls in Hc.
  rewrite !in_app_iff in Hc. destruct Hc as [Hc|[Hc|Hc]].
  - apply in_map_iff in Hc as (d & <- & _). reflexivity.
  - destruct (isAuto options); [|contradiction].
    apply in_map_iff in Hc as (d & <- & Hd). simpl in *.
    unfold dependentProjectsOutsideCurrentBatch in Hd.
    apply filter_In in Hd as [_ Hout]. apply negb_true_iff in Hout.
    unfold forceOutsideBatch. rewrite sortedProjects_nameIn, Hsrc, Hsel.
    unfold isInCurrentBatch in Hout. fold (Topo.nameIn (source d) (projects options)) in Hout.
    rewrite Hsrc, Hsel in Hout. simpl in Hout.
    destruct (isSourceVersionPlans src); [reflexivity|discriminate].
  - apply in_map_iff in Hc as (t & <- & Ht). simpl in *.
    apply transitive_spec in Ht as (_ & d & Hd & Htd).
    apply forceTransitive_flagged. rewrite Hsrc, Htd.
    pose proof Hd as Hd'. apply dependentsOf_spec in Hd' as [_ Htarget].
    destruct (circular_contains projectName all d Hd Htarget) as [_ H2].
    rewrite Htarget in H2. exact H2.
Qed.

(** A project that depends on no direct dependent of the project being
    versioned, the project itself apart, is not forced by the transitive
    pass. *)
Lemma transitive_pass_spares_dependent options edges projectName b t :
  onlyThrough b projectName edges ->
  let allDependentProjects := dependentsOf edges projectName in
  In t (transitiveDependentsOf options edges allDependentProjects) ->
  source t = b ->
  forceTransitive (circularDependenciesOf projectName allDependentProjects) t
  = noForce.
Proof.
  intros Honly all Ht Hsrc.
  apply transitive_spec in Ht as (Hin & d & Hd & Htd).
  apply dependentsOf_spec in Hd as [Hd Hdt].
  apply forceTransitive_flagged.
  assert (Htarget : target t = projectName)
    by (apply (Honly t d); assumption).
  apply circular_contains; [|exact Htarget].
  apply dependentsOf_spec. auto.
Qed.

(** C1, as the code has it: while a project is bumped, both keys of each
    of its direct dependents are put in the circular set, and the
    transitive pass forces no bump along an edge whose key is in the set.
    So the project itself receives no forced bump in its own turn, along a
    mutual edge or any other.  A dependent [b] of the project, mutual or
    not, is forced at most once when it has at most one edge onto the
    project and depends on no other direct dependent of the project. *)
Theorem circular_pair_forced_once
    (env : Env) (options : Options) (project : ProjectGraphProjectNode)
    (st st' : State) (b : string) :
  processProject env options project st = Ok st' ->
  Topo.nameIn (name project) (projects options) = true ->
  let edges :=
    fst (resolveLocalPackageDependencies env (tree st) (sortedProjects options)
           (projectNameToPackageRootMap st) (isIndependent options)) in
  let circularDependencies :=
    circularDependenciesOf (name project) (dependentsOf edges (name project)) in
  (forall d, In d edges -> target d = name project ->
     pairKey (source d) (name project) ∈ circularDependencies
     /\ pairKey (name project) (source d) ∈ circularDependencies)
  /\ (forall t, pairKey (source t) (target t) ∈ circularDependencies ->
        forceTransitive circularDependencies t = noForce)
  /\ exists calls,
       updateCalls st' = updateCalls st ++ calls
       /\ forcedBumpsOn (name project) calls = 0
       /\ (onlyThrough b (name project) edges ->
           length (edgesBetween b (name project) edges) <= 1 ->
           forcedBumpsOn b calls <= 1).
Proof.
  intros Hrun Hsel edges circ. split; [|split].
  - intros d Hd Ht.
    destruct (circular_contains (name project) (dependentsOf edges (name project))
                d) as [H1 H2]; [apply dependentsOf_spec; auto | exact Ht |].
    rewrite Ht in H1, H2. auto.
  - intros t. apply forceTransitive_flagged.
  - apply processProject_cases in Hrun
      as (path & poetry & st3 & logs3 & logs4 & Hres & _ & Hcase).
    apply resolveProject_outcome in Hres as (O & _).
    destruct O as (Ht & _ & _ & Hr & _ & _ & Hu).
    cbn zeta in Hcase. rewrite Ht, Hr in Hcase. fold edges in Hcase.
    destruct Hcase as [[_ ->]|(spec & _ & _ & Hbump)].
    + exists []. unfold skipProject. destruct (logUnchanged options); st_simpl;
        rewrite app_nil_r; repeat split; auto; intros; unfold forcedBumpsOn;
        simpl; lia.
    + apply bumpProject_effect in Hbump as (nv & _ & _ & _ & _ & _ & Hcalls).
      st_simpl. rewrite Hu in Hcalls.
      eexists. split; [exact Hcalls|]. split.
      * apply forcedBumpsOn_zero. intros c Hc.
        eapply no_forced_bump_on_self; eassumption.
      * intros Honly Hone. unfold propagationCalls.
        rewrite !forcedBumpsOn_app.
        assert (H1 : forcedBumpsOn b
                       (map (fun d => mkCall d noForce)
                          (dependentProjectsInCurrentBatch options
                             (specifierSource st3)
                             (dependentsOf edges (name project)))) = 0).
        { apply forcedBumpsOn_zero. intros c Hc _.
          apply in_map_iff in Hc as (d & <- & _). reflexivity. }
        assert (H3 : forcedBumpsOn b
                       (map (fun d => mkCall d
                                        (forceTransitive
                                           (circularDependenciesOf (name project)
                                              (dependentsOf edges (name project)))
                                           d))
                          (transitiveDependentsOf options edges
                             (dependentsOf edges (name project)))) = 0).
        { apply forcedBumpsOn_zero. intros c Hc Hsrc.
          apply in_map_iff in Hc as (t & <- & Htr). simpl in *.
          eapply transitive_pass_spares_dependent; eassumption. }
        rewrite H1, H3, Nat.add_0_l, Nat.add_0_r. destruct (isAuto options);
          [|unfold forcedBumpsOn; simpl; lia].
        etransitivity; [apply forcedBumpsOn_map_le|].
        unfold dependentProjectsOutsideCurrentBatch.
        etransitivity; [apply filter_filter_le|].
        etransitivity; [apply dependentsOf_filter_le|]. lia.
Qed.

Lemma circular_pair_forced_once_witness :
  processProject mutualEnv diamondOptions Scenario.libA mutualStart = Ok mutualEnd
  /\ forcedBumpsOn "lib-a" (updateCalls mutualEnd) = 0
  /\ forcedBumpsOn "app-b" (updateCalls mutualEnd) <= 1
  /\ manifestVersion (tree mutualEnd) "apps/b/pyproject.toml" = Some "2.0.1".
Proof.
  assert (Hrun : processProject mutualEnv diamondOptions Scenario.libA mutualStart
                 = Ok mutualEnd) by (vm_compute; reflexivity).
  destruct (circular_pair_forced_once mutualEnv diamondOptions Scenario.libA
              mutualStart mutualEnd "app-b" Hrun eq_refl)
    as (_ & _ & calls & Hcalls & Hself & Hb).
  change (updateCalls mutualEnd = calls) in Hcalls. rewrite Hcalls.
  split; [exact Hrun|]. split; [exact Hself|]. split; [|reflexivity].
  apply Hb.
  - intros e d He Hsrc _ _ _. vm_compute in He.
    destruct He as [<-|[<-|[]]]; [reflexivity|discriminate Hsrc].
  - vm_compute. lia.
Defined.

(** With the further edges [lib-x -> lib-a] and [app-b -> lib-x], bumping
    [lib-a] forces two bumps on [app-b], which depends on it mutually:
    2.0.0 becomes 2.0.2. *)
Lemma second_path_forces_second_bump :
  In (mkDep "app-b" "lib-a" dependencies_ None) diamondEdges
  /\ In (mkDep "lib-a" "app-b" dependencies_ None) diamondEdges
  /\ processProject diamondEnv diamondOptions Scenario.libA diamondStart
     = Ok diamondEnd
  /\ forcedBumpsOn "app-b" (updateCalls diamondEnd) = 2
  /\ manifestVersion diamondTree "apps/b/pyproject.toml" = Some "2.0.0"
  /\ manifestVersion (tree diamondEnd) "apps/b/pyproject.toml" = Some "2.0.2"
  /\ ~ onlyThrough "app-b" "lib-a" diamondEdges
  /\ ~ ForcedAtMostOnce diamondEnv diamondOptions Scenario.libA diamondStart
         "app-b".
Proof.
  assert (Hrun : processProject diamondEnv diamondOptions Scenario.libA
                   diamondStart = Ok diamondEnd) by (vm_compute; reflexivity).
  split; [left; reflexivity|]. split; [do 3 right; left; reflexivity|].
  split; [exact Hrun|]. split; [reflexivity|]. split; [reflexivity|].
  split; [reflexivity|].
  split.
  { intros H.
    specialize (H (mkDep "app-b" "lib-x" dependencies_ None)
                  (mkDep "lib-x" "lib-a" dependencies_ None)).
    cbn in H. discriminate H; auto. }
  intros H. specialize (H diamondEnd (updateCalls diamondEnd) Hrun eq_refl).
  vm_compute in H. lia.
Qed.

(** ** The entry of the project being versioned *)

Lemma forEach_invariant {A S : Type} (body : A -> S -> Result S)
    (Inv : S -> Prop) (R : S -> S -> Prop) :
  (forall s, R s s) ->
  (forall s1 s2 s3, R s1 s2 -> R s2 s3 -> R s1 s3) ->
  forall l : list A,
  (forall x s s', In x l -> Inv s -> body x s = Ok s' -> Inv s' /\ R s s') ->
  forall s s', Inv s -> forEach body l s = Ok s' -> Inv s' /\ R s s'.
Proof.
  intros Hrefl Htrans l. induction l as [|x l IH]; intros Hbody s s' Hinv Hrun.
  - cbn in Hrun. injection Hrun as <-. auto.
  - apply forEach_cons in Hrun as (s1 & Hx & Hrest).
    destruct (Hbody x s s1 (or_introl eq_refl) Hinv Hx) as [Hinv1 R1].
    destruct (IH (fun y t t' Hy => Hbody y t t' (or_intror Hy)) s1 s' Hinv1 Hrest)
      as [Hinv' R'].
    split; [exact Hinv'|]. eapply Htrans; eassumption.
Qed.

(** The propagation leaves the entry of a project on which it forces no
    bump. *)
Lemma propagate_versionData env options projectName packageName newVersion
    inBatch outsideBatch transitive circ st st' k :
  propagate env options projectName packageName newVersion inBatch outsideBatch
    transitive circ st = Ok st' ->
  (forall c,
     In c (propagationCalls options (specifierSource st) inBatch outsideBatch
             transitive circ) ->
     source (callDependent c) = k -> callForce c = noForce) ->
  versionData st' !! k = versionData st !! k.
Proof.
  unfold propagate, bind, propagationCalls. intros H Hcalls.
  destruct (forEach _ inBatch st) as [st1|] eqn:H1; [|discriminate].
  destruct (if isAuto options then _ else _) as [st2|] eqn:H2; [|discriminate].
  set (Inv := fun s : State => specifierSource s = specifierSource st).
  set (R := fun s s' : State => versionData s' !! k = versionData s !! k).
  assert (Hrefl : forall s, R s s) by reflexivity.
  assert (Htrans : forall s1 s2 s3, R s1 s2 -> R s2 s3 -> R s1 s3)
    by (unfold R; intros; congruence).
  assert (L1 : Inv st1 /\ R st st1).
  { apply (forEach_invariant
             (updateInBatch env options transitive projectName packageName
                newVersion) Inv R Hrefl Htrans inBatch) with (s := st);
      [|reflexivity|exact H1].
    intros x s s' _ Hs Hx. apply updateInBatch_effect in Hx as (Rs & _ & V).
    split; [unfold Inv in *; destruct Rs as (_&_&_&_&->&_); exact Hs|].
    unfold R. rewrite V. reflexivity. }
  destruct L1 as [I1 R1].
  assert (L2 : Inv st2 /\ R st1 st2).
  { destruct (isAuto options); [|injection H2 as <-; auto].
    apply (forEach_invariant
             (updateOutsideBatch env options transitive projectName packageName
                newVersion) Inv R Hrefl Htrans outsideBatch) with (s := st1);
      [|exact I1|exact H2].
    intros x s s' Hin Hs Hx.
    apply updateOutsideBatch_effect in Hx as (Rs & _ & Hother & Hno).
    split; [unfold Inv in *; destruct Rs as (_&_&_&_&->&_); exact Hs|].
    unfold R. destruct (decide (k = source x)) as [->|Hne].
    - rewrite Hno; [reflexivity|]. rewrite Hs.
      apply (Hcalls (mkCall x (forceOutsideBatch options (specifierSource st) x)));
        [|reflexivity].
      apply in_app_iff. right. apply in_app_iff. left.
      apply in_map_iff. eauto.
    - apply Hother. exact Hne. }
  destruct L2 as [I2 R2].
  assert (L3 : Inv st' /\ R st2 st').
  { apply (forEach_invariant (updateTransitive env options transitive circ)
             Inv R Hrefl Htrans transitive) with (s := st2);
      [|exact I2|exact H].
    intros x s s' Hin Hs Hx.
    apply updateTransitive_effect in Hx as (Rs & _ & Hother & Hno).
    split; [unfold Inv in *; destruct Rs as (_&_&_&_&->&_); exact Hs|].
    unfold R. destruct (decide (k = source x)) as [->|Hne].
    - rewrite Hno; [reflexivity|].
      apply (Hcalls (mkCall x (forceTransitive circ x))); [|reflexivity].
      apply in_app_iff. right. apply in_app_iff. right.
      apply in_map_iff. eauto.
    - apply Hother. exact Hne. }
  destruct L3 as [_ R3]. unfold R in *. congruence.
Qed.

(** A turn that bumps a selected project ends with the entry of the
    project holding the version derived from its current version and the
    specifier. *)
Lemma bumped_project_entry env options project st st' spec :
  processProject env options project st = Ok st' ->
  Topo.nameIn (name project) (projects options) = true ->
  specifier st' = specString spec ->
  Str.nonEmpty spec = true ->
  exists newVersion deps,
    Nx.deriveNewSemverVersion (inTemplate (stCurrentVersion st')) spec
      (preid options) = Ok newVersion
    /\ truthy (stCurrentVersion st') = true
    /\ versionData st' !! name project
       = Some (mkEntry (stCurrentVersion st') (Some newVersion) deps).
Proof.
  intros Hrun Hsel Hspec Hne.
  apply processProject_cases in Hrun
    as (path & poetry & st3 & logs3 & logs4 & Hres & Hcur & Hcase).
  cbn zeta in Hcase.
  destruct Hcase as [[Hnull ->]|(spec' & Hs & Hne' & Hbump)].
  - exfalso. unfold skipProject in Hspec.
    destruct (logUnchanged options); st_simpl; rewrite Hspec in Hnull;
      simpl in Hnull; congruence.
  - pose proof Hbump as Heff.
    apply bumpProject_effect in Heff as (nv & Hnv & Hs' & Hsrc & Hcv & _).
    st_simpl. unfold bumpProject, bind in Hbump. st_simpl.
    rewrite Hnv in Hbump.
    destruct (propagate _ _ _ _ _ _ _ _ _ _) as [st9|] eqn:Hp; [|discriminate].
    injection Hbump as <-. st_simpl.
    apply propagate_versionData with (k := name project) in Hp.
    + st_simpl. rewrite lookup_insert_eq in Hp.
      assert (spec' = spec) by congruence. subst spec'.
      rewrite Hcv. eexists nv, _. split; [exact Hnv|].
      split; [exact Hcur|]. rewrite Hp. reflexivity.
    + st_simpl. intros c Hc. eapply no_forced_bump_on_self; eassumption.
Qed.

(** ** Monotonic versions *)








(** ** A provided specifier *)

Lemma valid_specifier_nonEmpty s :
  Nx.isValidSemverSpecifier s = true ->
  Str.nonEmpty s = true /\ Str.nonEmpty (Str.stripLeadingV s) = true.
Proof.
  destruct s as [|c [|c' r]].
  - discriminate.
  - destruct c as [[] [] [] [] [] [] [] []]; vm_compute; intros H;
      first [discriminate H | split; reflexivity].
  - intros _. split; [reflexivity|].
    destruct c as [[] [] [] [] [] [] [] []]; reflexivity.
Qed.

Lemma forEach_agree {A S : Type} (f g : A -> S -> Result S) (Inv : S -> Prop) :
  (forall x s, Inv s -> f x s = g x s) ->
  (forall x s s', Inv s -> g x s = Ok s' -> Inv s') ->
  forall l s, Inv s -> forEach f l s = forEach g l s.
Proof.
  intros Hfg Hinv l. induction l as [|x l IH]; intros s Hs; [reflexivity|].
  cbn [forEach]. rewrite (Hfg x s Hs). unfold bind.
  destruct (g x s) as [s1|e] eqn:Hx; [|reflexivity].
  apply IH. eapply Hinv; eassumption.
Qed.

(** With a specifier provided and already in place, the first phase of a
    turn resolves the current version only. *)
Lemma resolveProject_provided env options project st spec path poetry st3 logs3 :
  truthy (providedSpecifier options) = true ->
  specifier st = specString spec ->
  resolveProject env options project st = Ok (path, poetry, st3, logs3) ->
  specifier st3 = specString spec
  /\ specifierSource st3 = prompt
  /\ deleteVersionPlanCallbacks st3 = deleteVersionPlanCallbacks st.
Proof.
  intros Hprov Hspec. unfold resolveProject, bind. rewrite Hprov.
  destruct (projectNameToPackageRootMap st !! name project); [|discriminate].
  destruct (negb (Str.nonEmpty s)); [discriminate|].
  destruct (readPyprojectToml _ _) as [manifest|]; [|discriminate].
  destruct (toolPoetry manifest) as [poetry'|]; [|discriminate].
  destruct (resolveCurrentVersion _ _ _ _ _ _ _ _) as [[st1 logs1]|] eqn:H1;
    [|discriminate].
  apply resolveCurrentVersion_outcome in H1 as (_ & Hs1 & _ & Hd1).
  st_simpl. rewrite Hs1, Hspec, andb_false_r.
  intros [= <- <- <- <-]. st_simpl. repeat split; congruence.
Qed.

Lemma resolveProject_strategies env options project st spec firstCommit commits
    ask :
  truthy (providedSpecifier options) = true ->
  specifier st = specString spec ->
  resolveProject (withStrategies env firstCommit commits ask) options project st
  = resolveProject env options project st.
Proof.
  intros Hprov Hspec. unfold resolveProject, bind. rewrite Hprov.
  cbn [withStrategies pyprojectTomlIn].
  destruct (projectNameToPackageRootMap st !! name project); [|reflexivity].
  destruct (negb (Str.nonEmpty s)); [reflexivity|].
  destruct (readPyprojectToml _ _) as [manifest|]; [|reflexivity].
  destruct (toolPoetry manifest) as [poetry'|]; [|reflexivity].
  change (resolveCurrentVersion (withStrategies env firstCommit commits ask))
    with (resolveCurrentVersion env).
  destruct (resolveCurrentVersion _ _ _ _ _ _ _ _) as [[st1 logs1]|] eqn:H1;
    [|reflexivity].
  apply resolveCurrentVersion_outcome in H1 as (_ & Hs1 & _).
  st_simpl. rewrite Hs1, Hspec, andb_false_r. reflexivity.
Qed.

Lemma processProject_strategies env options project st spec firstCommit commits
    ask :
  truthy (providedSpecifier options) = true ->
  specifier st = specString spec ->
  processProject (withStrategies env firstCommit commits ask) options project st
  = processProject env options project st.
Proof.
  intros Hprov Hspec. unfold processProject.
  rewrite (resolveProject_strategies _ _ _ _ _ _ _ _ Hprov Hspec).
  reflexivity.
Qed.

(** A turn keeps a provided specifier in place. *)
Lemma processProject_keeps_specifier env options project st st' spec :
  truthy (providedSpecifier options) = true ->
  specifier st = specString spec ->
  processProject env options project st = Ok st' ->
  specifier st' = specString spec
  /\ specifierSource st' = prompt
  /\ deleteVersionPlanCallbacks st' = deleteVersionPlanCallbacks st.
Proof.
  intros Hprov Hspec Hrun.
  apply processProject_cases in Hrun
    as (path & poetry & st3 & logs3 & logs4 & Hres & _ & Hcase).
  apply (resolveProject_provided _ _ _ _ spec) in Hres as (H1 & H2 & H3);
    [|exact Hprov|exact Hspec].
  cbn zeta in Hcase. destruct Hcase as [[_ ->]|(spec' & _ & _ & Hbump)].
  - unfold skipProject. destruct (logUnchanged options); st_simpl; auto.
  - apply bumpProject_effect in Hbump as (nv & _ & E1 & E2 & _ & E3 & _).
    st_simpl. repeat split; congruence.
Qed.

(** C9: a valid [options.specifier] is, with a leading [v] dropped, the
    specifier of every turn: it is in place before the first project, no
    turn changes it, [options.specifier] being set makes every turn put the
    specifier source to prompt and pass over the resolution, each selected
    project that is processed gets the version derived from its current
    version and that specifier, and the result of the run is the same
    whatever the commit classifier, the prompt and the first commit would
    have answered. *)
Theorem provided_specifier_applies_to_every_project
    (env : Env) (options : Options) (s : string) :
  optSpecifier options = Some s ->
  Nx.isValidSemverSpecifier s = true ->
  checkSpecifier options = Ok tt
  /\ (forall tree0,
        specifier (initialState env options tree0)
        = specString (Str.stripLeadingV s))
  /\ (forall project st st',
        specifier st = specString (Str.stripLeadingV s) ->
        processProject env options project st = Ok st' ->
        specifier st' = specString (Str.stripLeadingV s)
        /\ specifierSource st' = prompt
        /\ deleteVersionPlanCallbacks st' = deleteVersionPlanCallbacks st
        /\ (Topo.nameIn (name project) (projects options) = true ->
            exists cur nv deps,
              stCurrentVersion st' = Some cur
              /\ Nx.deriveNewSemverVersion cur (Str.stripLeadingV s)
                   (preid options) = Ok nv
              /\ versionData st' !! name project
                 = Some (mkEntry (Some cur) (Some nv) deps)))
  /\ (forall tree0 st,
        runGenerator env options tree0 = Ok st ->
        specifier st = specString (Str.stripLeadingV s)
        /\ deleteVersionPlanCallbacks st = [])
  /\ (forall firstCommit commits ask tree0,
        runGenerator (withStrategies env firstCommit commits ask) options tree0
        = runGenerator env options tree0).
Proof.
  intros Hopt Hvalid.
  destruct (valid_specifier_nonEmpty s Hvalid) as [Hne Hne'].
  assert (Hprov : truthy (providedSpecifier options) = true)
    by (unfold providedSpecifier; rewrite Hopt; exact Hne').
  assert (Hinit : forall e tree0,
            specifier (initialState e options tree0)
            = specString (Str.stripLeadingV s)).
  { intros e tree0. unfold initialState. st_simpl. rewrite Hprov.
    unfold providedSpecifier. rewrite Hopt. reflexivity. }
  split; [|split; [|split; [|split]]].
  - unfold checkSpecifier. rewrite Hopt, Hne, Hvalid. reflexivity.
  - intros tree0. apply Hinit.
  - intros project st st' Hspec Hrun.
    destruct (processProject_keeps_specifier _ _ _ _ _ _ Hprov Hspec Hrun)
      as (H1 & H2 & H3).
    split; [exact H1|]. split; [exact H2|]. split; [exact H3|].
    intros Hsel.
    destruct (bumped_project_entry _ _ _ _ _ _ Hrun Hsel H1 Hne')
      as (nv & deps & Hd & Hcur & Hentry).
    destruct (stCurrentVersion st') as [cur|]; [|discriminate].
    exists cur, nv, deps. auto.
  - intros tree0 st. unfold runGenerator, bind.
    destruct (checkOptions options); [|discriminate]. intros Hrun.
    apply (forEach_invariant (processProject env options)
             (fun t => specifier t = specString (Str.stripLeadingV s))
             (fun t t' => deleteVersionPlanCallbacks t'
                          = deleteVersionPlanCallbacks t))
      with (l := sortedProjects options) (s := initialState env options tree0)
      in Hrun; [exact Hrun|reflexivity|intros; congruence| |apply Hinit].
    intros x t t' _ Ht Hx.
    destruct (processProject_keeps_specifier _ _ _ _ _ _ Hprov Ht Hx)
      as (H1 & _ & H3). auto.
  - intros firstCommit commits ask tree0. unfold runGenerator, bind.
    destruct (checkOptions options); [|reflexivity].
    change (initialState (withStrategies env firstCommit commits ask) options tree0)
      with (initialState env options tree0).
    apply (forEach_agree _ _
             (fun t => specifier t = specString (Str.stripLeadingV s)));
      [| |apply Hinit].
    + intros x t Ht. eapply processProject_strategies; eassumption.
    + intros x t t' Ht Hx.
      apply (processProject_keeps_specifier _ _ _ _ _ _ Hprov Ht Hx).
Qed.

Lemma provided_specifier_applies_to_every_project_witness :
  runGenerator explicitEnv explicitOptions Scenario.twoProjects = Ok explicitEnd
  /\ specifier explicitEnd = specString "1.2.3"
  /\ newVersion <$> (versionData explicitEnd !! "lib-a") = Some (Some "1.2.3")
  /\ newVersion <$> (versionData explicitEnd !! "app-b") = Some (Some "1.2.3").
Proof.
  assert (Hrun : runGenerator explicitEnv explicitOptions Scenario.twoProjects
                 = Ok explicitEnd) by (vm_compute; reflexivity).
  destruct (provided_specifier_applies_to_every_project explicitEnv
              explicitOptions "v1.2.3" eq_refl eq_refl)
    as (_ & _ & _ & Hend & _).
  destruct (Hend _ _ Hrun) as [Hspec _].
  split; [exact Hrun|]. split; [exact Hspec|]. split; reflexivity.
Defined.

(** ** The order of versions *)



Lemma numericValue_wf i :
  wfIdentifier i = true ->
  Semver.numericValue i
  = match i with Semver.INum n => Some n | Semver.IStr _ => None end.
Proof.
  destruct i as [n|s]; simpl; [reflexivity|].
  intros [_ Hnd]%andb_prop. apply negb_true_iff in Hnd. rewrite Hnd.
  rewrite andb_false_r. reflexivity.
Qed.

Lemma compareIdentifiers_antisym x y :
  wfIdentifier x = true -> wfIdentifier y = true ->
  Semver.compareIdentifiers y x = CompOpp (Semver.compareIdentifiers x y).
Proof.
  intros Hx Hy. unfold Semver.compareIdentifiers.
  rewrite (numericValue_wf x Hx), (numericValue_wf y Hy).
  destruct x, y; simpl; try reflexivity.
  - apply N.compare_antisym.
  - apply String.compare_antisym.
Qed.

Lemma compareIdentifiers_eq x y :
  wfIdentifier x = true -> wfIdentifier y = true ->
  Semver.compareIdentifiers x y = Eq -> x = y.
Proof.
  intros Hx Hy. unfold Semver.compareIdentifiers.
  rewrite (numericValue_wf x Hx), (numericValue_wf y Hy).
  destruct x, y; simpl; try discriminate.
  - intros H. apply N.compare_eq in H. congruence.
  - intros H. apply String.compare_eq_iff in H. congruence.
Qed.



Lemma strictEq_eq x y : Semver.strictEq x y = true <-> x = y.
Proof.
  destruct x, y; simpl; split; try discriminate; intros H.
  - apply N.eqb_eq in H. congruence.
  - injection H as ->. apply N.eqb_refl.
  - apply String.eqb_eq in H. congruence.
  - injection H as ->. apply String.eqb_refl.
Qed.

Lemma strictEq_sym x y : Semver.strictEq x y = Semver.strictEq y x.
Proof.
  destruct x, y; simpl; try reflexivity; [apply N.eqb_sym | apply String.eqb_sym].
Qed.

Lemma comparePreLoop_antisym a b :
  forallb wfIdentifier a = true -> forallb wfIdentifier b = true ->
  Semver.comparePreLoop b a = CompOpp (Semver.comparePreLoop a b).
Proof.
  revert b. induction a as [|x a IH]; intros [|y b]; simpl; try reflexivity.
  intros [Hx Ha]%andb_prop [Hy Hb]%andb_prop.
  rewrite (strictEq_sym y x). destruct (Semver.strictEq x y).
  - apply IH; assumption.
  - apply compareIdentifiers_antisym; assumption.
Qed.

Lemma comparePreLoop_eq a b :
  forallb wfIdentifier a = true -> forallb wfIdentifier b = true ->
  Semver.comparePreLoop a b = Eq -> a = b.
Proof.
  revert b. induction a as [|x a IH]; intros [|y b]; simpl; try discriminate;
    try reflexivity.
  intros [Hx Ha]%andb_prop [Hy Hb]%andb_prop.
  destruct (Semver.strictEq x y) eqn:E.
  - apply strictEq_eq in E as ->. intros H. f_equal. apply IH; assumption.
  - intros H. apply compareIdentifiers_eq in H; [|assumption..].
    apply strictEq_eq in H. congruence.
Qed.


Lemma compareMain_antisym a b :
  Semver.compareMain b a = CompOpp (Semver.compareMain a b).
Proof.
  unfold Semver.compareMain.
  rewrite (N.compare_antisym (Semver.major a) (Semver.major b)),
    (N.compare_antisym (Semver.minor a) (Semver.minor b)),
    (N.compare_antisym (Semver.patch a) (Semver.patch b)).
  destruct (N.compare (Semver.major a) (Semver.major b)),
    (N.compare (Semver.minor a) (Semver.minor b)),
    (N.compare (Semver.patch a) (Semver.patch b)); reflexivity.
Qed.

Lemma compareMain_eq_iff a b :
  Semver.compareMain a b = Eq
  <-> Semver.major a = Semver.major b /\ Semver.minor a = Semver.minor b
      /\ Semver.patch a = Semver.patch b.
Proof.
  unfold Semver.compareMain.
  destruct (N.compare_spec (Semver.major a) (Semver.major b));
    destruct (N.compare_spec (Semver.minor a) (Semver.minor b));
    destruct (N.compare_spec (Semver.patch a) (Semver.patch b));
    split; try discriminate; try (intros; repeat split; lia);
    intros (?&?&?); lia.
Qed.



Lemma comparePre_antisym a b :
  wfVersion a = true -> wfVersion b = true ->
  Semver.comparePre b a = CompOpp (Semver.comparePre a b).
Proof.
  unfold wfVersion, Semver.comparePre. intros Ha Hb.
  destruct (Semver.prerelease a) as [|x p] eqn:Ea,
    (Semver.prerelease b) as [|y q] eqn:Eb; try reflexivity.
  apply comparePreLoop_antisym; assumption.
Qed.

Lemma comparePre_eq a b :
  wfVersion a = true -> wfVersion b = true ->
  Semver.comparePre a b = Eq -> Semver.prerelease a = Semver.prerelease b.
Proof.
  unfold wfVersion, Semver.comparePre. intros Ha Hb.
  destruct (Semver.prerelease a) as [|x p] eqn:Ea,
    (Semver.prerelease b) as [|y q] eqn:Eb; try discriminate; try reflexivity.
  apply comparePreLoop_eq; assumption.
Qed.


Lemma compare_antisym a b :
  wfVersion a = true -> wfVersion b = true ->
  Semver.compare b a = CompOpp (Semver.compare a b).
Proof.
  intros Ha Hb. unfold Semver.compare. rewrite (compareMain_antisym a b).
  destruct (Semver.compareMain a b); simpl; try reflexivity.
  apply comparePre_antisym; assumption.
Qed.

Lemma compare_eq a b :
  wfVersion a = true -> wfVersion b = true ->
  Semver.compare a b = Eq -> a = b.
Proof.
  intros Ha Hb. unfold Semver.compare.
  destruct (Semver.compareMain a b) eqn:Hm; try discriminate.
  intros Hp. apply compareMain_eq_iff in Hm as (E1 & E2 & E3).
  apply comparePre_eq in Hp; [|assumption..].
  destruct a, b; simpl in *; congruence.
Qed.


(** ** The greatest bump among the plans *)



Section Outranks.

Variable v : Semver.SemVer.
Hypothesis v_wf : wfVersion v = true.







End Outranks.









(** At the greatest patch number that semver reads, the patch bump of a
    plan prints a version that [gt] refuses: resolving the plans throws. *)
Example bump_beyond_limit_throws :
  Semver.incStr "1.0.9007199254740991" "patch" None
  = Some "1.0.9007199254740992"
  /\ Semver.parse "1.0.9007199254740992" = None
  /\ specifierFromVersionPlans twoPlansOptions (Some "1.0.9007199254740991")
       "lib-a"
     = Throw TypeError.
Proof. vm_compute. repeat split; reflexivity. Qed.

(** From 1.0.0-beta.1 the bumps [patch], [minor] and [major] all lead to
    1.0.0: the plan seen first keeps its specifier. *)
Example tie_keeps_first_plan :
  reduce (pickGroupBump (Some "1.0.0-beta.1"))
    [mkPlan "a" "a" None (Some "patch"); mkPlan "b" "b" None (Some "minor");
     mkPlan "c" "c" None (Some "major")] None
  = Ok (Some "patch").
Proof. reflexivity. Qed.

(** * Further properties of the generator *)

(** ** The checks on the options *)

Lemma checkOptions_ok options :
  checkOptions options = Ok tt ->
  (forall s, optSpecifier options = Some s -> Str.nonEmpty s = true ->
     Nx.isValidSemverSpecifier s = true)
  /\ (forall p, versionPrefix options = Some p ->
        In p Nx.validReleaseVersionPrefixes).
Proof.
  unfold checkOptions, checkSpecifier, checkVersionPrefix, bind. intros H. split.
  - intros s Hs Hne. rewrite Hs, Hne in H. cbn [andb] in H.
    destruct (Nx.isValidSemverSpecifier s); [reflexivity|discriminate].
  - intros p Hp. rewrite Hp in H.
    destruct (match optSpecifier options with Some s => _ | None => _ end);
      [|discriminate].
    destruct (Str.nonEmpty p) eqn:Hne.
    + cbn [andb] in H.
      destruct (existsb (String.eqb p) Nx.validReleaseVersionPrefixes) eqn:E;
        [|discriminate].
      apply existsb_exists in E as (x & Hin & Hx).
      apply String.eqb_eq in Hx. subst x. exact Hin.
    + destruct p; [|discriminate]. cbn. auto.
Qed.

(** X1: an [options.specifier] that is neither a version nor a relative
    keyword stops the run with the error of line 62 before any project is
    read, whatever the workspace holds; so does, once the specifier has
    passed, a non-empty [options.versionPrefix] outside
    [validReleaseVersionPrefixes]; and a run that ends normally had a valid
    or empty specifier and a prefix among ["auto"], [""], ["~"], ["^"] and
    ["="]. *)
Theorem invalid_options_stop_the_run
    (env : Env) (options : Options) (tree0 : Tree) :
  (forall s, optSpecifier options = Some s -> Str.nonEmpty s = true ->
     Nx.isValidSemverSpecifier s = false ->
     runGenerator env options tree0 = Throw (InvalidSpecifierError s))
  /\ (forall p, versionPrefix options = Some p -> Str.nonEmpty p = true ->
        ~ In p Nx.validReleaseVersionPrefixes ->
        checkSpecifier options = Ok tt ->
        runGenerator env options tree0 = Throw (InvalidVersionPrefixError p))
  /\ (forall st, runGenerator env options tree0 = Ok st ->
        (forall s, optSpecifier options = Some s -> Str.nonEmpty s = true ->
           Nx.isValidSemverSpecifier s = true)
        /\ (forall p, versionPrefix options = Some p ->
              In p Nx.validReleaseVersionPrefixes)).
Proof.
  split; [|split].
  - intros s Hs Hne Hinv.
    unfold runGenerator, checkOptions, checkSpecifier, bind.
    rewrite Hs, Hne, Hinv. reflexivity.
  - intros p Hp Hne Hout Hspec.
    unfold runGenerator, checkOptions, checkVersionPrefix, bind.
    rewrite Hspec, Hp, Hne. cbn [andb].
    destruct (existsb (String.eqb p) Nx.validReleaseVersionPrefixes) eqn:E;
      [|reflexivity].
    apply existsb_exists in E as (x & Hin & Hx).
    apply String.eqb_eq in Hx. subst x. contradiction.
  - intros st H. apply checkOptions_ok.
    unfold runGenerator, bind in H.
    destruct (checkOptions options) as [[]|]; [reflexivity|discriminate].
Qed.

Lemma invalid_options_stop_the_run_witness :
  runGenerator
    (Scenario.env Scenario.bDependsOnA Scenario.roots Scenario.noTags None)
    (Scenario.options [Scenario.libA] [] (Scenario.group independent [])
       (Some "next") prompt disk updateNever)
    Scenario.twoProjects
  = Throw (InvalidSpecifierError "next").
Proof.
  destruct (invalid_options_stop_the_run
              (Scenario.env Scenario.bDependsOnA Scenario.roots Scenario.noTags
                 None)
              (Scenario.options [Scenario.libA] [] (Scenario.group independent [])
                 (Some "next") prompt disk updateNever)
              Scenario.twoProjects) as (H & _ & _).
  apply (H "next"); reflexivity.
Defined.

(** ** Package roots *)

Lemma fold_roots_lookup env custom l (m : gmap string string) n :
  fold_left
    (fun m p => <[name p := createResolvePackageRoot env custom p]> m) l m !! n
  = match find (fun p => String.eqb (name p) n) (rev l) with
    | Some q => Some (createResolvePackageRoot env custom q)
    | None => m !! n
    end.
Proof.
  induction l as [|x l IH] using rev_ind; [reflexivity|].
  rewrite fold_left_app, rev_app_distr. cbn [fold_left rev app find].
  destruct (String.eqb_spec (name x) n) as [->|Hne].
  - apply lookup_insert_eq.
  - rewrite lookup_insert_ne by exact Hne. exact IH.
Qed.

(** X2: before the first turn [projectNameToPackageRootMap] has an entry for
    every project of the loop and for no other name: the result of
    [createResolvePackageRoot] on a project of that name (the last one, were
    a name listed twice).  Without [options.packageRoot], or for a project
    whose root is [.], that is the project's own root, and [interpolate] is
    not consulted. *)
Theorem every_project_has_a_package_root (env : Env) (options : Options) :
  (forall p, In p (sortedProjects options) ->
     exists q, In q (sortedProjects options) /\ name q = name p
       /\ initialPackageRoots env options !! name p
          = Some (createResolvePackageRoot env (packageRoot options) q))
  /\ (forall n, Topo.nameIn n (sortedProjects options) = false ->
        initialPackageRoots env options !! n = None)
  /\ (forall q, truthy (packageRoot options) = false \/ root q = "." ->
        createResolvePackageRoot env (packageRoot options) q = root q).
Proof.
  split; [|split].
  - intros p Hp. unfold initialPackageRoots. rewrite fold_roots_lookup.
    destruct (find _ (rev (sortedProjects options))) as [q|] eqn:Hf.
    + apply find_some in Hf as [Hin Hq]. apply String.eqb_eq in Hq.
      exists q. rewrite <- in_rev in Hin. auto.
    + assert (Hno : String.eqb (name p) (name p) = false).
      { apply (find_none _ _ Hf p). rewrite <- in_rev. exact Hp. }
      rewrite String.eqb_refl in Hno. discriminate.
  - intros n Hn. unfold initialPackageRoots. rewrite fold_roots_lookup.
    destruct (find _ (rev (sortedProjects options))) as [q|] eqn:Hf;
      [|apply lookup_empty].
    apply find_some in Hf as [Hin Hq]. apply String.eqb_eq in Hq.
    rewrite <- in_rev in Hin.
    assert (Topo.nameIn n (sortedProjects options) = true)
      by (apply nameIn_spec; eauto).
    congruence.
  - intros q [H|H]; unfold createResolvePackageRoot.
    + rewrite H. reflexivity.
    + rewrite H. destruct (negb (truthy (packageRoot options))); reflexivity.
Qed.

Lemma every_project_has_a_package_root_witness :
  initialPackageRoots
    (Scenario.env Scenario.bDependsOnA Scenario.roots Scenario.noTags None)
    chainOptions !! "app-b" = Some "apps/b".
Proof.
  destruct (every_project_has_a_package_root
              (Scenario.env Scenario.bDependsOnA Scenario.roots Scenario.noTags
                 None) chainOptions) as (H & _ & Hroot).
  destruct (H Scenario.appB) as (q & Hq & Hname & Hlook).
  { vm_compute. auto. }
  refine (eq_trans Hlook _). rewrite Hroot by (left; reflexivity).
  vm_compute in Hq. destruct Hq as [<-|[<-|[]]]; [discriminate Hname|reflexivity].
Defined.

(** ** The colour of a project *)



Example getColor_counts_code_units :
  Str.codeUnits "é" = [233%N] /\ getColor "é" = 3 /\ Str.length "😀" = 2.
Proof. repeat split; reflexivity. Qed.


(** ** The steps of the first phase of a turn *)

Lemma resolveProject_steps env options project st path poetry st3 logs3 :
  resolveProject env options project st = Ok (path, poetry, st3, logs3) ->
  exists packageRoot manifest st1 logs1,
    projectNameToPackageRootMap st !! name project = Some packageRoot
    /\ Str.nonEmpty packageRoot = true
    /\ path = pyprojectTomlIn env packageRoot
    /\ readPyprojectToml (tree st) path = Some manifest
    /\ toolPoetry manifest = Some poetry
    /\ resolveCurrentVersion env options (name project) (poetryName poetry)
         (poetryVersion poetry) path st [LogReadingData (poetryName poetry) path]
       = Ok (st1, logs1)
    /\ let st2 :=
         if truthy (providedSpecifier options)
         then setSpecifierSource prompt st1 else st1 in
       let logs2 :=
         if truthy (providedSpecifier options)
         then logs1 ++ [LogUsingProvidedSpecifier
                          (inTemplate (providedSpecifier options))]
         else logs1 in
       (needsSpecifier options st2 = true
        /\ resolveSpecifier env options (name project) st2 logs2 = Ok (st3, logs3))
       \/ (needsSpecifier options st2 = false /\ st3 = st2 /\ logs3 = logs2).
Proof.
  unfold resolveProject, bind. intros H.
  destruct (projectNameToPackageRootMap st !! name project) as [packageRoot|]
    eqn:Hroot; [|discriminate].
  destruct (Str.nonEmpty packageRoot) eqn:Hne; [|discriminate].
  cbn [negb] in H.
  destruct (readPyprojectToml (tree st) (pyprojectTomlIn env packageRoot))
    as [manifest|] eqn:Hread; [|discriminate].
  destruct (toolPoetry manifest) as [poetry'|] eqn:Hpoetry; [|discriminate].
  destruct (resolveCurrentVersion _ _ _ _ _ _ _ _) as [[st1 logs1]|] eqn:H1;
    [|discriminate].
  assert (E : (if truthy (providedSpecifier options)
               then (setSpecifierSource prompt st1,
                     logs1 ++ [LogUsingProvidedSpecifier
                                 (inTemplate (providedSpecifier options))])
               else (st1, logs1))
              = (if truthy (providedSpecifier options)
                 then setSpecifierSource prompt st1 else st1,
                 if truthy (providedSpecifier options)
                 then logs1 ++ [LogUsingProvidedSpecifier
                                  (inTemplate (providedSpecifier options))]
                 else logs1))
    by (destruct (truthy (providedSpecifier options)); reflexivity).
  rewrite E in H. clear E.
  set (st2 := if truthy (providedSpecifier options)
              then setSpecifierSource prompt st1 else st1) in *.
  set (logs2 := if truthy (providedSpecifier options) then _ else logs1) in *.
  assert (Hcase :
            (needsSpecifier options st2 = true
             /\ resolveSpecifier env options (name project) st2 logs2
                = Ok (st3, logs3)
             /\ poetry' = poetry /\ pyprojectTomlIn env packageRoot = path)
            \/ (needsSpecifier options st2 = false /\ st3 = st2 /\ logs3 = logs2
                /\ poetry' = poetry /\ pyprojectTomlIn env packageRoot = path)).
  { unfold needsSpecifier.
    destruct (specifier st2);
      [|destruct (isIndependent options
                  && negb (truthy (providedSpecifier options)))
       |destruct (isIndependent options
                  && negb (truthy (providedSpecifier options)))];
      try (destruct (resolveSpecifier _ _ _ _ _) as [[a b]|] eqn:H3;
           [|discriminate]);
      injection H as <- <- <- <-; auto 10. }
  exists packageRoot, manifest, st1, logs1.
  destruct Hcase as [(N & R & <- & <-)|(N & -> & -> & <- & <-)];
    (repeat (split; [solve [assumption|reflexivity]|])); cbn zeta; auto.
Qed.

(** ** The current version *)

(** X4: when the lookup of the current version fails (the registry has no
    answer, or no git tag matches) and the fallback is the disk, which
    [options.firstRelease] forces, a turn goes on with the version of the
    manifest and remembers that it came from the fallback; without the
    fallback the turn throws the error of line 223 or of line 273. *)
Theorem failed_lookup_falls_back_to_disk
    (env : Env) (options : Options) (projectName packageName : string)
    (fromDisk : option string) (path : string) (st : State)
    (logs : list LogMsg) :
  negb (truthy (stCurrentVersion st)) || isIndependent options = true ->
  (firstRelease options = true -> fallbackIsDisk options = true)
  /\ (currentVersionResolver options = registry ->
      pipIndexVersions env packageName = None ->
      if fallbackIsDisk options then
        resolveCurrentVersion env options projectName packageName fromDisk path
          st logs
        = Ok (setCurrentVersion fromDisk true (latestMatchingGitTag st) st,
              logs ++ [LogRegistryFallbackToDisk fromDisk])
      else
        resolveCurrentVersion env options projectName packageName fromDisk path
          st logs
        = Throw RegistryUnresolvedError)
  /\ (currentVersionResolver options = gitTag ->
      getLatestGitTagForPattern env (releaseTagPattern (releaseGroup options))
        projectName = None ->
      if fallbackIsDisk options then
        resolveCurrentVersion env options projectName packageName fromDisk path
          st logs
        = Ok (setCurrentVersion fromDisk true None st,
              logs ++ [LogGitTagFallbackToDisk
                         (releaseTagPattern (releaseGroup options)) fromDisk])
      else
        resolveCurrentVersion env options projectName packageName fromDisk path
          st logs
        = Throw (NoMatchingGitTagError
                   (releaseTagPattern (releaseGroup options)) projectName)).
Proof.
  intros Hlook. split; [|split].
  - intros H. unfold fallbackIsDisk. rewrite H. reflexivity.
  - intros Hres Hnone. unfold resolveCurrentVersion.
    rewrite Hres, Hlook, Hnone. destruct (fallbackIsDisk options); reflexivity.
  - intros Hres Hnone. unfold resolveCurrentVersion.
    rewrite Hres, Hlook. cbn zeta. rewrite Hnone.
    destruct (fallbackIsDisk options); reflexivity.
Qed.

Lemma failed_lookup_falls_back_to_disk_witness :
  resolveCurrentVersion planEnv firstReleaseOptions "lib-a" "lib-a"
    (Some "1.0.0") "libs/a/pyproject.toml"
    (initialState planEnv firstReleaseOptions Scenario.twoProjects) []
  = Ok (setCurrentVersion (Some "1.0.0") true None
          (initialState planEnv firstReleaseOptions Scenario.twoProjects),
        [LogGitTagFallbackToDisk "v{version}" (Some "1.0.0")]).
Proof.
  destruct (failed_lookup_falls_back_to_disk planEnv firstReleaseOptions
              "lib-a" "lib-a" (Some "1.0.0") "libs/a/pyproject.toml"
              (initialState planEnv firstReleaseOptions Scenario.twoProjects) []
              eq_refl) as (_ & _ & H).
  exact (H eq_refl eq_refl).
Defined.

(** In a group that is not independent, once a current version is known the
    registry and the git tags are not looked up again. *)
Lemma resolveCurrentVersion_shared env options projectName packageName fromDisk
    path st logs st' logs' :
  isIndependent options = false ->
  currentVersionResolver options = registry
  \/ currentVersionResolver options = gitTag ->
  truthy (stCurrentVersion st) = true ->
  resolveCurrentVersion env options projectName packageName fromDisk path st logs
  = Ok (st', logs') ->
  st' = st.
Proof.
  intros Hfixed Hres Hcur. unfold resolveCurrentVersion.
  destruct Hres as [-> | ->]; rewrite Hcur, Hfixed; cbn [negb orb];
    intros H; repeat case_match; simplify_eq; reflexivity.
Qed.

Lemma skipProject_fields options projectName packageName logs st :
  stCurrentVersion (skipProject options projectName packageName logs st)
  = stCurrentVersion st
  /\ specifier (skipProject options projectName packageName logs st)
     = specifier st
  /\ specifierSource (skipProject options projectName packageName logs st)
     = specifierSource st
  /\ deleteVersionPlanCallbacks
       (skipProject options projectName packageName logs st)
     = deleteVersionPlanCallbacks st
  /\ versionData (skipProject options projectName packageName logs st)
     = versionData st
  /\ poetryLocks (skipProject options projectName packageName logs st)
     = poetryLocks st
  /\ tree (skipProject options projectName packageName logs st) = tree st
  /\ updateCalls (skipProject options projectName packageName logs st)
     = updateCalls st.
Proof.
  unfold skipProject. destruct (logUnchanged options); repeat split.
Qed.

(** What a turn does to the fields of the resolution, after its first
    phase. *)
Lemma processProject_after_resolution env options project st st' :
  processProject env options project st = Ok st' ->
  exists path poetry st3 logs3,
    resolveProject env options project st = Ok (path, poetry, st3, logs3)
    /\ truthy (stCurrentVersion st3) = true
    /\ stCurrentVersion st' = stCurrentVersion st3
    /\ specifier st' = specifier st3
    /\ specifierSource st' = specifierSource st3
    /\ deleteVersionPlanCallbacks st' = deleteVersionPlanCallbacks st3.
Proof.
  intros Hrun.
  apply processProject_cases in Hrun
    as (path & poetry & st3 & logs3 & logs4 & Hres & Hcur & Hcase).
  exists path, poetry, st3, logs3. split; [exact Hres|]. split; [exact Hcur|].
  cbn zeta in Hcase. destruct Hcase as [[_ ->]|(spec & _ & _ & Hbump)].
  - destruct (skipProject_fields options (name project) (poetryName poetry)
                logs4
                (recordProject options (name project)
                   (dependentsOf
                      (fst (resolveLocalPackageDependencies env (tree st3)
                              (sortedProjects options)
                              (projectNameToPackageRootMap st3)
                              (isIndependent options))) (name project))
                   (dependentProjectsInCurrentBatch options
                      (specifierSource st3)
                      (dependentsOf
                         (fst (resolveLocalPackageDependencies env (tree st3)
                                 (sortedProjects options)
                                 (projectNameToPackageRootMap st3)
                                 (isIndependent options))) (name project)))
                   (snd (resolveLocalPackageDependencies env (tree st3)
                           (sortedProjects options)
                           (projectNameToPackageRootMap st3)
                           (isIndependent options))) st3))
      as (-> & -> & -> & -> & _).
    st_simpl. auto.
  - apply bumpProject_effect in Hbump as (nv & _ & E1 & E2 & E3 & E4 & _).
    st_simpl. auto.
Qed.

(** The entry that a turn leaves for its project. *)
Lemma processed_project_entry env options project st st' :
  processProject env options project st = Ok st' ->
  Topo.nameIn (name project) (projects options) = true ->
  exists nv deps,
    versionData st' !! name project
    = Some (mkEntry (stCurrentVersion st') nv deps).
Proof.
  intros Hrun Hsel. pose proof Hrun as Hc.
  apply processProject_cases in Hc
    as (path & poetry & st3 & logs3 & logs4 & Hres & Hcur & Hcase).
  cbn zeta in Hcase. destruct Hcase as [[_ ->]|(spec & Hs & Hne & Hbump)].
  - unfold skipProject. destruct (logUnchanged options); st_simpl;
      rewrite lookup_insert_eq; unfold initialEntry; eauto.
  - apply bumpProject_effect in Hbump as (_ & _ & E & _). st_simpl.
    rewrite Hs in E.
    destruct (bumped_project_entry _ _ _ _ _ _ Hrun Hsel E Hne)
      as (nv & deps & _ & _ & E'). eauto.
Qed.

(** X5: in a release group that is not independent, with the current
    version taken from the registry or from git tags, a turn that starts
    with a current version already resolved leaves it as it is, without
    another lookup, and the entry of its project carries that version: the
    projects of the group are all versioned from the version resolved for
    the first of them. *)
Theorem fixed_group_shares_current_version
    (env : Env) (options : Options) (project : ProjectGraphProjectNode)
    (st st' : State) :
  isIndependent options = false ->
  currentVersionResolver options = registry
  \/ currentVersionResolver options = gitTag ->
  truthy (stCurrentVersion st) = true ->
  Topo.nameIn (name project) (projects options) = true ->
  processProject env options project st = Ok st' ->
  stCurrentVersion st' = stCurrentVersion st
  /\ currentVersionResolvedFromFallback st'
     = currentVersionResolvedFromFallback st
  /\ latestMatchingGitTag st' = latestMatchingGitTag st
  /\ exists nv deps,
       versionData st' !! name project
       = Some (mkEntry (stCurrentVersion st) nv deps).
Proof.
  intros Hfixed Hres Hcur Hsel Hrun.
  assert (Hkeep : stCurrentVersion st' = stCurrentVersion st
                  /\ currentVersionResolvedFromFallback st'
                     = currentVersionResolvedFromFallback st
                  /\ latestMatchingGitTag st' = latestMatchingGitTag st).
  { pose proof Hrun as Hc.
    apply processProject_cases in Hc
      as (path & poetry & st3 & logs3 & logs4 & Hp & _ & Hcase).
    apply resolveProject_steps in Hp
      as (packageRoot & manifest & st1 & logs1 & _ & _ & _ & _ & _ & H1 & H3).
    apply resolveCurrentVersion_shared in H1; [|assumption..]. subst st1.
    cbn zeta in H3.
    assert (E3 : stCurrentVersion st3 = stCurrentVersion st
                 /\ currentVersionResolvedFromFallback st3
                    = currentVersionResolvedFromFallback st
                 /\ latestMatchingGitTag st3 = latestMatchingGitTag st).
    { destruct H3 as [[_ H3]|(_ & -> & _)].
      - unfold resolveSpecifier, bind in H3.
        destruct (truthy (providedSpecifier options));
          repeat case_match; simplify_eq; st_simpl; auto.
      - destruct (truthy (providedSpecifier options)); st_simpl; auto. }
    cbn zeta in Hcase. destruct Hcase as [[_ ->]|(spec & _ & _ & Hbump)].
    - unfold skipProject. destruct (logUnchanged options); st_simpl; exact E3.
    - unfold bumpProject, bind in Hbump.
      destruct (Nx.deriveNewSemverVersion _ _ _) as [nv|]; [|discriminate].
      destruct (propagate _ _ _ _ _ _ _ _ _ _) as [st9|] eqn:Hprop;
        [|discriminate].
      injection Hbump as <-. apply propagate_effect in Hprop as (R & _).
      destruct R as (R1 & R2 & R3 & _). st_simpl.
      destruct E3 as (? & ? & ?). repeat split; congruence. }
  destruct Hkeep as (K1 & K2 & K3). repeat split; try assumption.
  destruct (processed_project_entry _ _ _ _ _ Hrun Hsel) as (nv & deps & E).
  rewrite K1 in E. eauto.
Qed.

Lemma fixed_group_shares_current_version_witness :
  processProject planEnv firstReleaseOptions Scenario.appB firstReleaseMid
  = Ok firstReleaseEnd
  /\ manifestVersion (tree firstReleaseMid) "apps/b/pyproject.toml"
     = Some "2.0.0"
  /\ stCurrentVersion firstReleaseEnd = Some "1.0.0"
  /\ versionData firstReleaseEnd !! "app-b"
     = Some (mkEntry (Some "1.0.0") (Some "1.0.1") []).
Proof.
  assert (Hrun : processProject planEnv firstReleaseOptions Scenario.appB
                   firstReleaseMid = Ok firstReleaseEnd)
    by (vm_compute; reflexivity).
  destruct (fixed_group_shares_current_version planEnv firstReleaseOptions
              Scenario.appB firstReleaseMid firstReleaseEnd eq_refl
              (or_intror eq_refl) eq_refl eq_refl Hrun) as (Hcur & _ & _ & _).
  split; [exact Hrun|]. split; [reflexivity|]. split; [exact Hcur|].
  reflexivity.
Defined.

(** ** Strategies that cannot work *)

Lemma providedSpecifier_falsy options :
  truthy (optSpecifier options) = false ->
  truthy (providedSpecifier options) = false.
Proof.
  unfold providedSpecifier. destruct (optSpecifier options) as [s|]; [|auto].
  cbn [truthy]. destruct s; [reflexivity|discriminate].
Qed.

(** The first phase of the first turn of a run without a provided
    specifier ends in [resolveSpecifier], under the configured source. *)
Lemma first_turn_resolves_specifier env options tree0 project path poetry st3
    logs3 :
  truthy (optSpecifier options) = false ->
  resolveProject env options project (initialState env options tree0)
  = Ok (path, poetry, st3, logs3) ->
  exists st2 logs2,
    specifierSource st2 = optSpecifierSource options
    /\ resolveSpecifier env options (name project) st2 logs2 = Ok (st3, logs3).
Proof.
  intros Hnone Hres. apply providedSpecifier_falsy in Hnone.
  apply resolveProject_steps in Hres
    as (packageRoot & manifest & st1 & logs1 & _ & _ & _ & _ & _ & H1 & H3).
  apply resolveCurrentVersion_outcome in H1 as (_ & Hs & Hsrc & _).
  rewrite Hnone in H3. cbn zeta in H3.
  unfold needsSpecifier in H3. rewrite Hs in H3.
  unfold initialState in H3, Hsrc. st_simpl. rewrite Hnone in H3.
  destruct H3 as [[_ H3]|[H3 _]]; [|discriminate].
  exists st1, logs1. split; [exact Hsrc|exact H3].
Qed.

(** X6: a run over at least one project that has to resolve the specifier
    itself never ends normally when the strategy cannot work: conventional
    commits with a current version resolver other than git-tag, version
    plans in a release group without [versionPlans], or a specifier source
    that is none of the three. *)
Theorem unworkable_strategy_throws
    (env : Env) (options : Options) (tree0 : Tree) :
  truthy (optSpecifier options) = false ->
  sortedProjects options <> [] ->
  (optSpecifierSource options = conventionalCommits
   /\ currentVersionResolver options <> gitTag)
  \/ (optSpecifierSource options = versionPlansSource
      /\ versionPlans (releaseGroup options) = false)
  \/ (exists s, optSpecifierSource options = otherSpecifierSource s) ->
  exists e, runGenerator env options tree0 = Throw e.
Proof.
  intros Hnone Hsome Hbad.
  destruct (runGenerator env options tree0) as [st|e] eqn:Hrun; [|eauto].
  exfalso. unfold runGenerator, bind in Hrun.
  destruct (checkOptions options); [|discriminate].
  destruct (sortedProjects options) as [|project rest]; [congruence|].
  apply forEach_cons in Hrun as (st1 & Hturn & _).
  apply processProject_cases in Hturn
    as (path & poetry & st3 & logs3 & logs4 & Hres & _).
  apply first_turn_resolves_specifier in Hres as (st2 & logs2 & Hsrc & H);
    [|exact Hnone].
  unfold resolveSpecifier in H. rewrite Hsrc in H.
  destruct Hbad as [[E Hres]|[[E Hplans]|[s E]]]; rewrite E in H.
  - destruct (currentVersionResolver options); try discriminate. congruence.
  - rewrite Hplans in H. discriminate.
  - discriminate.
Qed.

Lemma unworkable_strategy_throws_witness :
  runGenerator planEnv commitsFromDiskOptions Scenario.twoProjects
  = Throw ConventionalCommitsResolverError.
Proof.
  destruct (unworkable_strategy_throws planEnv commitsFromDiskOptions
              Scenario.twoProjects eq_refl) as [e He].
  - discriminate.
  - left. split; [reflexivity|discriminate].
  - rewrite He. f_equal. vm_compute in He. congruence.
Defined.

(** ** The preid *)

(** X7: under conventional commits, when the commits classify as a bump
    and [options.preid] is set, the specifier of the project always starts
    with [pre]: [prerelease] on a current version that is a prerelease,
    otherwise the classified level with [pre] put in front unless it has it
    already. *)
Theorem preid_makes_a_prerelease_specifier
    (env : Env) (options : Options) (projectName : string) (st : State)
    (logs : list LogMsg) (ref level : string) :
  specifierSource st = conventionalCommits ->
  currentVersionResolver options = gitTag ->
  previousVersionRef env options st = Some ref ->
  Str.nonEmpty ref = true ->
  resolveSemverSpecifierFromConventionalCommits env ref
    (affectedProjects options projectName) = Some level ->
  Str.nonEmpty level = true ->
  truthy (preid options) = true ->
  exists spec logs',
    resolveSpecifier env options projectName st logs
    = Ok (setSpecifier (specString spec) st, logs')
    /\ Str.startsWith "pre" spec = true
    /\ spec = (if isPrerelease (stCurrentVersion st) then "prerelease"
               else if Str.startsWith "pre" level then level
               else "pre" +:+ level).
Proof.
  intros Hsrc Hres Href Hne Hlevel Hl Hpreid.
  unfold resolveSpecifier. rewrite Hsrc, Hres, Href, Hne, Hlevel.
  cbn [truthy negb inTemplate specOfOption]. rewrite Hl, Hpreid.
  cbn [negb andb].
  destruct (isPrerelease (stCurrentVersion st)).
  - eexists _, _. split; [reflexivity|]. split; reflexivity.
  - destruct (Str.startsWith "pre" level) eqn:Hpre; cbn [negb].
    + eexists _, _. split; [reflexivity|]. split; [exact Hpre|reflexivity].
    + eexists _, _. split; [reflexivity|]. split; [|reflexivity].
      rewrite !append_cons, append_nil. clear.
      destruct level; reflexivity.
Qed.

Lemma preid_makes_a_prerelease_specifier_witness :
  (exists logs',
     resolveSpecifier minorCommitsEnv betaOptions "lib-a" onRelease []
     = Ok (setSpecifier (specString "preminor") onRelease, logs'))
  /\ Nx.deriveNewSemverVersion "1.0.0" "preminor" (Some "beta")
     = Ok "1.1.0-beta.0".
Proof.
  destruct (preid_makes_a_prerelease_specifier minorCommitsEnv betaOptions
              "lib-a" onRelease [] "v1.0.0" "minor" eq_refl eq_refl eq_refl
              eq_refl eq_refl eq_refl eq_refl) as (spec & logs' & Hrun & _ & E).
  split; [|reflexivity].
  exists logs'. rewrite Hrun. repeat f_equal. exact E.
Defined.

(** ** One specifier for a group *)

(** X8: in a release group that is not independent the specifier is
    resolved once: a turn that starts with a specifier already resolved
    (a string, or null for no change) keeps it and schedules no deletion of
    version plans; and when that specifier is null or empty the turn writes
    nothing and records its project with no new version. *)
Theorem fixed_group_resolves_specifier_once
    (env : Env) (options : Options) (project : ProjectGraphProjectNode)
    (st st' : State) :
  isIndependent options = false ->
  specifier st <> specUndefined ->
  processProject env options project st = Ok st' ->
  specifier st' = specifier st
  /\ deleteVersionPlanCallbacks st' = deleteVersionPlanCallbacks st
  /\ (specTruthy (specifier st) = false ->
      tree st' = tree st
      /\ exists deps,
           versionData st' !! name project
           = Some (mkEntry (stCurrentVersion st') None deps)).
Proof.
  intros Hfixed Hset Hrun. pose proof Hrun as Hc.
  apply processProject_cases in Hc
    as (path & poetry & st3 & logs3 & logs4 & Hres & _ & Hcase).
  pose proof Hres as Hout. apply resolveProject_outcome in Hout as (Hout & _).
  apply resolveProject_steps in Hres
    as (packageRoot & manifest & st1 & logs1 & _ & _ & _ & _ & _ & H1 & H3).
  apply resolveCurrentVersion_outcome in H1 as (_ & Hs1 & _ & Hd1).
  cbn zeta in H3.
  assert (Hno : needsSpecifier options
                  (if truthy (providedSpecifier options)
                   then setSpecifierSource prompt st1 else st1) = false).
  { unfold needsSpecifier.
    destruct (truthy (providedSpecifier options)); st_simpl; rewrite Hs1;
      rewrite Hfixed; destruct (specifier st); first [congruence|reflexivity]. }
  destruct H3 as [[H3 _]|(_ & H3 & _)]; [congruence|].
  assert (E3 : specifier st3 = specifier st
               /\ deleteVersionPlanCallbacks st3
                  = deleteVersionPlanCallbacks st).
  { subst st3. destruct (truthy (providedSpecifier options)); st_simpl; auto. }
  destruct E3 as [E3 D3]. cbn zeta in Hcase.
  destruct Hcase as [[Hskip ->]|(spec & Hs & Hne & Hbump)].
  - unfold skipProject. destruct (logUnchanged options); st_simpl;
      (split; [exact E3|]); (split; [exact D3|]); intros _;
      (split; [apply Hout|]); rewrite lookup_insert_eq;
      unfold initialEntry; eauto.
  - apply bumpProject_effect in Hbump as (nv & _ & B1 & _ & _ & B2 & _).
    st_simpl. split; [congruence|]. split; [congruence|].
    intros Hfalsy. rewrite <- E3, Hs in Hfalsy. cbn [specTruthy] in Hfalsy.
    congruence.
Qed.

Lemma fixed_group_resolves_specifier_once_witness :
  processProject quietEnv quietGroupOptions Scenario.appB quietGroupMid
  = Ok quietGroupEnd
  /\ specifier quietGroupMid = specNull
  /\ specifier quietGroupEnd = specNull
  /\ tree quietGroupEnd = tree quietGroupMid
  /\ versionData quietGroupEnd !! "app-b"
     = Some (mkEntry (Some "1.0.0") None []).
Proof.
  assert (Hrun : processProject quietEnv quietGroupOptions Scenario.appB
                   quietGroupMid = Ok quietGroupEnd)
    by (vm_compute; reflexivity).
  destruct (fixed_group_resolves_specifier_once quietEnv quietGroupOptions
              Scenario.appB quietGroupMid quietGroupEnd eq_refl)
    as (Hspec & _ & Hnull); [discriminate|exact Hrun|].
  destruct (Hnull eq_refl) as [Htree _].
  split; [exact Hrun|]. split; [reflexivity|]. split; [exact Hspec|].
  split; [exact Htree|reflexivity].
Defined.

(** ** Version plans scheduled for deletion *)

Lemma turn_schedules_deletions env options project st st' :
  specifierSource st = versionPlansSource ->
  truthy (providedSpecifier options) = false ->
  processProject env options project st = Ok st' ->
  specifierSource st' = versionPlansSource
  /\ specifier st' <> specUndefined
  /\ deleteVersionPlanCallbacks st'
     = deleteVersionPlanCallbacks st
       ++ (if needsSpecifier options st && deleteVersionPlans options
           then resolvedVersionPlans (releaseGroup options) else []).
Proof.
  intros Hsrc Hnone Hrun.
  apply processProject_after_resolution in Hrun
    as (path & poetry & st3 & logs3 & Hres & _ & _ & -> & -> & ->).
  apply resolveProject_steps in Hres
    as (packageRoot & manifest & st1 & logs1 & _ & _ & _ & _ & _ & H1 & H3).
  apply resolveCurrentVersion_outcome in H1 as (_ & Hs1 & Hsrc1 & Hd1).
  rewrite Hnone in H3. cbn zeta in H3.
  assert (Hneeds : needsSpecifier options st1 = needsSpecifier options st)
    by (unfold needsSpecifier; rewrite Hs1; reflexivity).
  rewrite Hneeds in H3. destruct H3 as [[Hn H3]|(Hn & -> & _)]; rewrite Hn.
  - unfold resolveSpecifier, bind in H3. rewrite Hsrc1, Hsrc in H3.
    cbn [andb].
    destruct (negb (versionPlans (releaseGroup options))); [discriminate|].
    destruct (specifierFromVersionPlans _ _ _) as [resolved|]; [|discriminate].
    destruct (deleteVersionPlans options);
      destruct (truthy resolved) eqn:Ht; cbn [negb] in H3;
      [destruct resolved as [r|]; [|discriminate Ht]
      |destruct (negb (isNever options) && hasDependencyBumps st1 (name project))
      |destruct resolved as [r|]; [|discriminate Ht]
      |destruct (negb (isNever options) && hasDependencyBumps st1 (name project))];
      injection H3 as <- <-; st_simpl; rewrite ?app_nil_r;
      (split; [congruence|]); (split; [discriminate|]); congruence.
  - cbn [andb]. rewrite app_nil_r. split; [congruence|]. split; [|exact Hd1].
    unfold needsSpecifier in Hn. rewrite Hs1.
    destruct (specifier st); [discriminate|discriminate..].
Qed.

Lemma independent_loop_deletions env options l :
  isIndependent options = true ->
  truthy (providedSpecifier options) = false ->
  deleteVersionPlans options = true ->
  forall s s',
  specifierSource s = versionPlansSource ->
  forEach (processProject env options) l s = Ok s' ->
  deleteVersionPlanCallbacks s'
  = deleteVersionPlanCallbacks s
    ++ concat (repeat (resolvedVersionPlans (releaseGroup options)) (length l)).
Proof.
  intros Hind Hnone Hdel. induction l as [|x l IH]; intros s s' Hsrc Hrun.
  - injection Hrun as <-. cbn. rewrite app_nil_r. reflexivity.
  - apply forEach_cons in Hrun as (s1 & Hx & Hrest).
    apply turn_schedules_deletions in Hx as (Hsrc1 & _ & Hd); try assumption.
    rewrite (IH _ _ Hsrc1 Hrest), Hd.
    assert (Hn : needsSpecifier options s = true).
    { unfold needsSpecifier. rewrite Hind, Hnone. destruct (specifier s); auto. }
    rewrite Hn, Hdel. cbn [andb length repeat concat].
    rewrite <- app_assoc. reflexivity.
Qed.

Lemma resolved_loop_deletions env options l :
  isIndependent options = false ->
  truthy (providedSpecifier options) = false ->
  forall s s',
  specifierSource s = versionPlansSource ->
  specifier s <> specUndefined ->
  forEach (processProject env options) l s = Ok s' ->
  deleteVersionPlanCallbacks s' = deleteVersionPlanCallbacks s.
Proof.
  intros Hfixed Hnone. induction l as [|x l IH]; intros s s' Hsrc Hset Hrun.
  - injection Hrun as <-. reflexivity.
  - apply forEach_cons in Hrun as (s1 & Hx & Hrest).
    apply turn_schedules_deletions in Hx as (Hsrc1 & Hset1 & Hd);
      try assumption.
    rewrite (IH _ _ Hsrc1 Hset1 Hrest), Hd.
    assert (Hn : needsSpecifier options s = false).
    { unfold needsSpecifier. rewrite Hfixed.
      destruct (specifier s); [congruence|reflexivity..]. }
    rewrite Hn. cbn [andb]. apply app_nil_r.
Qed.

(** X9: with the specifier taken from version plans and
    [deleteVersionPlans] set, every turn that resolves a specifier schedules
    the deletion of every resolved plan once more.  A run that ends
    normally has therefore scheduled the whole list once per project of the
    loop in an independent group, and once in all otherwise; the callback
    of a real run, on a host where every command succeeds, removes and
    reports the plan files that often. *)
Theorem version_plans_scheduled_per_resolution
    (env : Env) (options : Options) (tree0 callbackTree : Tree) (st : State)
    (host : Host) :
  optSpecifierSource options = versionPlansSource ->
  truthy (optSpecifier options) = false ->
  deleteVersionPlans options = true ->
  runGenerator env options tree0 = Ok st ->
  Accepts host ->
  deleteVersionPlanCallbacks st
  = concat (repeat (resolvedVersionPlans (releaseGroup options))
              (planResolutions options))
  /\ exists lists,
       snd (callback env host st callbackTree false) = Ok lists
       /\ deletedFiles lists
          = concat (repeat (map relativePath
                              (resolvedVersionPlans (releaseGroup options)))
                      (planResolutions options)).
Proof.
  intros Hsrc Hnone Hdel Hrun Haccepts.
  assert (Hprov := providedSpecifier_falsy _ Hnone).
  assert (Hlist : deleteVersionPlanCallbacks st
                  = concat (repeat (resolvedVersionPlans (releaseGroup options))
                              (planResolutions options))).
  { unfold runGenerator, bind in Hrun.
    destruct (checkOptions options); [|discriminate].
    unfold planResolutions.
    destruct (isIndependent options) eqn:Hind.
    - apply independent_loop_deletions in Hrun; assumption.
    - destruct (sortedProjects options) as [|x l].
      + injection Hrun as <-. reflexivity.
      + apply forEach_cons in Hrun as (s1 & Hx & Hrest).
        apply turn_schedules_deletions in Hx as (Hsrc1 & Hset1 & Hd);
          try assumption.
        apply resolved_loop_deletions in Hrest; try assumption.
        rewrite Hrest, Hd. unfold needsSpecifier, initialState. st_simpl.
        rewrite Hprov, Hdel. cbn. rewrite app_nil_r. reflexivity. }
  split; [exact Hlist|].
  exists (realRunLists env st callbackTree).
  destruct (callback_real_run env host st callbackTree) as [_ Hreal].
  rewrite (perform_accepted _ _ _ Haccepts) in Hreal. cbn [snd] in Hreal.
  split; [exact Hreal|].
  unfold realRunLists. cbn [deletedFiles]. rewrite Hlist.
  generalize (planResolutions options) as n. intros n.
  induction n as [|n IH]; [reflexivity|].
  cbn [repeat concat]. rewrite map_app, IH. reflexivity.
Qed.

Lemma version_plans_scheduled_per_resolution_witness :
  runGenerator planEnv bothPlanOptions Scenario.twoProjects = Ok bothPlanEnd
  /\ exists lists,
       snd (callback planEnv acceptingHost bothPlanEnd Scenario.twoProjects false)
       = Ok lists
       /\ deletedFiles lists
          = [".nx/version-plans/both.md"; ".nx/version-plans/both.md"].
Proof.
  assert (Hrun : runGenerator planEnv bothPlanOptions Scenario.twoProjects
                 = Ok bothPlanEnd) by (vm_compute; reflexivity).
  assert (Haccepts : Accepts acceptingHost) by (split; reflexivity).
  destruct (version_plans_scheduled_per_resolution planEnv bothPlanOptions
              Scenario.twoProjects Scenario.twoProjects bothPlanEnd
              acceptingHost eq_refl eq_refl eq_refl Hrun Haccepts)
    as (_ & lists & Hreal & Hdeleted).
  split; [exact Hrun|]. exists lists. split; [exact Hreal|].
  rewrite Hdeleted. reflexivity.
Defined.

(** ** The keys of the circular pairs *)

Lemma pairKey_inj a b c d :
  colonFree a = true -> colonFree c = true ->
  pairKey a b = pairKey c d -> a = c /\ b = d.
Proof.
  unfold pairKey, colonFree. revert c.
  induction a as [|x a IH]; intros [|y c] Ha Hc H.
  - rewrite !append_nil, !append_cons, !append_nil in H.
    injection H as ->. auto.
  - rewrite !append_nil, !append_cons, !append_nil in H.
    injection H as <- _. cbn in Hc. discriminate.
  - rewrite !append_nil, !append_cons, !append_nil in H.
    injection H as -> _. cbn in Ha. discriminate.
  - rewrite !append_cons in H. injection H as -> H.
    cbn [Str.allChars] in Ha, Hc.
    apply andb_true_iff in Ha as [_ Ha]. apply andb_true_iff in Hc as [_ Hc].
    destruct (IH c Ha Hc H) as [-> ->]. auto.
Qed.

Lemma circular_fold_spec projectName l (acc : gset string) k :
  k ∈ fold_left
        (fun acc d =>
           if String.eqb (target d) projectName then
             acc ∪ {[ pairKey (source d) (target d) ]}
                 ∪ {[ pairKey (target d) (source d) ]}
           else acc) l acc
  <-> k ∈ acc
      \/ exists d, In d l /\ target d = projectName
           /\ (k = pairKey (source d) (target d)
               \/ k = pairKey (target d) (source d)).
Proof.
  revert acc. induction l as [|x l IH]; intros acc; cbn [fold_left].
  - split; [auto|]. intros [H|(d & [] & _)]. exact H.
  - rewrite IH. destruct (String.eqb_spec (target x) projectName) as [E|E].
    + rewrite !elem_of_union, !elem_of_singleton. split.
      * intros [[[H|H]|H]|(d & Hd & Ht & Hk)]; [auto|right..].
        -- exists x. split; [left; reflexivity|]. auto.
        -- exists x. split; [left; reflexivity|]. auto.
        -- exists d. split; [right; exact Hd|]. auto.
      * intros [H|(d & [<-|Hd] & Ht & [Hk|Hk])]; eauto 8.
    + split.
      * intros [H|(d & Hd & Ht & Hk)]; [auto|].
        right. exists d. split; [right; exact Hd|]. auto.
      * intros [H|(d & [<-|Hd] & Ht & Hk)]; [auto|congruence|eauto 8].
Qed.

(** X10: the transitive pass spares an edge exactly when the key
    [source:target] of the edge is the key of a direct dependent and the
    project, in one order or the other.  For project names without a colon
    that means: the edge goes from a direct dependent to the project, or
    from the project to one of its direct dependents; every other edge of
    the pass forces a patch bump on its source. *)
Theorem transitive_edge_spared_exactly
    (projectName : string) (edges : list LocalPackageDependency)
    (t : LocalPackageDependency) :
  colonFree projectName = true ->
  colonFree (source t) = true ->
  (forall d, In d edges -> colonFree (source d) = true) ->
  let circularDependencies :=
    circularDependenciesOf projectName (dependentsOf edges projectName) in
  (forceTransitive circularDependencies t = noForce
   <-> exists d, In d edges /\ target d = projectName
         /\ ((source t = source d /\ target t = projectName)
             \/ (source t = projectName /\ target t = source d)))
  /\ (forceTransitive circularDependencies t <> noForce ->
      forceTransitive circularDependencies t = force updateDependentsBump).
Proof.
  intros Hp Ht Hedges circularDependencies. split.
  - unfold forceTransitive. rewrite bool_decide_decide.
    destruct (decide (pairKey (source t) (target t) ∈ circularDependencies))
      as [Hin|Hout].
    + split; [intros _|reflexivity].
      apply circular_fold_spec in Hin as [Hin|(d & Hd & Hd' & Hk)].
      * apply elem_of_empty in Hin as [].
      * apply dependentsOf_spec in Hd as [Hd _]. exists d.
        split; [exact Hd|]. split; [exact Hd'|].
        destruct Hk as [Hk|Hk]; apply pairKey_inj in Hk as [E1 E2];
          try assumption; try (apply Hedges; exact Hd);
          try (rewrite Hd'; exact Hp); [left|right]; split; congruence.
    + split; [discriminate|]. intros (d & Hd & Hd' & Hk). exfalso. apply Hout.
      apply circular_fold_spec. right. exists d.
      split; [apply dependentsOf_spec; auto|]. split; [exact Hd'|].
      destruct Hk as [[-> ->]|[-> ->]]; rewrite Hd'; auto.
  - unfold forceTransitive.
    destruct (bool_decide _); [congruence|reflexivity].
Qed.

Lemma transitive_edge_spared_exactly_witness :
  forceTransitive
    (circularDependenciesOf "lib-a" (dependentsOf diamondEdges "lib-a"))
    (mkDep "lib-a" "app-b" dependencies_ None) = noForce
  /\ forceTransitive
       (circularDependenciesOf "lib-a" (dependentsOf diamondEdges "lib-a"))
       (mkDep "app-b" "lib-x" dependencies_ None) = force "patch".
Proof.
  destruct (transitive_edge_spared_exactly "lib-a" diamondEdges
              (mkDep "lib-a" "app-b" dependencies_ None) eq_refl eq_refl)
    as [[_ Hspared] _].
  { intros d [<-|[<-|[<-|[<-|[]]]]]; reflexivity. }
  split; [|reflexivity].
  apply Hspared. exists (mkDep "app-b" "lib-a" dependencies_ None).
  split; [left; reflexivity|]. split; [reflexivity|]. right. split; reflexivity.
Defined.

(** With a colon in the names two different pairs can have one key. *)
Example pair_keys_can_collide :
  pairKey "a" "b:c" = pairKey "a:b" "c".
Proof. reflexivity. Qed.

(** ** Dependents without propagation *)

Lemma inBatch_loop_resolution env options transitive projectName packageName
    newVersion inBatch st st' :
  forEach (updateInBatch env options transitive projectName packageName
             newVersion) inBatch st = Ok st' ->
  sameResolution st st'.
Proof.
  apply (forEach_preorder _ (fun s s' => sameResolution s s')).
  - apply sameResolution_refl.
  - intros s1 s2 s3 H1 H2. eapply sameResolution_trans; eassumption.
  - intros x s s' _ Hx. apply updateInBatch_effect in Hx as (R & _). exact R.
Qed.

(** X11: unless [updateDependents] is ["auto"], a turn updates only the
    dependents of its project that are in the current batch, and none of
    those calls forces a version bump: the version data changes for the
    project of the turn only, and no manifest other than the project's own
    gets another version. *)
Theorem without_auto_no_dependent_is_bumped
    (env : Env) (options : Options) (project : ProjectGraphProjectNode)
    (st st' : State) :
  isAuto options = false ->
  processProject env options project st = Ok st' ->
  (exists calls,
     updateCalls st' = updateCalls st ++ calls
     /\ forall c, In c calls ->
          callForce c = noForce
          /\ target (callDependent c) = name project
          /\ isInCurrentBatch options (specifierSource st') (callDependent c)
             = true)
  /\ (forall k, k <> name project ->
        versionData st' !! k = versionData st !! k)
  /\ (forall packageRoot path,
        projectNameToPackageRootMap st !! name project = Some packageRoot ->
        path <> pyprojectTomlIn env packageRoot ->
        manifestVersion (tree st') path = manifestVersion (tree st) path).
Proof.
  intros Hauto Hrun.
  apply processProject_cases in Hrun
    as (path & poetry & st3 & logs3 & logs4 & Hres & _ & Hcase).
  apply resolveProject_outcome in Hres
    as ((Htree & Hdata & _ & _ & _ & _ & Hcalls)
        & packageRoot & manifest & Hroot & -> & _).
  cbn zeta in Hcase.
  destruct (resolveLocalPackageDependencies env (tree st3)
              (sortedProjects options) (projectNameToPackageRootMap st3)
              (isIndependent options)) as [edges roots].
  cbn [fst snd] in Hcase.
  destruct Hcase as [[_ ->]|(spec & Hs & Hne & Hbump)].
  - unfold skipProject. destruct (logUnchanged options); st_simpl;
      (split; [exists []; rewrite app_nil_r; split; [exact Hcalls|intros c []]|]);
      (split; [intros k Hk; rewrite lookup_insert_ne by congruence;
               rewrite Hdata; reflexivity|]);
      intros r p _ _; rewrite Htree; reflexivity.
  - unfold bumpProject, bind in Hbump.
    destruct (Nx.deriveNewSemverVersion _ _ _) as [nv|]; [|discriminate].
    destruct (propagate _ _ _ _ _ _ _ _ _ _) as [st9|] eqn:Hprop;
      [|discriminate].
    injection Hbump as <-.
    unfold propagate, bind, transitiveDependentsOf in Hprop.
    rewrite Hauto in Hprop.
    destruct (forEach _ _ _) as [st1|] eqn:Hloop in Hprop; [|discriminate].
    cbn [forEach] in Hprop. injection Hprop as <-.
    pose proof Hloop as Hsame.
    apply inBatch_loop_resolution in Hsame as (_ & _ & _ & _ & Hsame & _).
    st_simpl.
    apply inBatch_loop_effect in Hloop as (Hc & Hv & Hm).
    st_simpl. split; [|split].
    + eexists. rewrite Hc, Hcalls. split; [reflexivity|].
      intros c Hin. apply in_map_iff in Hin as (d & <- & Hd).
      apply filter_In in Hd as [Hd Hb]. apply dependentsOf_spec in Hd as [_ Hd].
      cbn [callForce callDependent]. rewrite Hsame. auto.
    + intros k Hk. rewrite Hv. rewrite !lookup_insert_ne by congruence.
      rewrite Hdata. reflexivity.
    + intros r p Hr Hp. rewrite Hm. unfold manifestVersion. st_simpl.
      rewrite Hroot in Hr. injection Hr as <-.
      rewrite lookup_insert_ne by congruence. rewrite Htree. reflexivity.
Qed.

Lemma without_auto_no_dependent_is_bumped_witness :
  processProject planEnv batchOnlyOptions Scenario.libA
    (initialState planEnv batchOnlyOptions Scenario.twoProjects)
  = Ok batchOnlyMid
  /\ updateCalls batchOnlyMid
     = [mkCall (mkDep "app-b" "lib-a" dependencies_ None) noForce]
  /\ versionData batchOnlyMid !! "app-b" = None
  /\ manifestVersion (tree batchOnlyMid) "libs/a/pyproject.toml" = Some "1.1.0"
  /\ manifestVersion (tree batchOnlyMid) "apps/b/pyproject.toml" = Some "2.0.0".
Proof.
  assert (Hrun : processProject planEnv batchOnlyOptions Scenario.libA
                   (initialState planEnv batchOnlyOptions Scenario.twoProjects)
                 = Ok batchOnlyMid) by (vm_compute; reflexivity).
  destruct (without_auto_no_dependent_is_bumped planEnv batchOnlyOptions
              Scenario.libA _ _ eq_refl Hrun) as (_ & Hdata & Hversions).
  split; [exact Hrun|]. split; [reflexivity|].
  split; [rewrite (Hdata "app-b") by discriminate; reflexivity|].
  split; [reflexivity|].
  rewrite (Hversions "libs/a" "apps/b/pyproject.toml") by
    (reflexivity || discriminate).
  reflexivity.
Defined.

(** ** The requirement on the dependency *)

Lemma dependencyTableOf_with poetry d t :
  is_Some (dependencyTableOf poetry d) ->
  dependencyTableOf (withDependencyTable poetry d t) d = Some t.
Proof.
  unfold dependencyTableOf, withDependencyTable.
  destruct (dependencyCollection d); cbn [poetryDependencies poetryGroup];
    try reflexivity;
    (destruct (poetryGroup poetry) as [groups|]; cbn [fmap option_fmap option_map];
     [intros _; apply lookup_insert_eq | intros [x Hx]; discriminate]).
Qed.

Lemma dependencyTableOf_group poetry d table :
  dependencyTableOf poetry d = Some table -> groupIsMissing poetry d = false.
Proof.
  unfold dependencyTableOf, groupIsMissing.
  destruct (dependencyCollection d), (poetryGroup poetry);
    solve [reflexivity | discriminate].
Qed.

Lemma dependencyTableOf_withVersion poetry v d :
  dependencyTableOf (withVersion poetry v) d = dependencyTableOf poetry d.
Proof. reflexivity. Qed.

Lemma setDependencyVersion_lookup table name v t' :
  setDependencyVersion (Some table) name v = Ok t' ->
  (forall k, k <> name -> t' !! k = table !! k)
  /\ t' !! name
     = match table !! name with
       | Some (DepString _) => Some (DepString v)
       | Some (DepTable old p) =>
           if truthy old then Some (DepTable (Some v) p)
           else Some (DepTable old p)
       | None => None
       end.
Proof.
  unfold setDependencyVersion.
  destruct (table !! name) as [[old|old p]|] eqn:E; [| |discriminate].
  - intros [= <-]. split; [intros k Hk; apply lookup_insert_ne; congruence|].
    apply lookup_insert_eq.
  - destruct (truthy old); intros [= <-].
    + split; [intros k Hk; apply lookup_insert_ne; congruence|].
      apply lookup_insert_eq.
    + split; [reflexivity|exact E].
Qed.

(** X12: an update of a dependent whose manifest has a version rewrites,
    in the dependency table of the edge, the requirement on the dependency
    and nothing else: a string, or the [version] of a table that has one,
    becomes the new version behind the prefix, which is
    [options.versionPrefix] or, under ["auto"] or by default, the [^] or [~]
    the old requirement began with; a table without [version] (a
    dependency by path only) stays as it is; and with
    [preserveLocalDependencyProtocols] no requirement changes. *)
Theorem requirement_follows_the_new_version
    (env : Env) (options : Options) (transitive : list LocalPackageDependency)
    (d : LocalPackageDependency) (depName newVersion : string)
    (fb : ForceVersionBump) (st st' : State) (dependentRoot : string)
    (manifest : PyprojectToml) (poetry : Poetry) (cur : string)
    (table : gmap string DependencySpec) :
  projectNameToPackageRootMap st !! source d = Some dependentRoot ->
  readPyprojectToml (tree st) (pyprojectTomlIn env dependentRoot)
  = Some manifest ->
  toolPoetry manifest = Some poetry ->
  poetryVersion poetry = Some cur ->
  Str.nonEmpty cur = true ->
  dependencyTableOf poetry d = Some table ->
  updateDependentProjectAndAddToVersionData env options transitive d depName
    (Some newVersion) fb st = Ok st' ->
  let old :=
    extractDependencyVersion env (tree st) dependentRoot (Some table) depName in
  let prefix :=
    match versionPrefix options with
    | Some p => if String.eqb p "auto" then inferPrefix old else p
    | None => inferPrefix old
    end in
  exists poetry' table',
    readPyprojectToml (tree st') (pyprojectTomlIn env dependentRoot)
    = Some (mkPyproject (Some poetry'))
    /\ poetryName poetry' = poetryName poetry
    /\ dependencyTableOf poetry' d = Some table'
    /\ (forall k, k <> depName -> table' !! k = table !! k)
    /\ table' !! depName
       = (if preserveLocalDependencyProtocols options then table !! depName
          else match table !! depName with
               | Some (DepString _) => Some (DepString (prefix +:+ newVersion))
               | Some (DepTable v p) =>
                   if truthy v
                   then Some (DepTable (Some (prefix +:+ newVersion)) p)
                   else Some (DepTable v p)
               | None => None
               end)
    /\ (inferPrefix old = "" \/ inferPrefix old = "^" \/ inferPrefix old = "~").
Proof.
  intros Hroot Hread Hpoetry Hversion Hne Htable Hrun old prefix.
  assert (Hinfer : inferPrefix old = "" \/ inferPrefix old = "^"
                   \/ inferPrefix old = "~").
  { unfold inferPrefix. destruct old as [[|c s]|]; auto.
    destruct (Ascii.eqb_spec c "~") as [->|_]; [auto|].
    destruct (Ascii.eqb_spec c "^") as [->|_]; auto. }
  unfold updateDependentProjectAndAddToVersionData, bind in Hrun.
  st_simpl. rewrite Hroot in Hrun. st_simpl.
  rewrite Hread, Hpoetry, Hversion, Htable in Hrun. cbn [truthy] in Hrun.
  rewrite (dependencyTableOf_group _ _ _ Htable), Hne in Hrun.
  cbn [negb inTemplate] in Hrun.
  fold old in Hrun. fold prefix in Hrun.
  destruct (preserveLocalDependencyProtocols options); cbn [negb] in Hrun.
  - exists (match fb with
            | force bump =>
                withVersion poetry
                  (match Nx.deriveNewSemverVersion cur bump (preid options) with
                   | Ok v => v
                   | Throw _ => ""
                   end)
            | noForce => poetry
            end), table.
    destruct fb as [|bump].
    + injection Hrun as <-. st_simpl. unfold readPyprojectToml. st_simpl.
      rewrite lookup_insert_eq. auto 10.
    + destruct (Nx.deriveNewSemverVersion cur bump (preid options)) as [nv|];
        [|discriminate].
      injection Hrun as <-. st_simpl. unfold readPyprojectToml. st_simpl.
      rewrite lookup_insert_eq. auto 10.
  - destruct (setDependencyVersion (Some table) depName (prefix +:+ newVersion))
      as [t'|] eqn:Hset; [|discriminate].
    apply setDependencyVersion_lookup in Hset as [Hother Hdep].
    exists (match fb with
            | force bump =>
                withVersion (withDependencyTable poetry d t')
                  (match Nx.deriveNewSemverVersion cur bump (preid options) with
                   | Ok v => v
                   | Throw _ => ""
                   end)
            | noForce => withDependencyTable poetry d t'
            end), t'.
    destruct fb as [|bump].
    + injection Hrun as <-. st_simpl. unfold readPyprojectToml. st_simpl.
      rewrite lookup_insert_eq.
      split; [reflexivity|].
      split; [unfold withDependencyTable; destruct (dependencyCollection d);
              reflexivity|].
      split; [apply dependencyTableOf_with; eauto|]. auto.
    + destruct (Nx.deriveNewSemverVersion cur bump (preid options)) as [nv|];
        [|discriminate].
      injection Hrun as <-. st_simpl. unfold readPyprojectToml. st_simpl.
      rewrite lookup_insert_eq.
      split; [reflexivity|].
      split; [unfold withDependencyTable; destruct (dependencyCollection d);
              reflexivity|].
      split; [apply dependencyTableOf_with; eauto|]. auto.
Qed.

Lemma requirement_follows_the_new_version_witness :
  exists poetry',
    readPyprojectToml (tree requirementEnd) "apps/b/pyproject.toml"
    = Some (mkPyproject (Some poetry'))
    /\ poetryDependencies poetry' ≫= (.!! "lib-a")
       = Some (DepTable (Some "^1.1.0") (Some "../../libs/a"))
    /\ poetryVersion poetry' = Some "2.0.0".
Proof.
  destruct (requirement_follows_the_new_version planEnv batchOnlyOptions []
              (mkDep "app-b" "lib-a" dependencies_ None) "lib-a" "1.1.0" noForce
              (initialState planEnv batchOnlyOptions Scenario.twoProjects)
              requirementEnd "apps/b"
              (Scenario.manifest "app-b" (Some "2.0.0")
                 [("lib-a", Scenario.pathDep "^1.0.0" "../../libs/a")])
              (mkPoetry "app-b" (Some "2.0.0")
                 (Some
                    (list_to_map
                       [("lib-a", Scenario.pathDep "^1.0.0" "../../libs/a")]))
                 None)
              "2.0.0"
              (list_to_map [("lib-a", Scenario.pathDep "^1.0.0" "../../libs/a")])
              eq_refl eq_refl eq_refl eq_refl eq_refl eq_refl)
    as (poetry' & table' & Hread & _ & Htable & _ & Hdep & _).
  { vm_compute. reflexivity. }
  exists poetry'. split; [exact Hread|].
  cbn [dependencyTableOf dependencyCollection] in Htable.
  split; [rewrite Htable; exact Hdep|].
  vm_compute in Hread. injection Hread as <-. reflexivity.
Defined.

(** ** The entries of the version data *)

Lemma keepsEntries_refl st : keepsEntries st st.
Proof. intros k H. exact H. Qed.

Lemma keepsEntries_trans st1 st2 st3 :
  keepsEntries st1 st2 -> keepsEntries st2 st3 -> keepsEntries st1 st3.
Proof. intros H1 H2 k H. apply H2, H1, H. Qed.

Lemma keepsEntries_insert st st' k e :
  versionData st' = <[k := e]> (versionData st) -> keepsEntries st st'.
Proof.
  intros E k' H. rewrite E. destruct (decide (k = k')) as [->|Hne].
  - rewrite lookup_insert_eq. eauto.
  - rewrite lookup_insert_ne by exact Hne. exact H.
Qed.

Lemma keepsEntries_same st st' :
  versionData st' = versionData st -> keepsEntries st st'.
Proof. intros E k H. rewrite E. exact H. Qed.

Lemma update_keeps_entries env options transitive d depName newDepVersion fb
    st st' :
  updateDependentProjectAndAddToVersionData env options transitive d depName
    newDepVersion fb st = Ok st' ->
  keepsEntries st st'.
Proof.
  unfold updateDependentProjectAndAddToVersionData, bind. intros H.
  repeat case_match; simplify_eq;
    first [ apply keepsEntries_same; reflexivity
          | eapply keepsEntries_insert; st_simpl; reflexivity ].
Qed.

Lemma propagate_keeps_entries env options projectName packageName newVersion
    inBatch outsideBatch transitive circ st st' :
  propagate env options projectName packageName newVersion inBatch outsideBatch
    transitive circ st = Ok st' ->
  keepsEntries st st'.
Proof.
  unfold propagate, bind. intros H.
  destruct (forEach _ inBatch st) as [st1|] eqn:H1; [|discriminate].
  destruct (if isAuto options then _ else _) as [st2|] eqn:H2; [|discriminate].
  apply keepsEntries_trans with st1; [|apply keepsEntries_trans with st2].
  - revert H1. apply forEach_preorder;
      [apply keepsEntries_refl|apply keepsEntries_trans|].
    intros x s s' _ Hx. unfold updateInBatch in Hx.
    apply update_keeps_entries in Hx. exact Hx.
  - destruct (isAuto options); [|injection H2 as <-; apply keepsEntries_refl].
    revert H2. apply forEach_preorder;
      [apply keepsEntries_refl|apply keepsEntries_trans|].
    intros x s s' _ Hx. unfold updateOutsideBatch in Hx.
    apply update_keeps_entries in Hx.
    destruct (isSourceVersionPlans (specifierSource s)
              && negb (hasDependencyBumps s (source x))); exact Hx.
  - revert H. apply forEach_preorder;
      [apply keepsEntries_refl|apply keepsEntries_trans|].
    intros x s s' _ Hx. unfold updateTransitive in Hx.
    destruct (projectNameToPackageRootMap s !! target x) as [r|];
      [|discriminate].
    destruct (Str.nonEmpty r); [|discriminate].
    destruct (readPyprojectToml _ _) as [[[p|]]|]; try discriminate.
    apply update_keeps_entries in Hx. exact Hx.
Qed.

Lemma processProject_keeps_entries env options project st st' :
  processProject env options project st = Ok st' ->
  keepsEntries st st' /\ is_Some (versionData st' !! name project).
Proof.
  intros Hrun.
  apply processProject_cases in Hrun
    as (path & poetry & st3 & logs3 & logs4 & Hres & _ & Hcase).
  apply resolveProject_outcome in Hres as ((_ & Hdata & _) & _).
  cbn zeta in Hcase.
  destruct Hcase as [[_ ->]|(spec & _ & _ & Hbump)].
  - unfold skipProject. destruct (logUnchanged options); st_simpl;
      (split; [eapply keepsEntries_insert; st_simpl; rewrite Hdata; reflexivity
              |rewrite lookup_insert_eq; eauto]).
  - unfold bumpProject, bind in Hbump.
    destruct (Nx.deriveNewSemverVersion _ _ _) as [nv|]; [|discriminate].
    destruct (propagate _ _ _ _ _ _ _ _ _ _) as [st9|] eqn:Hprop;
      [|discriminate].
    injection Hbump as <-. apply propagate_keeps_entries in Hprop.
    st_simpl. split.
    + intros k Hk. apply Hprop. st_simpl.
      destruct (decide (name project = k)) as [->|Hne].
      * rewrite lookup_insert_eq. eauto.
      * rewrite !lookup_insert_ne by exact Hne. rewrite Hdata. exact Hk.
    + apply Hprop. st_simpl. rewrite lookup_insert_eq. eauto.
Qed.

(** X13: a run that ends normally has an entry in the version data for
    every project of the loop: each turn records its project, and no later
    turn or update of a dependent removes an entry. *)
Theorem every_project_of_the_loop_is_recorded
    (env : Env) (options : Options) (tree0 : Tree) (st : State) :
  runGenerator env options tree0 = Ok st ->
  forall p, In p (sortedProjects options) ->
    is_Some (versionData st !! name p).
Proof.
  unfold runGenerator, bind. destruct (checkOptions options); [|discriminate].
  generalize (initialState env options tree0) as s.
  induction (sortedProjects options) as [|x l IH]; intros s Hrun p Hp;
    [destruct Hp|].
  apply forEach_cons in Hrun as (s1 & Hx & Hrest).
  destruct Hp as [<-|Hp]; [|exact (IH _ Hrest p Hp)].
  apply processProject_keeps_entries in Hx as [_ Hx].
  assert (Hkeep : keepsEntries s1 st).
  { revert Hrest. apply forEach_preorder;
      [apply keepsEntries_refl|apply keepsEntries_trans|].
    intros y s2 s3 _ Hy. apply processProject_keeps_entries in Hy as [Hy _].
    exact Hy. }
  apply Hkeep, Hx.
Qed.

Lemma every_project_of_the_loop_is_recorded_witness :
  is_Some (versionData bothPlanEnd !! "lib-a")
  /\ is_Some (versionData bothPlanEnd !! "app-b").
Proof.
  assert (Hrun : runGenerator planEnv bothPlanOptions Scenario.twoProjects
                 = Ok bothPlanEnd) by (vm_compute; reflexivity).
  pose proof (every_project_of_the_loop_is_recorded planEnv bothPlanOptions
                Scenario.twoProjects bothPlanEnd Hrun) as H.
  split.
  - apply (H Scenario.libA). left. reflexivity.
  - apply (H Scenario.appB). right. left. reflexivity.
Defined.

(** ** The directories to lock *)

Lemma forEach_appends {A B : Type} (body : A -> State -> Result State)
    (proj : State -> list B) (item : A -> B) (Inv : State -> Prop) :
  (forall x s s', Inv s -> body x s = Ok s' ->
     Inv s' /\ proj s' = proj s ++ [item x]) ->
  forall l s s', Inv s -> forEach body l s = Ok s' ->
     Inv s' /\ proj s' = proj s ++ map item l.
Proof.
  intros Hbody l. induction l as [|x l IH]; intros s s' Hs Hrun.
  - injection Hrun as <-. rewrite app_nil_r. auto.
  - apply forEach_cons in Hrun as (s1 & Hx & Hrest).
    destruct (Hbody _ _ _ Hs Hx) as [H1 E1].
    destruct (IH _ _ H1 Hrest) as [H2 E2].
    split; [exact H2|]. rewrite E2, E1, <- app_assoc. reflexivity.
Qed.

Lemma update_locks env options transitive d depName newDepVersion fb st st' :
  updateDependentProjectAndAddToVersionData env options transitive d depName
    newDepVersion fb st = Ok st' ->
  projectNameToPackageRootMap st' = projectNameToPackageRootMap st
  /\ poetryLocks st'
     = poetryLocks st ++ [lockDirOf env (projectNameToPackageRootMap st) d].
Proof.
  intros H. pose proof H as He.
  apply update_effect in He as ((_ & _ & _ & _ & _ & _ & Hroots & _) & _).
  split; [exact Hroots|].
  unfold updateDependentProjectAndAddToVersionData, bind in H.
  unfold lockDirOf. st_simpl.
  destruct (projectNameToPackageRootMap st !! source d) as [r|];
    [|discriminate].
  cbn [default from_option id]. st_simpl.
  repeat case_match; simplify_eq; st_simpl; reflexivity.
Qed.

Lemma propagate_locks env options projectName packageName newVersion
    inBatch outsideBatch transitive circ st st' :
  propagate env options projectName packageName newVersion inBatch outsideBatch
    transitive circ st = Ok st' ->
  projectNameToPackageRootMap st' = projectNameToPackageRootMap st
  /\ poetryLocks st'
     = poetryLocks st
       ++ map (fun c => lockDirOf env (projectNameToPackageRootMap st)
                          (callDependent c))
            (propagationCalls options (specifierSource st) inBatch outsideBatch
               transitive circ).
Proof.
  unfold propagate, bind, propagationCalls. intros H.
  destruct (forEach _ inBatch st) as [st1|] eqn:H1; [|discriminate].
  destruct (if isAuto options then _ else _) as [st2|] eqn:H2; [|discriminate].
  set (roots := projectNameToPackageRootMap st).
  pose (Inv := fun s => projectNameToPackageRootMap s = roots).
  destruct (forEach_appends
              (updateInBatch env options transitive projectName packageName
                 newVersion) poetryLocks (lockDirOf env roots) Inv)
    with (l := inBatch) (s := st) (s' := st1) as [I1 L1];
    [|reflexivity|exact H1|].
  { intros x s s' Hs Hx. unfold updateInBatch in Hx.
    apply update_locks in Hx as [R L]. st_simpl.
    unfold Inv in *. rewrite R, L, Hs. auto. }
  assert (I2L2 : Inv st2 /\ poetryLocks st2 = poetryLocks st1 ++
            (if isAuto options then map (lockDirOf env roots) outsideBatch
             else [])).
  { destruct (isAuto options).
    - apply (forEach_appends
               (updateOutsideBatch env options transitive projectName
                  packageName newVersion) poetryLocks (lockDirOf env roots) Inv)
        with (l := outsideBatch) (s := st1); [|exact I1|exact H2].
      intros x s s' Hs Hx. unfold updateOutsideBatch in Hx.
      apply update_locks in Hx as [R L]. unfold Inv in *.
      destruct (isSourceVersionPlans (specifierSource s)
                && negb (hasDependencyBumps s (source x)));
        st_simpl; rewrite R, L, Hs; auto.
    - injection H2 as <-. rewrite app_nil_r. auto. }
  destruct I2L2 as [I2 L2].
  destruct (forEach_appends (updateTransitive env options transitive circ)
              poetryLocks (lockDirOf env roots) Inv)
    with (l := transitive) (s := st2) (s' := st') as [I3 L3];
    [|exact I2|exact H|].
  { intros x s s' Hs Hx. unfold updateTransitive in Hx.
    destruct (projectNameToPackageRootMap s !! target x) as [r|];
      [|discriminate].
    destruct (Str.nonEmpty r); [|discriminate].
    destruct (readPyprojectToml _ _) as [[[p|]]|]; try discriminate.
    apply update_locks in Hx as [R L]. unfold Inv in *.
    rewrite R, L, Hs. auto. }
  split; [exact I3|]. rewrite L3, L2, L1, !map_app, !map_map.
  cbn [callDependent]. rewrite <- !app_assoc.
  destruct (isAuto options); [rewrite map_map|]; reflexivity.
Qed.

(** X14: [poetryLocks] gains nothing in a turn that skips its project, and
    otherwise the directory of the project's manifest followed by one
    directory for every call that updates a dependent, in the order of the
    calls and with repetitions: a dependent that is updated twice is on the
    list twice. *)
Theorem one_lock_per_bump_and_update
    (env : Env) (options : Options) (project : ProjectGraphProjectNode)
    (st st' : State) (packageRoot : string) :
  processProject env options project st = Ok st' ->
  projectNameToPackageRootMap st !! name project = Some packageRoot ->
  exists calls,
    updateCalls st' = updateCalls st ++ calls
    /\ poetryLocks st'
       = poetryLocks st
         ++ (if specTruthy (specifier st') then
               dirname env (pyprojectTomlIn env packageRoot)
               :: map (fun c =>
                         lockDirOf env (projectNameToPackageRootMap st')
                           (callDependent c)) calls
             else []).
Proof.
  intros Hrun Hroot.
  apply processProject_cases in Hrun
    as (path & poetry & st3 & logs3 & logs4 & Hres & _ & Hcase).
  apply resolveProject_outcome in Hres
    as ((_ & _ & _ & _ & Hlocks & _ & Hcalls)
        & packageRoot' & manifest & Hroot' & -> & _).
  rewrite Hroot in Hroot'. injection Hroot' as <-.
  cbn zeta in Hcase.
  destruct Hcase as [[Hskip ->]|(spec & Hs & Hne & Hbump)].
  - exists []. unfold skipProject.
    destruct (logUnchanged options); st_simpl; rewrite Hskip, !app_nil_r; auto.
  - pose proof Hbump as He.
    apply bumpProject_effect in He as (_ & _ & Hspec & _ & _ & _ & Hc).
    st_simpl. rewrite Hspec, Hs. cbn [specTruthy]. rewrite Hne.
    eexists. split; [rewrite Hc, Hcalls; reflexivity|].
    unfold bumpProject, bind in Hbump.
    destruct (Nx.deriveNewSemverVersion _ _ _) as [nv|]; [|discriminate].
    destruct (propagate _ _ _ _ _ _ _ _ _ _) as [st9|] eqn:Hprop;
      [|discriminate].
    injection Hbump as <-. apply propagate_locks in Hprop as [R L].
    st_simpl. rewrite L, R, Hlocks, <- app_assoc. reflexivity.
Qed.

Lemma one_lock_per_bump_and_update_witness :
  processProject diamondEnv diamondOptions Scenario.libA diamondStart
  = Ok diamondEnd
  /\ poetryLocks diamondEnd = ["libs/a"; "apps/b"; "libs/x"; "libs/a"; "apps/b"].
Proof.
  assert (Hrun : processProject diamondEnv diamondOptions Scenario.libA
                   diamondStart = Ok diamondEnd) by (vm_compute; reflexivity).
  destruct (one_lock_per_bump_and_update diamondEnv diamondOptions
              Scenario.libA diamondStart diamondEnd "libs/a" Hrun eq_refl)
    as (calls & Hcalls & Hlocks).
  split; [exact Hrun|].
  assert (E : calls = updateCalls diamondEnd).
  { change (updateCalls diamondStart) with (@nil UpdateCall) in Hcalls.
    symmetry. exact Hcalls. }
  rewrite Hlocks, E. reflexivity.
Defined.

(** ** Dependents marked for their own turn *)

Lemma marksGrow_refl st : marksGrow st st.
Proof. intros b S H. exists S. split; [exact H|set_solver]. Qed.

Lemma marksGrow_trans st1 st2 st3 :
  marksGrow st1 st2 -> marksGrow st2 st3 -> marksGrow st1 st3.
Proof.
  intros H1 H2 b S H. destruct (H1 _ _ H) as (S1 & E1 & I1).
  destruct (H2 _ _ E1) as (S2 & E2 & I2). exists S2. split; [exact E2|].
  set_solver.
Qed.

Lemma marksGrow_same st st' :
  projectToDependencyBumps st' = projectToDependencyBumps st -> marksGrow st st'.
Proof. intros E b S H. rewrite E. exists S. split; [exact H|set_solver]. Qed.

Lemma markedWith_grows st st' b p :
  marksGrow st st' -> markedWith st b p -> markedWith st' b p.
Proof.
  intros Hg (S & E & Hin). destruct (Hg _ _ E) as (S' & E' & Hsub).
  exists S'. split; [exact E'|]. set_solver.
Qed.

Lemma addDependencyBump_marks dependent projectName st :
  marksGrow st (addDependencyBump dependent projectName st)
  /\ markedWith (addDependencyBump dependent projectName st) dependent
       projectName.
Proof.
  unfold marksGrow, markedWith, addDependencyBump. st_simpl.
  destruct (projectToDependencyBumps st !! dependent) as [S0|] eqn:E; split.
  - intros b S H. destruct (decide (dependent = b)) as [->|Hne].
    + rewrite lookup_insert_eq. rewrite E in H. injection H as <-.
      eexists. split; [reflexivity|set_solver].
    + rewrite lookup_insert_ne by exact Hne. exists S. split; [exact H|set_solver].
  - rewrite lookup_insert_eq. eexists. split; [reflexivity|set_solver].
  - intros b S H. destruct (decide (dependent = b)) as [->|Hne].
    + congruence.
    + rewrite lookup_insert_ne by exact Hne. exists S. split; [exact H|set_solver].
  - rewrite lookup_insert_eq. eexists. split; [reflexivity|set_solver].
Qed.

Lemma updateInBatch_marks env options transitive projectName packageName
    newVersion d st st' :
  updateInBatch env options transitive projectName packageName newVersion d st
  = Ok st' ->
  marksGrow st st' /\ markedWith st' (source d) projectName.
Proof.
  unfold updateInBatch. intros H. apply update_effect in H as (_ & E & _).
  destruct (addDependencyBump_marks (source d) projectName st) as [G M].
  split.
  - eapply marksGrow_trans; [exact G|]. apply marksGrow_same. exact E.
  - eapply markedWith_grows; [|exact M]. apply marksGrow_same. exact E.
Qed.

Lemma updateOutsideBatch_marks env options transitive projectName packageName
    newVersion d st st' :
  updateOutsideBatch env options transitive projectName packageName newVersion
    d st = Ok st' ->
  marksGrow st st'
  /\ (isSourceVersionPlans (specifierSource st) = true ->
      hasDependencyBumps st' (source d) = true).
Proof.
  unfold updateOutsideBatch. intros H.
  apply update_effect in H as (_ & E & _).
  unfold hasDependencyBumps in *.
  destruct (isSourceVersionPlans (specifierSource st)); cbn [andb] in E.
  - destruct (projectToDependencyBumps st !! source d) as [S0|] eqn:E0;
      cbn [negb] in E; st_simpl.
    + split; [apply marksGrow_same; exact E|]. rewrite E, E0. reflexivity.
    + split.
      * intros b S Hb. rewrite E.
        destruct (decide (source d = b)) as [<-|Hne]; [congruence|].
        rewrite lookup_insert_ne by exact Hne. exists S.
        split; [exact Hb|set_solver].
      * intros _. rewrite E, lookup_insert_eq. reflexivity.
  - split; [apply marksGrow_same; exact E|discriminate].
Qed.

Lemma updateTransitive_marks env options transitive circ d st st' :
  updateTransitive env options transitive circ d st = Ok st' ->
  marksGrow st st'.
Proof.
  unfold updateTransitive. intros Hx.
  destruct (projectNameToPackageRootMap st !! target d) as [r|];
    [|discriminate].
  destruct (Str.nonEmpty r); [|discriminate].
  destruct (readPyprojectToml _ _) as [[[p|]]|]; try discriminate.
  apply update_effect in Hx as (_ & E & _). apply marksGrow_same. exact E.
Qed.

Lemma hasDependencyBumps_grows st st' b :
  marksGrow st st' -> hasDependencyBumps st b = true ->
  hasDependencyBumps st' b = true.
Proof.
  unfold hasDependencyBumps. intros Hg H.
  destruct (projectToDependencyBumps st !! b) as [S|] eqn:E; [|discriminate].
  destruct (Hg _ _ E) as (S' & -> & _). reflexivity.
Qed.

Lemma markedWith_has st b p :
  markedWith st b p -> hasDependencyBumps st b = true.
Proof. intros (S & E & _). unfold hasDependencyBumps. rewrite E. reflexivity. Qed.

Lemma inBatch_loop_marks env options transitive projectName packageName
    newVersion inBatch :
  forall st st',
  forEach (updateInBatch env options transitive projectName packageName
             newVersion) inBatch st = Ok st' ->
  marksGrow st st'
  /\ forall d, In d inBatch -> markedWith st' (source d) projectName.
Proof.
  induction inBatch as [|x l IH]; intros st st' Hrun.
  - injection Hrun as <-. split; [apply marksGrow_refl|intros d []].
  - apply forEach_cons in Hrun as (s1 & Hx & Hrest).
    apply updateInBatch_marks in Hx as [G1 M1].
    destruct (IH _ _ Hrest) as [G2 M2].
    split; [eapply marksGrow_trans; eassumption|].
    intros d [<-|Hd]; [|apply M2, Hd].
    eapply markedWith_grows; eassumption.
Qed.

Lemma outside_loop_marks env options transitive projectName packageName
    newVersion outsideBatch :
  forall st st',
  forEach (updateOutsideBatch env options transitive projectName packageName
             newVersion) outsideBatch st = Ok st' ->
  marksGrow st st'
  /\ (isSourceVersionPlans (specifierSource st) = true ->
      forall d, In d outsideBatch -> hasDependencyBumps st' (source d) = true).
Proof.
  induction outsideBatch as [|x l IH]; intros st st' Hrun.
  - injection Hrun as <-. split; [apply marksGrow_refl|intros _ d []].
  - apply forEach_cons in Hrun as (s1 & Hx & Hrest).
    pose proof Hx as Hsrc.
    apply updateOutsideBatch_effect in Hsrc as ((_ & _ & _ & _ & Hsrc & _) & _).
    apply updateOutsideBatch_marks in Hx as [G1 M1].
    destruct (IH _ _ Hrest) as [G2 M2]. rewrite Hsrc in M2.
    split; [eapply marksGrow_trans; eassumption|].
    intros Hplans d [<-|Hd]; [|apply M2; assumption].
    eapply hasDependencyBumps_grows; [exact G2|]. apply M1, Hplans.
Qed.

Lemma transitive_loop_marks env options transitive circ l st st' :
  forEach (updateTransitive env options transitive circ) l st = Ok st' ->
  marksGrow st st'.
Proof.
  apply forEach_preorder; [apply marksGrow_refl|apply marksGrow_trans|].
  intros x s s' _ Hx. eapply updateTransitive_marks, Hx.
Qed.

(** X15: a turn that bumps its project marks the dependents that have
    their own turn: every dependent in the current batch has the project
    in its set of [projectToDependencyBumps], whatever [updateDependents]
    is; and under ["auto"] with version plans every dependent outside the
    batch has a set as well (the set it had, or the project alone).  That
    mark is what later makes the dependent fall back to a patch release. *)
Theorem bumped_project_marks_its_dependents
    (env : Env) (options : Options) (project : ProjectGraphProjectNode)
    (st st' : State) :
  processProject env options project st = Ok st' ->
  specTruthy (specifier st') = true ->
  let edges :=
    fst (resolveLocalPackageDependencies env (tree st) (sortedProjects options)
           (projectNameToPackageRootMap st) (isIndependent options)) in
  forall d, In d edges -> target d = name project ->
    (isInCurrentBatch options (specifierSource st') d = true ->
     markedWith st' (source d) (name project))
    /\ (isAuto options = true ->
        specifierSource st' = versionPlansSource ->
        hasDependencyBumps st' (source d) = true).
Proof.
  intros Hrun Htruthy edges d Hd Htarget.
  apply processProject_cases in Hrun
    as (path & poetry & st3 & logs3 & logs4 & Hres & _ & Hcase).
  apply resolveProject_outcome in Hres as ((Htree & _ & _ & Hroots & _) & _).
  cbn zeta in Hcase. rewrite Htree, Hroots in Hcase. fold edges in Hcase.
  destruct Hcase as [[Hskip ->]|(spec & Hs & Hne & Hbump)].
  { unfold skipProject in Htruthy.
    destruct (logUnchanged options); st_simpl; congruence. }
  pose proof Hbump as He.
  apply bumpProject_effect in He as (_ & _ & _ & Hsrc & _).
  st_simpl. rewrite Hsrc.
  unfold bumpProject, bind in Hbump.
  destruct (Nx.deriveNewSemverVersion _ _ _) as [nv|]; [|discriminate].
  destruct (propagate _ _ _ _ _ _ _ _ _ _) as [st9|] eqn:Hprop; [|discriminate].
  injection Hbump as <-. st_simpl.
  unfold propagate, bind in Hprop.
  destruct (forEach _ _ _) as [s1|] eqn:H1 in Hprop; [|discriminate].
  destruct (if isAuto options then _ else _) as [s2|] eqn:H2 in Hprop;
    [|discriminate].
  pose proof H1 as Hsrc1.
  apply inBatch_loop_resolution in Hsrc1 as (_ & _ & _ & _ & Hsrc1 & _).
  st_simpl.
  apply inBatch_loop_marks in H1 as [G1 M1].
  apply transitive_loop_marks in Hprop.
  assert (Hall : In d (dependentsOf edges (name project)))
    by (apply dependentsOf_spec; auto).
  split.
  - intros Hin.
    assert (G2 : marksGrow s1 s2).
    { destruct (isAuto options); [|injection H2 as <-; apply marksGrow_refl].
      apply outside_loop_marks in H2 as [G2 _]. exact G2. }
    eapply markedWith_grows; [exact Hprop|].
    eapply markedWith_grows; [exact G2|].
    apply M1. apply filter_In. auto.
  - intros Hauto Hplans. rewrite Hauto in H2.
    apply outside_loop_marks in H2 as [G2 M2].
    eapply hasDependencyBumps_grows; [exact Hprop|].
    destruct (isInCurrentBatch options (specifierSource st3) d) eqn:Hin.
    + eapply hasDependencyBumps_grows; [exact G2|].
      eapply markedWith_has, M1, filter_In. auto.
    + apply M2.
      * rewrite Hsrc1, Hplans. reflexivity.
      * apply filter_In. rewrite Hin. auto.
Qed.

Lemma bumped_project_marks_its_dependents_witness :
  processProject planEnv batchOnlyOptions Scenario.libA
    (initialState planEnv batchOnlyOptions Scenario.twoProjects)
  = Ok batchOnlyMid
  /\ markedWith batchOnlyMid "app-b" "lib-a"
  /\ projectToDependencyBumps batchOnlyMid !! "app-b" = Some {[ "lib-a" ]}.
Proof.
  assert (Hrun : processProject planEnv batchOnlyOptions Scenario.libA
                   (initialState planEnv batchOnlyOptions Scenario.twoProjects)
                 = Ok batchOnlyMid) by (vm_compute; reflexivity).
  destruct (bumped_project_marks_its_dependents planEnv batchOnlyOptions
              Scenario.libA _ _ Hrun eq_refl
              (mkDep "app-b" "lib-a" dependencies_ None)) as [Hmark _].
  { left. reflexivity. }
  { reflexivity. }
  split; [exact Hrun|]. split; [exact (Hmark eq_refl)|]. reflexivity.
Defined.

(** ** The version on disk *)

(** X16: with the current version read from disk, each turn takes the
    version of its own project's manifest, whatever the turns before it
    resolved: a manifest without a version stops the run with the error of
    line 244, and otherwise the entry of the project carries the version
    its manifest had. *)
Theorem disk_resolver_reads_each_manifest
    (env : Env) (options : Options) (project : ProjectGraphProjectNode)
    (st : State) (packageRoot : string) (manifest : PyprojectToml)
    (poetry : Poetry) :
  currentVersionResolver options = disk ->
  projectNameToPackageRootMap st !! name project = Some packageRoot ->
  Str.nonEmpty packageRoot = true ->
  readPyprojectToml (tree st) (pyprojectTomlIn env packageRoot) = Some manifest ->
  toolPoetry manifest = Some poetry ->
  (truthy (poetryVersion poetry) = false ->
   processProject env options project st
   = Throw (DiskVersionUnresolvedError (name project)
              (pyprojectTomlIn env packageRoot)))
  /\ (forall st',
        processProject env options project st = Ok st' ->
        Topo.nameIn (name project) (projects options) = true ->
        stCurrentVersion st' = poetryVersion poetry
        /\ exists nv deps,
             versionData st' !! name project
             = Some (mkEntry (poetryVersion poetry) nv deps)).
Proof.
  intros Hdisk Hroot Hne Hread Hpoetry. split.
  - intros Hnone. unfold processProject, resolveProject, bind.
    rewrite Hroot, Hne. cbn [negb]. rewrite Hread, Hpoetry.
    unfold resolveCurrentVersion. rewrite Hdisk, Hnone. reflexivity.
  - intros st' Hrun Hsel.
    assert (Hcur : stCurrentVersion st' = poetryVersion poetry).
    { pose proof Hrun as Hc.
      apply processProject_after_resolution in Hc
        as (path & poetry' & st3 & logs3 & Hres & _ & -> & _).
      apply resolveProject_steps in Hres
        as (r & m & st1 & logs1 & Hr & _ & -> & Hm & Hp & H1 & H3).
      rewrite Hroot in Hr. injection Hr as <-.
      rewrite Hread in Hm. injection Hm as <-.
      rewrite Hpoetry in Hp. injection Hp as <-.
      unfold resolveCurrentVersion in H1. rewrite Hdisk in H1.
      destruct (truthy (poetryVersion poetry)); [|discriminate].
      injection H1 as <- <-. cbn zeta in H3.
      destruct H3 as [[_ H3]|(_ & -> & _)].
      - apply resolveSpecifier_outcome in H3 as (_ & -> & _).
        destruct (truthy (providedSpecifier options)); reflexivity.
      - destruct (truthy (providedSpecifier options)); reflexivity. }
    split; [exact Hcur|].
    destruct (processed_project_entry _ _ _ _ _ Hrun Hsel) as (nv & deps & E).
    rewrite Hcur in E. eauto.
Qed.

Lemma disk_resolver_reads_each_manifest_witness :
  processProject planEnv batchOnlyOptions Scenario.appB batchOnlyMid
  = Ok batchOnlyEnd
  /\ stCurrentVersion batchOnlyMid = Some "1.0.0"
  /\ stCurrentVersion batchOnlyEnd = Some "2.0.0"
  /\ versionData batchOnlyEnd !! "app-b"
     = Some (mkEntry (Some "2.0.0") (Some "2.1.0") []).
Proof.
  assert (Hrun : processProject planEnv batchOnlyOptions Scenario.appB
                   batchOnlyMid = Ok batchOnlyEnd) by (vm_compute; reflexivity).
  destruct (disk_resolver_reads_each_manifest planEnv batchOnlyOptions
              Scenario.appB batchOnlyMid "apps/b"
              (Scenario.manifest "app-b" (Some "2.0.0")
                 [("lib-a", Scenario.pathDep "^1.1.0" "../../libs/a")])
              (mkPoetry "app-b" (Some "2.0.0")
                 (Some
                    (list_to_map
                       [("lib-a", Scenario.pathDep "^1.1.0" "../../libs/a")]))
                 None)
              eq_refl eq_refl eq_refl)
    as [_ H].
  { vm_compute. reflexivity. }
  { reflexivity. }
  destruct (H batchOnlyEnd Hrun eq_refl) as [Hcur _].
  split; [exact Hrun|]. split; [reflexivity|]. split; [exact Hcur|].
  reflexivity.
Defined.

(** ** The manifest and the version data *)

Lemma update_other_manifests env options transitive d depName newDepVersion fb
    st st' path :
  updateDependentProjectAndAddToVersionData env options transitive d depName
    newDepVersion fb st = Ok st' ->
  manifestOf env (projectNameToPackageRootMap st) d <> path ->
  files (tree st') !! path = files (tree st) !! path.
Proof.
  unfold updateDependentProjectAndAddToVersionData, bind, manifestOf.
  st_simpl. intros H Hne.
  destruct (projectNameToPackageRootMap st !! source d) as [r|];
    [|discriminate].
  cbn [default from_option id] in Hne. st_simpl.
  repeat case_match; simplify_eq; st_simpl;
    rewrite ?lookup_insert_ne by exact Hne; reflexivity.
Qed.

Lemma update_manifest_at env options transitive d depName newDepVersion fb
    st st' path :
  updateDependentProjectAndAddToVersionData env options transitive d depName
    newDepVersion fb st = Ok st' ->
  (fb <> noForce -> manifestOf env (projectNameToPackageRootMap st) d <> path) ->
  manifestVersion (tree st') path = manifestVersion (tree st) path.
Proof.
  intros H Hpath. destruct fb as [|bump].
  - apply (update_noForce_versions _ _ _ _ _ _ _ _ H).
  - unfold manifestVersion.
    rewrite (update_other_manifests _ _ _ _ _ _ _ _ _ _ H); [reflexivity|].
    apply Hpath. discriminate.
Qed.

Lemma propagate_manifest_at env options projectName packageName newVersion
    inBatch outsideBatch transitive circ st st' path :
  propagate env options projectName packageName newVersion inBatch outsideBatch
    transitive circ st = Ok st' ->
  (forall c,
     In c (propagationCalls options (specifierSource st) inBatch outsideBatch
             transitive circ) ->
     callForce c <> noForce ->
     manifestOf env (projectNameToPackageRootMap st) (callDependent c) <> path) ->
  manifestVersion (tree st') path = manifestVersion (tree st) path.
Proof.
  unfold propagate, bind, propagationCalls. intros H Hcalls.
  destruct (forEach _ inBatch st) as [st1|] eqn:H1; [|discriminate].
  destruct (if isAuto options then _ else _) as [st2|] eqn:H2; [|discriminate].
  pose (Inv := fun s =>
                 projectNameToPackageRootMap s = projectNameToPackageRootMap st
                 /\ specifierSource s = specifierSource st).
  pose (R := fun s s' : State =>
               manifestVersion (tree s') path = manifestVersion (tree s) path).
  assert (Rrefl : forall s, R s s) by (intros s; reflexivity).
  assert (Rtrans : forall s1 s2 s3, R s1 s2 -> R s2 s3 -> R s1 s3)
    by (unfold R; intros s1 s2 s3 E1 E2; congruence).
  assert (I1 : Inv st1 /\ R st st1).
  { pose proof H1 as Hres. apply inBatch_loop_resolution in Hres.
    apply inBatch_loop_effect in H1 as (_ & _ & E).
    destruct Hres as (_ & _ & _ & _ & Hs & _ & Hr & _).
    split; [split; assumption|apply E]. }
  destruct I1 as [I1 R1].
  assert (I2 : Inv st2 /\ R st1 st2).
  { destruct (isAuto options); [|injection H2 as <-; auto].
    apply (forEach_invariant
             (updateOutsideBatch env options transitive projectName packageName
                newVersion) Inv R Rrefl Rtrans outsideBatch); [|exact I1|exact H2].
    intros x s s' Hx [Ir Is] Hrun. unfold updateOutsideBatch in Hrun.
    pose proof Hrun as He.
    apply update_effect in He as ((_ & _ & _ & _ & Hs & _ & Hr & _) & _).
    split.
    - split.
      + rewrite Hr. destruct (_ && _); st_simpl; exact Ir.
      + rewrite Hs. destruct (_ && _); st_simpl; exact Is.
    - unfold R. rewrite (update_manifest_at _ _ _ _ _ _ _ _ _ _ Hrun).
      + destruct (_ && _); reflexivity.
      + intros Hf.
        assert (Hroots : projectNameToPackageRootMap
                           (if isSourceVersionPlans (specifierSource s)
                               && negb (hasDependencyBumps s (source x))
                            then setProjectToDependencyBumps
                                   (<[source x := {[ projectName ]}]>
                                      (projectToDependencyBumps s)) s
                            else s)
                         = projectNameToPackageRootMap st)
          by (destruct (_ && _); st_simpl; exact Ir).
        rewrite Hroots.
        apply (Hcalls (mkCall x (forceOutsideBatch options (specifierSource st) x))).
        * apply in_or_app. right. apply in_or_app. left.
          apply in_map_iff. exists x. auto.
        * cbn [callForce]. rewrite <- Is. exact Hf. }
  destruct I2 as [I2 R2].
  assert (I3 : Inv st' /\ R st2 st').
  { apply (forEach_invariant (updateTransitive env options transitive circ)
             Inv R Rrefl Rtrans transitive); [|exact I2|exact H].
    intros x s s' Hx [Ir Is] Hrun. unfold updateTransitive in Hrun.
    destruct (projectNameToPackageRootMap s !! target x) as [r|];
      [|discriminate].
    destruct (Str.nonEmpty r); [|discriminate].
    destruct (readPyprojectToml _ _) as [[[p|]]|]; try discriminate.
    pose proof Hrun as He.
    apply update_effect in He as ((_ & _ & _ & _ & Hs & _ & Hr & _) & _).
    split; [split; congruence|].
    unfold R. apply (update_manifest_at _ _ _ _ _ _ _ _ _ _ Hrun).
    intros Hf. rewrite Ir.
    apply (Hcalls (mkCall x (forceTransitive circ x))).
    - apply in_or_app. right. apply in_or_app. right.
      apply in_map_iff. exists x. auto.
    - exact Hf. }
  destruct I3 as [_ R3]. unfold R in *. congruence.
Qed.

(** X25: after a turn that bumps its project, the manifest of the project
    carries the new version that the version data records for it, provided
    no dependent that the turn force-bumps has that same file for its
    manifest. *)
Theorem manifest_carries_the_recorded_version
    (env : Env) (options : Options) (project : ProjectGraphProjectNode)
    (st st' : State) (packageRoot : string) :
  processProject env options project st = Ok st' ->
  Topo.nameIn (name project) (projects options) = true ->
  specTruthy (specifier st') = true ->
  projectNameToPackageRootMap st !! name project = Some packageRoot ->
  (forall calls, updateCalls st' = updateCalls st ++ calls ->
     forall c, In c calls -> callForce c <> noForce ->
       manifestOf env (projectNameToPackageRootMap st') (callDependent c)
       <> pyprojectTomlIn env packageRoot) ->
  exists newVersion deps,
    versionData st' !! name project
    = Some (mkEntry (stCurrentVersion st') (Some newVersion) deps)
    /\ manifestVersion (tree st') (pyprojectTomlIn env packageRoot)
       = Some newVersion.
Proof.
  intros Hrun Hsel Htruthy Hroot Hapart.
  destruct (specifier st') as [| |spec] eqn:Hspec; try discriminate.
  cbn [specTruthy] in Htruthy.
  destruct (bumped_project_entry _ _ _ _ _ _ Hrun Hsel Hspec Htruthy)
    as (nv & deps & Hd & _ & Hentry).
  exists nv, deps. split; [exact Hentry|].
  apply processProject_cases in Hrun
    as (path & poetry & st3 & logs3 & logs4 & Hres & _ & Hcase).
  apply resolveProject_outcome in Hres
    as ((_ & _ & _ & _ & _ & _ & Hcalls) & r & manifest & Hr & -> & _).
  rewrite Hroot in Hr. injection Hr as <-.
  cbn zeta in Hcase.
  destruct Hcase as [[Hskip ->]|(spec' & Hs & Hne & Hbump)].
  { unfold skipProject in Hspec. destruct (logUnchanged options); st_simpl;
      rewrite Hspec in Hskip; cbn [specTruthy] in Hskip; congruence. }
  pose proof Hbump as He.
  apply bumpProject_effect in He as (nv2 & Hnv & E1 & _ & E2 & _ & Ec).
  st_simpl. rewrite Hspec, Hs in E1. injection E1 as <-.
  rewrite E2 in Hd. st_simpl. rewrite Hnv in Hd. injection Hd as <-.
  unfold bumpProject, bind in Hbump. st_simpl. rewrite Hnv in Hbump.
  destruct (propagate _ _ _ _ _ _ _ _ _ _) as [st9|] eqn:Hprop; [|discriminate].
  injection Hbump as <-. st_simpl.
  pose proof Hprop as Hsame.
  apply propagate_effect in Hsame as ((_ & _ & _ & _ & _ & _ & Hroots & _) & _).
  rewrite (propagate_manifest_at _ _ _ _ _ _ _ _ _ _ _
             (pyprojectTomlIn env packageRoot) Hprop).
  - unfold manifestVersion. st_simpl. rewrite lookup_insert_eq. reflexivity.
  - intros c Hin Hf. rewrite <- Hroots.
    apply (Hapart _ (eq_trans Ec (f_equal (fun l => l ++ _) Hcalls)) c Hin Hf).
Qed.

Lemma manifest_carries_the_recorded_version_witness :
  processProject diamondEnv diamondOptions Scenario.libA diamondStart
  = Ok diamondEnd
  /\ exists newVersion deps,
       versionData diamondEnd !! "lib-a"
       = Some (mkEntry (stCurrentVersion diamondEnd) (Some newVersion) deps)
       /\ manifestVersion (tree diamondEnd) "libs/a/pyproject.toml"
          = Some newVersion.
Proof.
  assert (Hrun : processProject diamondEnv diamondOptions Scenario.libA
                   diamondStart = Ok diamondEnd) by (vm_compute; reflexivity).
  split; [exact Hrun|].
  apply (manifest_carries_the_recorded_version diamondEnv diamondOptions
           Scenario.libA diamondStart diamondEnd "libs/a" Hrun);
    [reflexivity|reflexivity|reflexivity|].
  intros calls Hcalls c Hin Hforce.
  change (updateCalls diamondStart) with (@nil UpdateCall) in Hcalls.
  cbn [app] in Hcalls. subst calls.
  assert (Hall : forallb
                   (fun c =>
                      match callForce c with
                      | noForce => true
                      | force _ =>
                          negb (String.eqb
                                  (manifestOf diamondEnv
                                     (projectNameToPackageRootMap diamondEnd)
                                     (callDependent c))
                                  "libs/a/pyproject.toml")
                      end)
                   (updateCalls diamondEnd) = true) by (vm_compute; reflexivity).
  rewrite forallb_forall in Hall. specialize (Hall c Hin).
  destruct (callForce c); [congruence|].
  apply negb_true_iff, String.eqb_neq in Hall. exact Hall.
Defined.

(** * The poetry helpers *)

(** ** Objects *)

Lemma get_set_eq {V : Type} (o : JsObject.Obj V) k v :
  JsObject.get (JsObject.set o k v) k = Some v.
Proof.
  induction o as [|[k' v'] o IH]; cbn [JsObject.set JsObject.get].
  - rewrite String.eqb_refl. reflexivity.
  - destruct (String.eqb k' k) eqn:E; cbn [JsObject.get]; rewrite E;
      [reflexivity|exact IH].
Qed.

Lemma get_set_ne {V : Type} (o : JsObject.Obj V) k k' v :
  k <> k' -> JsObject.get (JsObject.set o k v) k' = JsObject.get o k'.
Proof.
  intros Hne. induction o as [|[k0 v0] o IH]; cbn [JsObject.set JsObject.get].
  - destruct (String.eqb_spec k k'); [contradiction|reflexivity].
  - destruct (String.eqb_spec k0 k) as [->|E]; cbn [JsObject.get].
    + destruct (String.eqb_spec k k'); [contradiction|reflexivity].
    + rewrite IH. reflexivity.
Qed.

(** ** Adding a local project *)

(** X17: [addLocalProjectToPoetryProject] throws when the manifest of the
    target or of the dependency is missing; and when it returns, it returns
    the package name of the dependency, and only the manifest of the target
    has been written: in the table of the named group (created when it was
    missing), or in [dependencies] without a group, the name now stands for
    [{ path, develop: true }] with the extras when given; every other
    entry of that table, every other group and the rest of the manifest
    are as they were. *)
Theorem local_project_becomes_a_path_dependency
    (pathJoin : string -> string -> string)
    (fs : gmap string PoetryUtils.PoetryPyprojectToml)
    (targetRoot dependencyRoot dependencyPath : string)
    (groupName : option string) (extras : option (list string)) :
  let targetToml := PoetryUtils.getProjectTomlPath pathJoin targetRoot in
  let dependencyToml := PoetryUtils.getProjectTomlPath pathJoin dependencyRoot in
  let result :=
    PoetryUtils.addLocalProjectToPoetryProject pathJoin fs targetRoot
      dependencyRoot dependencyPath groupName extras in
  (fs !! targetToml = None ->
   result = PoetryUtils.Threw (PoetryUtils.NoSuchFile targetToml))
  /\ (is_Some (fs !! targetToml) -> fs !! dependencyToml = None ->
      result = PoetryUtils.Threw (PoetryUtils.NoSuchFile dependencyToml))
  /\ forall dependencyName fs',
       result = PoetryUtils.Returned (dependencyName, fs') ->
  exists targetData dependencyData dependencyPoetry before after,
    fs !! targetToml = Some targetData
    /\ fs !! dependencyToml = Some dependencyData
    /\ PoetryUtils.poetryOf dependencyData = Some dependencyPoetry
    /\ dependencyName = PoetryUtils.name dependencyPoetry
    /\ PoetryUtils.poetryOf targetData = Some before
    /\ fs' = <[targetToml :=
                 PoetryUtils.mkToml
                   (Some (PoetryUtils.mkTool
                            (match PoetryUtils.tool targetData with
                             | Some t => PoetryUtils.nx t
                             | None => None
                             end) (Some after)))]> fs
    /\ PoetryUtils.name after = PoetryUtils.name before
    /\ PoetryUtils.version after = PoetryUtils.version before
    /\ (exists table,
          PoetryUtils.tableOf after groupName = Some table
          /\ table !! dependencyName
             = Some (PoetryUtils.localDependency dependencyPath extras)
          /\ forall k, k <> dependencyName ->
               table !! k
               = default ∅ (PoetryUtils.tableOf before groupName) !! k)
    /\ (if truthy groupName then
          PoetryUtils.dependencies after = PoetryUtils.dependencies before
          /\ forall g, g <> inTemplate groupName ->
               JsObject.get (default [] (PoetryUtils.group after)) g
               = JsObject.get (default [] (PoetryUtils.group before)) g
        else PoetryUtils.group after = PoetryUtils.group before).
Proof.
  unfold PoetryUtils.addLocalProjectToPoetryProject, PoetryUtils.parseToml.
  cbv zeta.
  set (targetToml := PoetryUtils.getProjectTomlPath pathJoin targetRoot) in *.
  set (dependencyToml := PoetryUtils.getProjectTomlPath pathJoin dependencyRoot)
    in *.
  split; [intros ->; reflexivity|].
  split; [intros [x ->] ->; reflexivity|].
  intros dependencyName fs' H.
  destruct (fs !! targetToml) as [targetData|] eqn:Ht; [|discriminate].
  destruct (fs !! dependencyToml) as [dependencyData|] eqn:Hd; [|discriminate].
  destruct (PoetryUtils.poetryOf dependencyData) as [dependencyPoetry|] eqn:Hp;
    [|discriminate].
  destruct (PoetryUtils.tool targetData) as [targetTool|] eqn:Htool;
    [|discriminate].
  destruct (PoetryUtils.poetry targetTool) as [before|] eqn:Hb; [|discriminate].
  assert (Hbefore : PoetryUtils.poetryOf targetData = Some before)
    by (unfold PoetryUtils.poetryOf; rewrite Htool; exact Hb).
  unfold PoetryUtils.tableOf.
  destruct (truthy groupName) eqn:Hg.
  - destruct (PoetryUtils.groupDependencies _) as [deps|] eqn:Hdeps;
      [|discriminate].
    injection H as <- <-.
    exists targetData, dependencyData, dependencyPoetry, before.
    eexists (PoetryUtils.mkPoetry _ _ _ _). rewrite Htool.
    split; [reflexivity|]. split; [reflexivity|]. split; [exact Hp|].
    split; [reflexivity|]. split; [exact Hbefore|].
    split; [reflexivity|]. split; [reflexivity|]. split; [reflexivity|].
    cbn [PoetryUtils.group PoetryUtils.dependencies default from_option id].
    split.
    + eexists. rewrite get_set_eq. cbn [PoetryUtils.groupDependencies].
      split; [reflexivity|]. split; [apply lookup_insert_eq|].
      intros k Hk. rewrite lookup_insert_ne by congruence.
      destruct (JsObject.get _ _) as [g|]; cbn [default from_option id] in *.
      * rewrite Hdeps. reflexivity.
      * injection Hdeps as <-. reflexivity.
    + split; [reflexivity|]. intros g Hne. apply get_set_ne. congruence.
  - destruct (PoetryUtils.dependencies before) as [deps|] eqn:Hdeps;
      [|discriminate].
    injection H as <- <-.
    exists targetData, dependencyData, dependencyPoetry, before.
    eexists (PoetryUtils.mkPoetry _ _ _ _). rewrite Htool.
    split; [reflexivity|]. split; [reflexivity|]. split; [exact Hp|].
    split; [reflexivity|]. split; [exact Hbefore|].
    split; [reflexivity|]. split; [reflexivity|]. split; [reflexivity|].
    cbn [PoetryUtils.group PoetryUtils.dependencies default from_option id].
    split; [|reflexivity].
    eexists. split; [reflexivity|]. split; [apply lookup_insert_eq|].
    intros k Hk. rewrite lookup_insert_ne by congruence. rewrite Hdeps.
    reflexivity.
Qed.

(** ** All the dependencies of a manifest *)






(** ** Locking and installing *)

(** X19: [updateProject] always runs [poetry lock --no-update] in the
    folder first, and [poetry install] after it exactly when the lock left
    with status 0 and more than the lock was asked for; it returns when
    every command it ran left with status 0 and throws otherwise, so that
    nothing is installed after a failed lock. *)
Theorem install_follows_a_successful_lock
    (spawnStatus : list string -> option string -> option Z) (dir : string)
    (updateLockOnly : bool) :
  let locked :=
    bool_decide (spawnStatus ["lock"; "--no-update"] (Some dir) = Some 0%Z) in
  let installed :=
    bool_decide (spawnStatus ["install"] (Some dir) = Some 0%Z) in
  let result := PoetryUtils.updateProject spawnStatus dir updateLockOnly in
  PoetryUtils.spawned (fst result)
  = ["lock"; "--no-update"]
    :: (if locked && negb updateLockOnly then [["install"]] else [])
  /\ (snd result = PoetryUtils.Returned tt
      <-> locked = true /\ (updateLockOnly = true \/ installed = true))
  /\ (locked = false ->
      snd result
      = PoetryUtils.Threw
          (PoetryUtils.CommandFailed "poetry lock --no-update"
             (spawnStatus ["lock"; "--no-update"] (Some dir))))
  /\ forall executable args folder,
       In (PoetryUtils.Spawn executable args folder) (fst result) ->
       executable = "poetry" /\ folder = Some dir.
Proof.
  cbv zeta. unfold PoetryUtils.updateProject, PoetryUtils.runPoetry,
    PoetryUtils.andThen.
  cbn [PoetryUtils.log PoetryUtils.error PoetryUtils.cwd default from_option id
       andb].
  destruct (bool_decide (spawnStatus ["lock"; "--no-update"] (Some dir)
                         = Some 0%Z)) eqn:Hlock;
    destruct updateLockOnly; cbn [negb andb fst snd];
    try destruct (bool_decide (spawnStatus ["install"] (Some dir) = Some 0%Z))
      eqn:Hinstall; cbn [negb andb fst snd];
    (split; [reflexivity|]);
    (split; [split; [intros H; first [discriminate H | auto]
                    |intros [H1 [H2|H2]]; first [discriminate|reflexivity]]|]);
    (split; [intros H; first [discriminate H | reflexivity]|]);
    intros executable args folder Hin;
    repeat (destruct Hin as [Hin|Hin];
            [first [discriminate Hin | injection Hin as <- <- <-; auto]|]);
    destruct Hin.
Qed.

(** ** The shared virtual environment *)

(** X20: [activateVenv] leaves [process.env] alone when a virtual
    environment is active; otherwise it activates the one of the workspace
    only if the root manifest asks for it, setting [VIRTUAL_ENV], putting
    its [bin] in front of [PATH] and dropping [PYTHONHOME]; and a second
    call after one that returned changes nothing. *)
Theorem activateVenv_acts_once
    (pathJoin pathResolve : string -> string -> string)
    (fs : gmap string PoetryUtils.PoetryPyprojectToml) (workspaceRoot : string)
    (processEnv : gmap string string) :
  Str.nonEmpty (pathResolve workspaceRoot ".venv") = true ->
  let virtualEnv := pathResolve workspaceRoot ".venv" in
  (truthy (processEnv !! "VIRTUAL_ENV") = true ->
   PoetryUtils.activateVenv pathJoin pathResolve fs workspaceRoot processEnv
   = ([], PoetryUtils.Returned processEnv))
  /\ forall actions env',
       PoetryUtils.activateVenv pathJoin pathResolve fs workspaceRoot processEnv
       = (actions, PoetryUtils.Returned env') ->
       PoetryUtils.activateVenv pathJoin pathResolve fs workspaceRoot env'
       = ([], PoetryUtils.Returned env')
       /\ (actions = [] /\ env' = processEnv
           \/ actions = [PoetryUtils.LogVenvActivation]
              /\ env' !! "VIRTUAL_ENV" = Some virtualEnv
              /\ env' !! "PATH"
                 = Some (virtualEnv +:+ "/bin:"
                         +:+ inTemplate (processEnv !! "PATH"))
              /\ env' !! "PYTHONHOME" = None
              /\ forall k, k <> "VIRTUAL_ENV" -> k <> "PATH" ->
                   k <> "PYTHONHOME" -> env' !! k = processEnv !! k).
Proof.
  intros Hvenv virtualEnv. split.
  - intros H. unfold PoetryUtils.activateVenv. rewrite H. reflexivity.
  - intros actions env' H.
    assert (Hcases :
              (actions = [] /\ env' = processEnv)
              \/ (actions = [PoetryUtils.LogVenvActivation]
                  /\ env'
                     = delete "PYTHONHOME"
                         (<["PATH" := virtualEnv +:+ "/bin:"
                                      +:+ inTemplate
                                            (<["VIRTUAL_ENV" := virtualEnv]>
                                               processEnv !! "PATH")]>
                            (<["VIRTUAL_ENV" := virtualEnv]> processEnv)))).
    { unfold PoetryUtils.activateVenv in H. fold virtualEnv in H.
      repeat case_match; simplify_eq; auto. }
    destruct Hcases as [[-> ->]|[-> ->]].
    + split; [exact H|]. left. auto.
    + split.
      * unfold PoetryUtils.activateVenv.
        rewrite lookup_delete_ne by discriminate.
        rewrite lookup_insert_ne by discriminate.
        rewrite lookup_insert_eq. cbn [truthy]. fold virtualEnv in Hvenv.
        rewrite Hvenv. reflexivity.
      * right. split; [reflexivity|].
        split; [rewrite lookup_delete_ne, lookup_insert_ne, lookup_insert_eq
                  by discriminate; reflexivity|].
        split; [rewrite lookup_delete_ne, lookup_insert_eq,
                  lookup_insert_ne by discriminate; reflexivity|].
        split; [apply lookup_delete_eq|].
        intros k H1 H2 H3.
        rewrite lookup_delete_ne, !lookup_insert_ne by congruence. reflexivity.
Qed.

Lemma activateVenv_acts_once_witness :
  PoetryUtils.activateVenv slashJoin slashJoin sharedVenvFiles "/ws" ∅
  = ([PoetryUtils.LogVenvActivation],
     PoetryUtils.Returned
       (<["PATH" := "/ws/.venv/bin:undefined"]>
          {[ "VIRTUAL_ENV" := "/ws/.venv" ]}))
  /\ PoetryUtils.activateVenv slashJoin slashJoin sharedVenvFiles "/ws"
       (<["PATH" := "/ws/.venv/bin:undefined"]> {[ "VIRTUAL_ENV" := "/ws/.venv" ]})
     = ([], PoetryUtils.Returned
              (<["PATH" := "/ws/.venv/bin:undefined"]>
                 {[ "VIRTUAL_ENV" := "/ws/.venv" ]})).
Proof.
  assert (Hrun : PoetryUtils.activateVenv slashJoin slashJoin sharedVenvFiles
                   "/ws" ∅
                 = ([PoetryUtils.LogVenvActivation],
                    PoetryUtils.Returned
                      (<["PATH" := "/ws/.venv/bin:undefined"]>
                         {[ "VIRTUAL_ENV" := "/ws/.venv" ]})))
    by (vm_compute; reflexivity).
  destruct (activateVenv_acts_once slashJoin slashJoin sharedVenvFiles "/ws" ∅
              eq_refl) as [_ H].
  destruct (H _ _ Hrun) as [Hagain _].
  split; [exact Hrun|exact Hagain].
Defined.

(** * The project generator *)

(** ** Test dependencies *)

Lemma addIfMissing_lookup cond tool pinned
    (deps : gmap string PoetryUtils.Dependency) k :
  PoetryProject.addIfMissing cond tool pinned deps !! k
  = if cond && negb (PoetryProject.truthyDependency (deps !! tool))
       && String.eqb tool k
    then Some (PoetryUtils.Requirement pinned)
    else deps !! k.
Proof.
  unfold PoetryProject.addIfMissing.
  destruct (cond && negb (PoetryProject.truthyDependency (deps !! tool)));
    cbn [andb]; [|reflexivity].
  destruct (String.eqb_spec tool k) as [->|Hne].
  - apply lookup_insert_eq.
  - apply lookup_insert_ne. exact Hne.
Qed.

(** A step keeps every entry that counts as present. *)
Lemma addIfMissing_keeps cond tool pinned
    (deps : gmap string PoetryUtils.Dependency) k :
  PoetryProject.truthyDependency (deps !! k) = true ->
  PoetryProject.addIfMissing cond tool pinned deps !! k = deps !! k.
Proof.
  intros H. rewrite addIfMissing_lookup.
  destruct (String.eqb_spec tool k) as [->|Hne];
    [|rewrite andb_false_r; reflexivity].
  rewrite H. cbn [negb]. rewrite andb_false_r. reflexivity.
Qed.

(** After a step with a pinned version the tool is present when the step
    applied. *)
Lemma addIfMissing_present cond tool pinned
    (deps : gmap string PoetryUtils.Dependency) :
  Str.nonEmpty pinned = true -> cond = true ->
  PoetryProject.truthyDependency
    (PoetryProject.addIfMissing cond tool pinned deps !! tool) = true.
Proof.
  intros Hp ->. rewrite addIfMissing_lookup, String.eqb_refl.
  cbn [andb]. rewrite andb_true_r.
  destruct (PoetryProject.truthyDependency (deps !! tool)) eqn:E;
    cbn [negb]; [exact E|exact Hp].
Qed.

Lemma addIfMissing_stays cond tool pinned
    (deps : gmap string PoetryUtils.Dependency) k :
  PoetryProject.truthyDependency (deps !! k) = true ->
  PoetryProject.truthyDependency
    (PoetryProject.addIfMissing cond tool pinned deps !! k) = true.
Proof. intros H. rewrite addIfMissing_keeps; exact H. Qed.

Lemma addIfMissing_done cond tool pinned
    (deps : gmap string PoetryUtils.Dependency) :
  (cond = true -> PoetryProject.truthyDependency (deps !! tool) = true) ->
  PoetryProject.addIfMissing cond tool pinned deps = deps.
Proof.
  intros H. unfold PoetryProject.addIfMissing.
  destruct cond; [|reflexivity]. rewrite H by reflexivity. reflexivity.
Qed.

Lemma addIfMissing_changes cond tool pinned
    (deps : gmap string PoetryUtils.Dependency) k :
  PoetryProject.addIfMissing cond tool pinned deps !! k = deps !! k
  \/ (k = tool
      /\ PoetryProject.addIfMissing cond tool pinned deps !! k
         = Some (PoetryUtils.Requirement pinned)).
Proof.
  rewrite addIfMissing_lookup.
  destruct (cond && negb (PoetryProject.truthyDependency (deps !! tool)));
    cbn [andb]; [|auto].
  destruct (String.eqb_spec tool k) as [->|Hne]; auto.
Qed.

Lemma addIfMissing_pinned cond tool pinned
    (deps original : gmap string PoetryUtils.Dependency) k :
  In (tool, pinned) PoetryProject.pinnedTools ->
  deps !! k = original !! k
  \/ (exists v, In (k, v) PoetryProject.pinnedTools
               /\ deps !! k = Some (PoetryUtils.Requirement v)) ->
  PoetryProject.addIfMissing cond tool pinned deps !! k = original !! k
  \/ (exists v, In (k, v) PoetryProject.pinnedTools
               /\ PoetryProject.addIfMissing cond tool pinned deps !! k
                  = Some (PoetryUtils.Requirement v)).
Proof.
  intros Hin H.
  destruct (addIfMissing_changes cond tool pinned deps k) as [E|[-> E]].
  - rewrite E. exact H.
  - right. exists pinned. auto.
Qed.

Lemma addTestDependencies_keeps
    (dependencies : gmap string PoetryUtils.Dependency) normalizedOptions k :
  PoetryProject.truthyDependency (dependencies !! k) = true ->
  snd (PoetryProject.addTestDependencies dependencies normalizedOptions) !! k
  = dependencies !! k.
Proof.
  intros Hk. unfold PoetryProject.addTestDependencies. cbn [snd].
  rewrite !addIfMissing_keeps;
    first [reflexivity | repeat apply addIfMissing_stays; exact Hk].
Qed.

Lemma addTestDependencies_autopep8
    (dependencies : gmap string PoetryUtils.Dependency) normalizedOptions :
  PoetryProject.truthyDependency
    (snd (PoetryProject.addTestDependencies dependencies normalizedOptions)
     !! "autopep8") = true.
Proof.
  unfold PoetryProject.addTestDependencies. cbn [snd].
  do 4 apply addIfMissing_stays. apply addIfMissing_present; reflexivity.
Qed.

Lemma addTestDependencies_changed
    (dependencies : gmap string PoetryUtils.Dependency) normalizedOptions :
  fst (PoetryProject.addTestDependencies dependencies normalizedOptions) = false
  <-> snd (PoetryProject.addTestDependencies dependencies normalizedOptions)
      = dependencies.
Proof.
  unfold PoetryProject.addTestDependencies. cbn [fst snd].
  rewrite negb_false_iff, bool_decide_eq_true. split; intros H; congruence.
Qed.

(** X21: [addTestDependencies] never replaces a requirement that is there
    (a non-empty string or a table); what it adds is one of seven tools at
    its pinned version; [autopep8] is required afterwards whatever the
    options are; and [changed] tells whether the table is another one than
    before. *)
Theorem test_tools_are_added_not_replaced
    (dependencies : gmap string PoetryUtils.Dependency)
    (normalizedOptions : PoetryProject.NormalizedSchema) :
  let result :=
    PoetryProject.addTestDependencies dependencies normalizedOptions in
  (forall k, PoetryProject.truthyDependency (dependencies !! k) = true ->
     snd result !! k = dependencies !! k)
  /\ (forall k, snd result !! k <> dependencies !! k ->
        exists pinned,
          In (k, pinned) PoetryProject.pinnedTools
          /\ snd result !! k = Some (PoetryUtils.Requirement pinned))
  /\ PoetryProject.truthyDependency (snd result !! "autopep8") = true
  /\ (fst result = false <-> snd result = dependencies).
Proof.
  cbv zeta. unfold PoetryProject.addTestDependencies. cbn [fst snd].
  split; [|split; [|split]].
  - intros k Hk.
    exact (addTestDependencies_keeps dependencies normalizedOptions k Hk).
  - intros k Hk.
    match type of Hk with
    | ?d !! k <> _ =>
        assert (H : d !! k = dependencies !! k
                    \/ exists v, In (k, v) PoetryProject.pinnedTools
                                 /\ d !! k = Some (PoetryUtils.Requirement v))
    end.
    { repeat (apply addIfMissing_pinned; [cbn; auto 10|]). left. reflexivity. }
    destruct H as [H|H]; [contradiction|exact H].
  - exact (addTestDependencies_autopep8 dependencies normalizedOptions).
  - exact (addTestDependencies_changed dependencies normalizedOptions).
Qed.

(** X22: [addTestDependencies] applied to its own result changes nothing
    and says so. *)
Theorem test_tools_are_added_once
    (dependencies : gmap string PoetryUtils.Dependency)
    (normalizedOptions : PoetryProject.NormalizedSchema) :
  PoetryProject.addTestDependencies
    (snd (PoetryProject.addTestDependencies dependencies normalizedOptions))
    normalizedOptions
  = (false,
     snd (PoetryProject.addTestDependencies dependencies normalizedOptions)).
Proof.
  unfold PoetryProject.addTestDependencies. cbn [snd].
  set (pytest := PoetryProject.equals
                   (PoetryProject.unitTestRunner normalizedOptions) "pytest").
  set (d1 := PoetryProject.addIfMissing _ "flake8" _ dependencies).
  set (d2 := PoetryProject.addIfMissing _ "ruff" _ d1).
  set (d3 := PoetryProject.addIfMissing true "autopep8" _ d2).
  set (d4 := PoetryProject.addIfMissing pytest "pytest" _ d3).
  set (d5 := PoetryProject.addIfMissing pytest "pytest-sugar" _ d4).
  set (d6 := PoetryProject.addIfMissing _ "pytest-cov" _ d5).
  set (d7 := PoetryProject.addIfMissing _ "pytest-html" _ d6).
  assert (H1 : PoetryProject.addIfMissing
                 (PoetryProject.equals
                    (PoetryProject.linter normalizedOptions) "flake8")
                 "flake8" "6.0.0" d7 = d7).
  { apply addIfMissing_done. intros Hc. do 6 apply addIfMissing_stays.
    apply addIfMissing_present; [reflexivity|exact Hc]. }
  rewrite H1.
  assert (H2 : PoetryProject.addIfMissing
                 (PoetryProject.equals
                    (PoetryProject.linter normalizedOptions) "ruff")
                 "ruff" "0.1.5" d7 = d7).
  { apply addIfMissing_done. intros Hc. do 5 apply addIfMissing_stays.
    apply addIfMissing_present; [reflexivity|exact Hc]. }
  rewrite H2.
  assert (H3 : PoetryProject.addIfMissing true "autopep8" "2.0.2" d7 = d7).
  { apply addIfMissing_done. intros Hc. do 4 apply addIfMissing_stays.
    apply addIfMissing_present; [reflexivity|exact Hc]. }
  rewrite H3.
  assert (H4 : PoetryProject.addIfMissing pytest "pytest" "7.3.1" d7 = d7).
  { apply addIfMissing_done. intros Hc. do 3 apply addIfMissing_stays.
    apply addIfMissing_present; [reflexivity|exact Hc]. }
  rewrite H4.
  assert (H5 : PoetryProject.addIfMissing pytest "pytest-sugar" "0.9.7" d7 = d7).
  { apply addIfMissing_done. intros Hc. do 2 apply addIfMissing_stays.
    apply addIfMissing_present; [reflexivity|exact Hc]. }
  rewrite H5.
  assert (H6 : PoetryProject.addIfMissing
                 (pytest && PoetryProject.codeCoverage normalizedOptions)
                 "pytest-cov" "4.1.0" d7 = d7).
  { apply addIfMissing_done. intros Hc. apply addIfMissing_stays.
    apply addIfMissing_present; [reflexivity|exact Hc]. }
  rewrite H6.
  assert (H7 : PoetryProject.addIfMissing
                 (pytest
                  && PoetryProject.codeCoverageHtmlReport normalizedOptions)
                 "pytest-html" "3.2.0" d7 = d7).
  { apply addIfMissing_done. intros Hc.
    apply addIfMissing_present; [reflexivity|exact Hc]. }
  rewrite H7. rewrite bool_decide_eq_true_2 by reflexivity. reflexivity.
Qed.

(** ** The root manifest *)

Lemma groupTable_set p k k' deps opt :
  PoetryProject.groupTable
    (PoetryProject.withGroup p
       (Some (JsObject.set (default [] (PoetryUtils.group p)) k
                (PoetryUtils.mkGroup (Some deps) opt)))) k'
  = if String.eqb k k' then Some deps else PoetryProject.groupTable p k'.
Proof.
  unfold PoetryProject.groupTable, PoetryProject.withGroup.
  cbn [PoetryUtils.group default from_option id].
  destruct (String.eqb_spec k k') as [->|Hne].
  - rewrite get_set_eq. reflexivity.
  - rewrite get_set_ne by exact Hne. reflexivity.
Qed.

Lemma registerPackage_table p0 normalizedOptions p1 :
  PoetryProject.registerPackage p0 normalizedOptions = PoetryUtils.Returned p1 ->
  let g :=
    default "main"
      (PoetryProject.rootPyprojectDependencyGroup normalizedOptions) in
  PoetryUtils.name p1 = PoetryUtils.name p0
  /\ PoetryUtils.version p1 = PoetryUtils.version p0
  /\ (if String.eqb g "main" then PoetryUtils.dependencies p1
      else PoetryProject.groupTable p1 g)
     = Some (<[PoetryProject.packageName normalizedOptions :=
                 PoetryProject.pathEntry normalizedOptions]>
               (default ∅
                  (if String.eqb g "main" then PoetryUtils.dependencies p0
                   else PoetryProject.groupTable p0 g))).
Proof.
  unfold PoetryProject.registerPackage. cbv zeta. intros E.
  destruct (String.eqb _ "main").
  - destruct (PoetryUtils.dependencies p0) as [deps|]; [|discriminate].
    injection E as <-. auto.
  - injection E as <-. rewrite groupTable_set, String.eqb_refl. auto.
Qed.

Lemma addTestTools_tables p1 normalizedOptions :
  let p3 := PoetryProject.addTestTools p1 normalizedOptions in
  PoetryUtils.name p3 = PoetryUtils.name p1
  /\ PoetryUtils.version p3 = PoetryUtils.version p1
  /\ PoetryUtils.dependencies p3 = PoetryUtils.dependencies p1
  /\ (forall g, g <> "dev" ->
        PoetryProject.groupTable p3 g = PoetryProject.groupTable p1 g)
  /\ (forall deps1, PoetryProject.groupTable p1 "dev" = Some deps1 ->
        exists deps3,
          PoetryProject.groupTable p3 "dev" = Some deps3
          /\ forall k,
               PoetryProject.truthyDependency (deps1 !! k) = true ->
               deps3 !! k = deps1 !! k)
  /\ PoetryProject.truthyDependency
       (default ∅ (PoetryProject.groupTable p3 "dev") !! "autopep8") = true.
Proof.
  cbv zeta. unfold PoetryProject.addTestTools.
  pose proof (addTestDependencies_keeps
                (default ∅ (PoetryProject.groupTable p1 "dev"))
                normalizedOptions) as Hkeep.
  pose proof (addTestDependencies_autopep8
                (default ∅ (PoetryProject.groupTable p1 "dev"))
                normalizedOptions) as Hauto.
  pose proof (addTestDependencies_changed
                (default ∅ (PoetryProject.groupTable p1 "dev"))
                normalizedOptions) as Hchanged.
  destruct (PoetryProject.addTestDependencies _ normalizedOptions)
    as [changed deps]. cbn [fst snd] in *.
  set (p2 := match JsObject.get (default [] (PoetryUtils.group p1)) "dev" with
             | Some e => _
             | None => p1
             end).
  assert (H2 : PoetryUtils.name p2 = PoetryUtils.name p1
               /\ PoetryUtils.version p2 = PoetryUtils.version p1
               /\ PoetryUtils.dependencies p2 = PoetryUtils.dependencies p1
               /\ (forall g, g <> "dev" ->
                     PoetryProject.groupTable p2 g
                     = PoetryProject.groupTable p1 g)
               /\ PoetryProject.groupTable p2 "dev"
                  = match PoetryProject.groupTable p1 "dev" with
                    | Some _ => Some deps
                    | None => None
                    end).
  { subst p2.
    destruct (JsObject.get (default [] (PoetryUtils.group p1)) "dev")
      as [e|] eqn:Ee.
    - destruct (PoetryUtils.groupDependencies e) as [d|] eqn:Ed.
      + split; [reflexivity|]. split; [reflexivity|]. split; [reflexivity|].
        split.
        * intros g Hne. rewrite groupTable_set.
          destruct (String.eqb_spec "dev" g); [congruence|reflexivity].
        * rewrite groupTable_set. cbn [String.eqb Ascii.eqb Bool.eqb].
          unfold PoetryProject.groupTable. rewrite Ee, Ed. reflexivity.
      + split; [reflexivity|]. split; [reflexivity|]. split; [reflexivity|].
        split; [reflexivity|].
        unfold PoetryProject.groupTable. rewrite Ee, Ed. reflexivity.
    - split; [reflexivity|]. split; [reflexivity|]. split; [reflexivity|].
      split; [reflexivity|].
      unfold PoetryProject.groupTable. rewrite Ee. reflexivity. }
  destruct H2 as (N2 & V2 & D2 & G2 & T2).
  destruct changed.
  - split; [exact N2|]. split; [exact V2|]. split; [exact D2|].
    split; [|split].
    + intros g Hne. rewrite groupTable_set.
      destruct (String.eqb_spec "dev" g); [congruence|]. apply G2, Hne.
    + intros deps1 E. exists deps. rewrite groupTable_set.
      split; [reflexivity|]. intros k Hk. rewrite E in Hkeep.
      apply Hkeep, Hk.
    + rewrite groupTable_set. exact Hauto.
  - assert (Hsame : deps = default ∅ (PoetryProject.groupTable p1 "dev"))
      by (apply Hchanged; reflexivity).
    split; [exact N2|]. split; [exact V2|]. split; [exact D2|].
    split; [exact G2|]. split.
    + intros deps1 E. exists deps. rewrite T2, E.
      split; [reflexivity|]. intros k Hk. rewrite E in Hkeep.
      apply Hkeep, Hk.
    + rewrite T2.
      destruct (PoetryProject.groupTable p1 "dev") as [d|] eqn:Ed;
        [exact Hauto|].
      cbn [default from_option id] in *. rewrite Hsame in Hauto.
      rewrite lookup_empty in Hauto. discriminate.
Qed.

(** X23: [updateRootPyprojectToml] does nothing for an individual
    package.  Otherwise, when it returns, only the root manifest has been
    written, and there the table of the chosen group ([dependencies] for
    [main], which is the default) holds the new package as
    [{ path: projectRoot, develop: true }] beside the requirements that
    were there; and unless a dev-dependencies project is named, the group
    [dev] of the root requires [autopep8] afterwards. *)
Theorem new_package_is_registered_at_the_root
    (host : gmap string PoetryUtils.PoetryPyprojectToml)
    (normalizedOptions : PoetryProject.NormalizedSchema) :
  let g :=
    default "main"
      (PoetryProject.rootPyprojectDependencyGroup normalizedOptions) in
  let tableIn (p : PoetryUtils.Poetry) :=
    if String.eqb g "main" then PoetryUtils.dependencies p
    else PoetryProject.groupTable p g in
  (PoetryProject.individualPackage normalizedOptions = true ->
   PoetryProject.updateRootPyprojectToml host normalizedOptions
   = PoetryUtils.Returned host)
  /\ forall host',
       PoetryProject.individualPackage normalizedOptions = false ->
       PoetryProject.updateRootPyprojectToml host normalizedOptions
       = PoetryUtils.Returned host' ->
       (forall path, path <> "pyproject.toml" -> host' !! path = host !! path)
       /\ exists root root' p p' table,
            host !! "pyproject.toml" = Some root
            /\ PoetryUtils.poetryOf root = Some p
            /\ host' !! "pyproject.toml" = Some root'
            /\ PoetryUtils.poetryOf root' = Some p'
            /\ PoetryUtils.name p' = PoetryUtils.name p
            /\ PoetryUtils.version p' = PoetryUtils.version p
            /\ tableIn p' = Some table
            /\ table !! PoetryProject.packageName normalizedOptions
               = Some (PoetryProject.pathEntry normalizedOptions)
            /\ (forall k,
                  k <> PoetryProject.packageName normalizedOptions ->
                  PoetryProject.truthyDependency (default ∅ (tableIn p) !! k)
                  = true ->
                  table !! k = default ∅ (tableIn p) !! k)
            /\ (truthy (PoetryProject.devDependenciesProject normalizedOptions)
                = false ->
                PoetryProject.truthyDependency
                  (default ∅ (PoetryProject.groupTable p' "dev") !! "autopep8")
                = true).
Proof.
  cbv zeta. unfold PoetryProject.updateRootPyprojectToml.
  set (g := default "main"
              (PoetryProject.rootPyprojectDependencyGroup normalizedOptions)).
  set (pkg := PoetryProject.packageName normalizedOptions).
  set (entry := PoetryProject.pathEntry normalizedOptions).
  split; [intros ->; reflexivity|].
  intros host' -> H. cbn [negb] in H.
  destruct (host !! "pyproject.toml") as [root|] eqn:Hroot; [|discriminate].
  destruct (PoetryUtils.tool root) as [rootTool|] eqn:Htool; [|discriminate].
  destruct (PoetryUtils.poetry rootTool) as [p|] eqn:Hp; [|discriminate].
  assert (Hof : PoetryUtils.poetryOf root = Some p)
    by (unfold PoetryUtils.poetryOf; rewrite Htool; exact Hp).
  destruct (PoetryProject.registerPackage p normalizedOptions) as [p1|] eqn:E1;
    [|discriminate].
  apply registerPackage_table in E1 as (Hn1 & Hv1 & Ht1).
  fold g pkg entry in Ht1.
  set (p3 := if negb (truthy (PoetryProject.devDependenciesProject
                                normalizedOptions))
             then PoetryProject.addTestTools p1 normalizedOptions else p1) in H.
  injection H as <-.
  split; [intros path Hne; apply lookup_insert_ne; congruence|].
  rewrite lookup_insert_eq.
  assert (Hdev :
            PoetryUtils.name p3 = PoetryUtils.name p1
            /\ PoetryUtils.version p3 = PoetryUtils.version p1
            /\ PoetryUtils.dependencies p3 = PoetryUtils.dependencies p1
            /\ (forall g', g' <> "dev" ->
                  PoetryProject.groupTable p3 g' = PoetryProject.groupTable p1 g')
            /\ (forall deps1, PoetryProject.groupTable p1 "dev" = Some deps1 ->
                  exists deps3,
                    PoetryProject.groupTable p3 "dev" = Some deps3
                    /\ forall k,
                         PoetryProject.truthyDependency (deps1 !! k) = true ->
                         deps3 !! k = deps1 !! k)
            /\ (truthy (PoetryProject.devDependenciesProject normalizedOptions)
                = false ->
                PoetryProject.truthyDependency
                  (default ∅ (PoetryProject.groupTable p3 "dev") !! "autopep8")
                = true)).
  { subst p3.
    destruct (truthy (PoetryProject.devDependenciesProject normalizedOptions));
      cbn [negb].
    - repeat split; try reflexivity; [|discriminate].
      intros deps1 E. exists deps1. auto.
    - destruct (addTestTools_tables p1 normalizedOptions)
        as (A & B & C & D & E & F). auto 10. }
  destruct Hdev as (N3 & V3 & D3 & G3 & T3 & A3).
  assert (Htable : exists table,
            (if String.eqb g "main" then PoetryUtils.dependencies p3
             else PoetryProject.groupTable p3 g) = Some table
            /\ table !! pkg = Some entry
            /\ forall k, k <> pkg ->
                 PoetryProject.truthyDependency
                   (default ∅
                      (if String.eqb g "main" then PoetryUtils.dependencies p
                       else PoetryProject.groupTable p g) !! k) = true ->
                 table !! k
                 = default ∅
                     (if String.eqb g "main" then PoetryUtils.dependencies p
                      else PoetryProject.groupTable p g) !! k).
  { destruct (String.eqb g "main") eqn:Hg.
    - exists (<[pkg := entry]> (default ∅ (PoetryUtils.dependencies p))).
      split; [congruence|]. split; [apply lookup_insert_eq|].
      intros k Hk _; apply lookup_insert_ne; congruence.
    - destruct (String.eqb_spec g "dev") as [Hd|Hd].
      + rewrite Hd in *. destruct (T3 _ Ht1) as (deps3 & E3 & K3).
        exists deps3. split; [exact E3|].
        split; [rewrite K3; rewrite lookup_insert_eq; reflexivity|].
        intros k Hk Hk'.
        rewrite K3; rewrite lookup_insert_ne by congruence;
          [reflexivity|exact Hk'].
      + exists (<[pkg := entry]> (default ∅ (PoetryProject.groupTable p g))).
        split; [rewrite G3 by exact Hd; exact Ht1|].
        split; [apply lookup_insert_eq|].
        intros k Hk _; apply lookup_insert_ne; congruence. }
  destruct Htable as (table & Htab & Hpkg & Hkeep).
  exists root. eexists. exists p, p3, table.
  split; [reflexivity|]. split; [exact Hof|]. split; [reflexivity|].
  split; [reflexivity|]. split; [congruence|]. split; [congruence|].
  split; [exact Htab|]. split; [exact Hpkg|]. split; [exact Hkeep|exact A3].
Qed.

(** ** The project of the dev dependencies *)

(** X24: [updateDevDependenciesProject] does nothing when no project is
    named for the dev dependencies, and throws when that project is
    unknown.  When it returns, no manifest but that project's differs, and
    there only [dependencies]: the requirements that were there are kept,
    and [autopep8] is required. *)
Theorem dev_dependencies_project_gets_the_test_tools
    (projectRootOf : string -> option string)
    (pathJoin : string -> string -> string)
    (host : gmap string PoetryUtils.PoetryPyprojectToml)
    (normalizedOptions : PoetryProject.NormalizedSchema) :
  let devProject :=
    inTemplate (PoetryProject.devDependenciesProject normalizedOptions) in
  let result :=
    PoetryProject.updateDevDependenciesProject projectRootOf pathJoin host
      normalizedOptions in
  (truthy (PoetryProject.devDependenciesProject normalizedOptions) = false ->
   result = PoetryUtils.Returned host)
  /\ (truthy (PoetryProject.devDependenciesProject normalizedOptions) = true ->
      projectRootOf devProject = None ->
      result = PoetryUtils.Threw (PoetryUtils.NoSuchProject devProject))
  /\ forall host',
       truthy (PoetryProject.devDependenciesProject normalizedOptions) = true ->
       result = PoetryUtils.Returned host' ->
       exists dir manifest manifest' p p' deps deps',
         projectRootOf devProject = Some dir
         /\ (forall path, path <> pathJoin dir "pyproject.toml" ->
               host' !! path = host !! path)
         /\ host !! pathJoin dir "pyproject.toml" = Some manifest
         /\ host' !! pathJoin dir "pyproject.toml" = Some manifest'
         /\ PoetryUtils.poetryOf manifest = Some p
         /\ PoetryUtils.poetryOf manifest' = Some p'
         /\ PoetryUtils.name p' = PoetryUtils.name p
         /\ PoetryUtils.version p' = PoetryUtils.version p
         /\ PoetryUtils.group p' = PoetryUtils.group p
         /\ PoetryUtils.dependencies p = Some deps
         /\ PoetryUtils.dependencies p' = Some deps'
         /\ (forall k, PoetryProject.truthyDependency (deps !! k) = true ->
               deps' !! k = deps !! k)
         /\ PoetryProject.truthyDependency (deps' !! "autopep8") = true.
Proof.
  cbv zeta.
  unfold PoetryProject.updateDevDependenciesProject,
    PoetryProject.getPyprojectTomlByProjectName.
  split; [intros ->; reflexivity|].
  split; [intros -> ->; reflexivity|].
  intros host' -> H.
  destruct (projectRootOf _) as [dir|]; [|discriminate].
  destruct (host !! pathJoin dir "pyproject.toml") as [manifest|] eqn:Hm;
    [|discriminate].
  destruct (PoetryUtils.tool manifest) as [t|] eqn:Ht; [|discriminate].
  destruct (PoetryUtils.poetry t) as [p|] eqn:Hp; [|discriminate].
  destruct (PoetryUtils.dependencies p) as [deps|] eqn:Hd; [|discriminate].
  assert (Hof : PoetryUtils.poetryOf manifest = Some p)
    by (unfold PoetryUtils.poetryOf; rewrite Ht; exact Hp).
  pose proof (addTestDependencies_keeps deps normalizedOptions) as Hkeep.
  pose proof (addTestDependencies_autopep8 deps normalizedOptions) as Hauto.
  pose proof (addTestDependencies_changed deps normalizedOptions) as Hchanged.
  destruct (PoetryProject.addTestDependencies deps normalizedOptions)
    as [changed deps']. cbn [fst snd] in *.
  destruct changed; injection H as <-.
  - exists dir, manifest. eexists. exists p. eexists. exists deps, deps'.
    split; [reflexivity|].
    split; [intros path Hne; apply lookup_insert_ne; congruence|].
    split; [exact Hm|]. split; [apply lookup_insert_eq|].
    split; [exact Hof|]. split; [reflexivity|].
    cbn [PoetryProject.withDependencies PoetryUtils.name PoetryUtils.version
         PoetryUtils.group PoetryUtils.dependencies].
    rewrite (idemp_L (∪)). auto 10.
  - assert (E : deps' = deps) by (apply Hchanged; reflexivity). subst deps'.
    exists dir, manifest, manifest, p, p, deps, deps. auto 15.
Qed.
